(** * Knowledge-graph store, batch builder and embedding pipeline

    A shallow embedding of [kg_builder.py], [embedding_store.py],
    [kag_builder/kg_construction.py], [kag_builder/indexing.py],
    [kag_builder/relation_extraction.py] and the deduplication of [main.py],
    with the properties of the graph-construction subsystem stated and
    proved (or refuted) against it.

    Python objects are modelled by values: a [dict] is an association list in
    insertion order with pairwise distinct keys, a [str] is a string of code
    points below 256, an [int] is a [Z].  Floats are left out of the value
    universe.  Logging has no effect on any result and is left out. *)

From Stdlib Require Import ZArith NArith Ascii String List Bool Permutation.
From stdpp Require Import base gmap strings list pretty.

Local Open Scope string_scope.
Local Open Scope Z_scope.

(** ** Python values *)

#[local] Set Warnings "-register-all".

Inductive value : Type :=
| VNone
| VBool (b : bool)
| VInt (z : Z)
| VStr (s : string)
| VList (l : list value)
| VDict (d : list (string * value)).

(** A [Dict[str, Any]]: keys in insertion order. *)
Abbreviation pydict := (list (string * value)).

Module PyDict.

(** [d.get(k)] where the result [None] stands for an absent key. *)
Fixpoint lookup (k : string) (d : pydict) : option value :=
  match d with
  | [] => None
  | (k', v) :: d' => if String.eqb k k' then Some v else lookup k d'
  end.

(** [d.get(k)] / [d.get(k, dflt)] as Python returns it. *)
Definition get (d : pydict) (k : string) : value :=
  match lookup k d with Some v => v | None => VNone end.

Definition get_default (d : pydict) (k : string) (dflt : value) : value :=
  match lookup k d with Some v => v | None => dflt end.

(** [d[k] = v]: an existing key keeps its position, a new key goes last. *)
Fixpoint set (k : string) (v : value) (d : pydict) : pydict :=
  match d with
  | [] => [(k, v)]
  | (k', v') :: d' =>
      if String.eqb k k' then (k', v) :: d' else (k', v') :: set k v d'
  end.

(** [d.update(other)]: assign the items of [other] in its order. *)
Definition update (d other : pydict) : pydict :=
  fold_left (fun acc kv => set (fst kv) (snd kv) acc) other d.

(** [d.copy()]: a new dict with the same items; values are immutable here. *)
Definition copy (d : pydict) : pydict := d.

Definition keys (d : pydict) : list string := map fst d.

End PyDict.

(** Truth value of an object, as tested by [if x] and [not x]. *)
Definition truthy (v : value) : bool :=
  match v with
  | VNone => false
  | VBool b => b
  | VInt z => negb (z =? 0)
  | VStr s => negb (String.eqb s "")
  | VList l => match l with [] => false | _ => true end
  | VDict d => match d with [] => false | _ => true end
  end.

(** ** Exceptions *)

Inductive exn : Type :=
| ValueError (msg : string)
| TypeError (msg : string)
| KeyError (key : string)
| Exception (msg : string).

(** ** Hashable keys

    A dict or set of the store is indexed by any hashable object.  [True]
    and [1] hash and compare equal, lists and dicts are not hashable. *)

Inductive pykey : Type :=
| KNone
| KInt (z : Z)
| KStr (s : string).

Global Instance pykey_eq_dec : EqDecision pykey.
Proof. solve_decision. Defined.

Global Instance pykey_countable : Countable pykey.
Proof.
  refine (inj_countable'
            (fun k => match k with
                      | KNone => inl ()
                      | KInt z => inr (inl z)
                      | KStr s => inr (inr s)
                      end)
            (fun x => match x with
                      | inl _ => KNone
                      | inr (inl z) => KInt z
                      | inr (inr s) => KStr s
                      end) _).
  by intros [].
Defined.

Definition hash_key (v : value) : exn + pykey :=
  match v with
  | VNone => inr KNone
  | VBool b => inr (KInt (if b then 1 else 0))
  | VInt z => inr (KInt z)
  | VStr s => inr (KStr s)
  | VList _ => inl (TypeError "unhashable type: 'list'")
  | VDict _ => inl (TypeError "unhashable type: 'dict'")
  end.

(** ** Text rendering: [str], [repr] and [json.dumps] *)

Definition dquote : ascii := ascii_of_N 34.
Definition squote : ascii := ascii_of_N 39.
Definition bslash : ascii := ascii_of_N 92.
Definition newline : string := String (ascii_of_N 10) "".

Definition chr (c : ascii) : string := String c "".

Definition hex_digit (n : N) : ascii :=
  match String.get (N.to_nat n) "0123456789abcdef" with
  | Some c => c
  | None => "0"%char
  end.

Definition hex2 (n : N) : string :=
  String (hex_digit (n / 16)) (String (hex_digit (n mod 16)) "").

Fixpoint concat_map (f : ascii -> string) (s : string) : string :=
  match s with
  | EmptyString => ""
  | String c s' => f c ++ concat_map f s'
  end.

Fixpoint contains_char (c : ascii) (s : string) : bool :=
  match s with
  | EmptyString => false
  | String c' s' => Ascii.eqb c c' || contains_char c s'
  end.

Fixpoint join (sep : string) (l : list string) : string :=
  match l with
  | [] => ""
  | [x] => x
  | x :: l' => x ++ sep ++ join sep l'
  end.

(** [repr] of a [str]. *)
Definition repr_char (q c : ascii) : string :=
  let n := N_of_ascii c in
  if Ascii.eqb c q || Ascii.eqb c bslash then String bslash (chr c)
  else if (n =? 9)%N then String bslash "t"
  else if (n =? 10)%N then String bslash "n"
  else if (n =? 13)%N then String bslash "r"
  else if (n <? 32)%N || (n =? 127)%N then String bslash ("x" ++ hex2 n)
  else if (n <? 127)%N then chr c
  else if (n <=? 160)%N || (n =? 173)%N then String bslash ("x" ++ hex2 n)
  else chr c.

Definition repr_str (s : string) : string :=
  let q := if contains_char squote s && negb (contains_char dquote s)
           then dquote else squote in
  chr q ++ concat_map (repr_char q) s ++ chr q.

Fixpoint py_repr (v : value) : string :=
  match v with
  | VNone => "None"
  | VBool b => if b then "True" else "False"
  | VInt z => pretty z
  | VStr s => repr_str s
  | VList l => "[" ++ join ", " (map py_repr l) ++ "]"
  | VDict d =>
      "{" ++ join ", " (map (fun kv => repr_str (fst kv) ++ ": " ++ py_repr (snd kv)) d)
          ++ "}"
  end.

(** [str(v)], which is what an f-string field renders. *)
Definition py_str (v : value) : string :=
  match v with
  | VStr s => s
  | _ => py_repr v
  end.

(** [json.dumps] string encoding with [ensure_ascii=True]. *)
Definition json_char (c : ascii) : string :=
  let n := N_of_ascii c in
  if Ascii.eqb c dquote || Ascii.eqb c bslash then String bslash (chr c)
  else if (n =? 8)%N then String bslash "b"
  else if (n =? 12)%N then String bslash "f"
  else if (n =? 10)%N then String bslash "n"
  else if (n =? 13)%N then String bslash "r"
  else if (n =? 9)%N then String bslash "t"
  else if (n <? 32)%N || (126 <? n)%N then String bslash ("u00" ++ hex2 n)
  else chr c.

Definition json_str (s : string) : string :=
  chr dquote ++ concat_map json_char s ++ chr dquote.

(** [sorted(items)] for [sort_keys=True]: a stable insertion sort on the
    keys, compared by code point. *)
Fixpoint insert_item {A} (x : string * A) (l : list (string * A)) : list (string * A) :=
  match l with
  | [] => [x]
  | y :: l' => if String.leb (fst x) (fst y) then x :: y :: l' else y :: insert_item x l'
  end.

Fixpoint sort_items {A} (l : list (string * A)) : list (string * A) :=
  match l with
  | [] => []
  | x :: l' => insert_item x (sort_items l')
  end.

(** [json.dumps(v, sort_keys=True)]: each dict renders its items after
    sorting them by key. *)
Fixpoint json_dumps (v : value) : string :=
  match v with
  | VNone => "null"
  | VBool b => if b then "true" else "false"
  | VInt z => pretty z
  | VStr s => json_str s
  | VList l => "[" ++ join ", " (map json_dumps l) ++ "]"
  | VDict d =>
      "{" ++ join ", "
            (map (fun kv => json_str (fst kv) ++ ": " ++ snd kv)
               (sort_items (map (fun kv => (fst kv, json_dumps (snd kv))) d)))
          ++ "}"
  end.

(** ** Calls that may raise

    A call runs on a state (the receiver, the globals and the objects passed
    by reference) and either returns or raises; the state survives both. *)

Definition M (S A : Type) : Type := S -> (exn + A) * S.

Global Instance M_ret {S} : MRet (M S) := fun A a s => (inr a, s).

Global Instance M_bind {S} : MBind (M S) := fun A B f m s =>
  match m s with
  | (inr a, s') => f a s'
  | (inl e, s') => (inl e, s')
  end.

Definition raise {S A} (e : exn) : M S A := fun s => (inl e, s).

Definition lift {S A} (r : exn + A) : M S A := fun s => (r, s).

Definition gets {S A} (f : S -> A) : M S A := fun s => (inr (f s), s).

Definition modify {S} (f : S -> S) : M S unit := fun s => (inr (), f s).

(** [try: m except Exception as e: h e] *)
Definition try_except {S A} (m : M S A) (h : exn -> M S A) : M S A := fun s =>
  match m s with
  | (inr a, s') => (inr a, s')
  | (inl e, s') => h e s'
  end.

(** Run [m] on the part of the state selected by [proj], and store what it
    leaves there with [inj]. *)
Definition zoom {S T A} (proj : S -> T) (inj : T -> S -> S) (m : M T A) : M S A := fun s =>
  let '(r, t') := m (proj s) in (r, inj t' s).

(** [for x in xs: body]: the body runs on the loop state together with the
    current object, which it may mutate in place; an exception that leaves
    the body leaves the loop. *)
Fixpoint for_each {S A} (body : M (S * A) unit) (xs : list A) (s : S)
  : (exn + unit) * (S * list A) :=
  match xs with
  | [] => (inr (), (s, []))
  | x :: xs' =>
      match body (s, x) with
      | (inr _, (s', x')) =>
          let '(r, (s'', xs'')) := for_each body xs' s' in (r, (s'', x' :: xs''))
      | (inl e, (s', x')) => (inl e, (s', x' :: xs'))
      end
  end.

(** [for x in xs: body] over objects that the body only reads. *)
Fixpoint for_in {S A} (xs : list A) (body : A -> M S unit) : M S unit :=
  match xs with
  | [] => mret ()
  | x :: xs' => body x;; for_in xs' body
  end.

(** Pure code that may raise. *)
Global Instance exn_ret : MRet (sum exn) := fun A a => inr a.

Global Instance exn_bind : MBind (sum exn) := fun A B f m =>
  match m with
  | inr a => f a
  | inl e => inl e
  end.

(** [[f(x) for x in xs]]: the first exception leaves the comprehension. *)
Fixpoint map_exn {A B} (f : A -> exn + B) (xs : list A) : exn + list B :=
  match xs with
  | [] => inr []
  | x :: xs' => y ← f x; ys ← map_exn f xs'; mret (y :: ys)
  end.

(** [d[k]] *)
Definition getitem (d : pydict) (k : string) : exn + value :=
  match PyDict.lookup k d with
  | Some v => inr v
  | None => inl (KeyError k)
  end.

(** ** kg_builder.py *)

Module KgBuilder.

(** [MockLightRAGKnowledgeGraph]: nodes and edges by id, and the ids of
    the nodes added in the current session. *)
Record MockLightRAGKnowledgeGraph : Type := {
  nodes : gmap pykey pydict;
  edges : gmap pykey pydict;
  _temp_node_ids : gset pykey
}.

Abbreviation KG := MockLightRAGKnowledgeGraph.

Definition __init__ : KG :=
  {| nodes := ∅; edges := ∅; _temp_node_ids := ∅ |}.

(** [k in d] *)
Definition contains (d : gmap pykey pydict) (k : pykey) : bool :=
  bool_decide (is_Some (d !! k)).

(** [d[k].update(x)] if [k in d], else [d[k] = x.copy()]. *)
Definition upsert (d : gmap pykey pydict) (k : pykey) (x : pydict) : gmap pykey pydict :=
  match d !! k with
  | Some old => <[k := PyDict.update old x]> d
  | None => <[k := PyDict.copy x]> d
  end.

(** [add_node(self, entity)]: the state is [(self, entity)]. *)
Definition add_node : M (KG * pydict) value :=
  entity ← gets snd;
  let node_id := PyDict.get entity "id" in
  node_id ←
    (if negb (truthy node_id) then
       self ← gets fst;
       let node_id := VStr ("node_" ++ pretty (size (nodes self) + 1)%nat) in
       modify (fun '(self, entity) => (self, PyDict.set "id" node_id entity));;
       mret node_id
     else mret node_id);
  k ← lift (hash_key node_id);
  modify (fun '(self, entity) =>
            ({| nodes := upsert (nodes self) k entity;
                edges := edges self;
                _temp_node_ids := {[k]} ∪ _temp_node_ids self |}, entity));;
  mret node_id.

(** [add_edge(self, relationship)]: the state is [(self, relationship)]. *)
Definition add_edge : M (KG * pydict) value :=
  relationship ← gets snd;
  let edge_id := PyDict.get relationship "id" in
  let source_id := PyDict.get relationship "source_entity_id" in
  let target_id := PyDict.get relationship "target_entity_id" in
  edge_id ←
    (if negb (truthy edge_id) then
       self ← gets fst;
       let edge_id := VStr ("edge_" ++ pretty (size (edges self) + 1)%nat) in
       modify (fun '(self, relationship) => (self, PyDict.set "id" edge_id relationship));;
       mret edge_id
     else mret edge_id);
  self ← gets fst;
  ks ← lift (hash_key source_id);
  if negb (contains (nodes self) ks || bool_decide (ks ∈ _temp_node_ids self)) then
    raise (ValueError ("Source node " ++ py_str source_id ++ " not found."))
  else
    kt ← lift (hash_key target_id);
    if negb (contains (nodes self) kt || bool_decide (kt ∈ _temp_node_ids self)) then
      raise (ValueError ("Target node " ++ py_str target_id ++ " not found."))
    else
      ke ← lift (hash_key edge_id);
      modify (fun '(self, relationship) =>
                ({| nodes := nodes self;
                    edges := upsert (edges self) ke relationship;
                    _temp_node_ids := _temp_node_ids self |}, relationship));;
      mret edge_id.

Definition get_graph_summary (self : KG) : string :=
  "Graph contains " ++ pretty (size (nodes self)) ++ " nodes and "
    ++ pretty (size (edges self)) ++ " edges.".

Definition clear_session_tracking (self : KG) : KG :=
  {| nodes := nodes self; edges := edges self; _temp_node_ids := ∅ |}.

(** The body of the loop of [add_entities_to_graph]; the loop state is the
    graph instance and the list [added_node_ids]. *)
Definition add_entities_body : M ((KG * list value) * pydict) unit :=
  try_except
    (node_id ← zoom (fun s => (fst (fst s), snd s))
                    (fun t s => ((fst t, snd (fst s)), snd t)) add_node;
     modify (fun '((kg, added), entity) => ((kg, (added ++ [node_id])%list), entity)))
    (fun e => mret ()).

(** [add_entities_to_graph(entities)]: the state is the global
    [kg_instance] and the list passed in. *)
Definition add_entities_to_graph : M (option KG * list pydict) (list value) :=
  fun '(kg_instance, entities) =>
    match kg_instance with
    | None => (inr [], (kg_instance, entities))
    | Some kg =>
        match entities with
        | [] => (inr [], (kg_instance, entities))
        | _ =>
            let '(r, ((kg', added_node_ids), entities')) :=
              for_each add_entities_body entities (kg, []) in
            (match r with inr _ => inr added_node_ids | inl e => inl e end,
             (Some kg', entities'))
        end
    end.

(** The body of the loop of [add_relationships_to_graph]: both handlers
    log and go on. *)
Definition add_relationships_body : M ((KG * list value) * pydict) unit :=
  try_except
    (edge_id ← zoom (fun s => (fst (fst s), snd s))
                    (fun t s => ((fst t, snd (fst s)), snd t)) add_edge;
     modify (fun '((kg, added), rel) => ((kg, (added ++ [edge_id])%list), rel)))
    (fun e => match e with
              | ValueError _ => mret ()
              | _ => mret ()
              end).

Definition add_relationships_to_graph : M (option KG * list pydict) (list value) :=
  fun '(kg_instance, relationships) =>
    match kg_instance with
    | None => (inr [], (kg_instance, relationships))
    | Some kg =>
        match relationships with
        | [] => (inr [], (kg_instance, relationships))
        | _ =>
            let '(r, ((kg', added_edge_ids), relationships')) :=
              for_each add_relationships_body relationships (kg, []) in
            (match r with inr _ => inr added_edge_ids | inl e => inl e end,
             (Some kg', relationships'))
        end
    end.

Record build_result : Type := {
  added_nodes : list value;
  added_edges : list value
}.

(** [build_or_update_graph(entities, relationships)]: the state is the
    global [kg_instance] and the two lists passed in. *)
Definition build_or_update_graph
  : M (option KG * (list pydict * list pydict)) build_result :=
  kg_instance ← gets fst;
  match kg_instance with
  | None => mret {| added_nodes := []; added_edges := [] |}
  | Some kg =>
      modify (fun '(_, args) => (Some (clear_session_tracking kg), args));;
      added_node_ids ← zoom (fun s => (fst s, fst (snd s)))
                            (fun t s => (fst t, (snd t, snd (snd s))))
                            add_entities_to_graph;
      added_edge_ids ← zoom (fun s => (fst s, snd (snd s)))
                            (fun t s => (fst t, (fst (snd s), snd t)))
                            add_relationships_to_graph;
      mret {| added_nodes := added_node_ids; added_edges := added_edge_ids |}
  end.

End KgBuilder.

(** ** embedding_store.py *)

Module EmbeddingStore.

(** [_create_entity_description(entity)] *)
Definition _create_entity_description (entity : pydict) : string :=
  let description :=
    "Entity: " ++ py_str (PyDict.get_default entity "text" (VStr "Unnamed Entity"))
      ++ " (Type: " ++ py_str (PyDict.get_default entity "label" (VStr "Unknown")) ++ ")" in
  match PyDict.get entity "attributes" with
  | VNone => description
  | attributes =>
      let attrs_str := json_dumps attributes in
      description ++ newline ++ "Attributes: " ++ attrs_str
  end.

(** [entities_map.get(key)] followed by [if entity: entity.get("text", dflt)]. *)
Definition entity_text (entities_map : gmap pykey pydict) (k : pykey) (dflt : value) : value :=
  match entities_map !! k with
  | Some entity => if truthy (VDict entity) then PyDict.get_default entity "text" dflt else dflt
  | None => dflt
  end.

(** [_create_relationship_description(relationship, entities_map)] *)
Definition _create_relationship_description
    (relationship : pydict) (entities_map : gmap pykey pydict) : exn + string :=
  let source_entity_text := VStr "Unknown Source Entity" in
  let target_entity_text := VStr "Unknown Target Entity" in
  source_id ← getitem relationship "source_entity_id";
  ks ← hash_key source_id;
  let source_entity_text := entity_text entities_map ks source_entity_text in
  target_id ← getitem relationship "target_entity_id";
  kt ← hash_key target_id;
  let target_entity_text := entity_text entities_map kt target_entity_text in
  let description :=
    "Relationship: '" ++ py_str source_entity_text ++ "' "
      ++ py_str (PyDict.get_default relationship "label" (VStr "RELATED_TO")) ++ " "
      ++ "'" ++ py_str target_entity_text ++ "'. (ID: "
      ++ py_str (PyDict.get relationship "id") ++ ")" in
  if truthy (PyDict.get relationship "attributes") then
    let attrs_str := json_dumps (PyDict.get relationship "attributes") in
    mret (description ++ newline ++ "Attributes: " ++ attrs_str)
  else mret description.

(** A record of the bulk upsert. *)
Record item (vector : Type) : Type := {
  item_id : string;
  text_description : string;
  item_vector : vector;
  metadata : pydict
}.
Arguments item_id {vector}.
Arguments text_description {vector}.
Arguments item_vector {vector}.
Arguments metadata {vector}.

Record counts : Type := {
  entities_processed : nat;
  relationships_processed : nat
}.

Fixpoint zip3 {A B C} (xs : list A) (ys : list B) (zs : list C) : list (A * B * C) :=
  match xs, ys, zs with
  | x :: xs', y :: ys', z :: zs' => (x, y, z) :: zip3 xs' ys' zs'
  | _, _, _ => []
  end.

Section Pipeline.

(** The two collaborators: an embedding model and a vector store, each
    with a state of its own, each call of which may raise. *)
Context {vector EState VState : Type}.
Variable embed_batch : list string -> M EState (list vector).
Variable add_items : list (item vector) -> M VState unit.

(** The local variables of [store_embeddings]. *)
Record locals : Type := {
  items_to_add_to_db : list (item vector);
  entities_processed_count : nat;
  relationships_processed_count : nat
}.

Abbreviation frame := ((EState * VState) * locals)%type.

Definition on_model {A} (m : M EState A) : M frame A :=
  zoom (fun s => fst (fst s)) (fun t s => ((t, snd (fst s)), snd s)) m.

Definition on_store {A} (m : M VState A) : M frame A :=
  zoom (fun s => snd (fst s)) (fun t s => ((fst (fst s), t), snd s)) m.

Definition on_locals (f : locals -> locals) : M frame unit :=
  modify (fun s => (fst s, f (snd s))).

(** The body of the loop over [zip(entities, entity_texts,
    entity_vectors)]: [entity['id']] raises when the key is absent. *)
Definition append_entity_item (x : pydict * string * vector) : M frame unit :=
  let '(entity, text_desc, vector) := x in
  id ← lift (getitem entity "id");
  on_locals (fun l =>
    {| items_to_add_to_db :=
         items_to_add_to_db l ++
           [{| item_id := "entity_" ++ py_str id;
               text_description := text_desc;
               item_vector := vector;
               metadata := [("type", VStr "entity");
                            ("original_id", id);
                            ("label", PyDict.get entity "label")] |}];
       entities_processed_count := entities_processed_count l + 1;
       relationships_processed_count := relationships_processed_count l |}).

(** [if entities: ...] *)
Definition process_entities (entities : list pydict) : M frame unit :=
  let entity_texts := map _create_entity_description entities in
  try_except
    (entity_vectors ← on_model (embed_batch entity_texts);
     for_in (zip3 entities entity_texts entity_vectors) append_entity_item)
    (fun e => mret ()).

(** The body of the loop over [zip(relationships, rel_texts,
    rel_vectors)]. *)
Definition append_relationship_item (x : pydict * string * vector) : M frame unit :=
  let '(rel, text_desc, vector) := x in
  id ← lift (getitem rel "id");
  on_locals (fun l =>
    {| items_to_add_to_db :=
         items_to_add_to_db l ++
           [{| item_id := "relationship_" ++ py_str id;
               text_description := text_desc;
               item_vector := vector;
               metadata := [("type", VStr "relationship");
                            ("original_id", id);
                            ("label", PyDict.get rel "label");
                            ("source_id", PyDict.get rel "source_entity_id");
                            ("target_id", PyDict.get rel "target_entity_id")] |}];
       entities_processed_count := entities_processed_count l;
       relationships_processed_count := relationships_processed_count l + 1 |}).

(** [if relationships: ...]; a map that is [None] or empty is replaced
    by an empty map, and the descriptions are built outside the [try]. *)
Definition process_relationships
    (relationships : list pydict)
    (entities_map_for_relationships : option (gmap pykey pydict)) : M frame unit :=
  let entities_map_for_relationships :=
    match entities_map_for_relationships with
    | Some m => m
    | None => ∅
    end in
  rel_texts ← lift (map_exn (fun r => _create_relationship_description r
                                        entities_map_for_relationships)
                      relationships);
  try_except
    (rel_vectors ← on_model (embed_batch rel_texts);
     for_in (zip3 relationships rel_texts rel_vectors) append_relationship_item)
    (fun e => mret ()).

Definition store_embeddings_body
    (entities relationships : option (list pydict))
    (entities_map_for_relationships : option (gmap pykey pydict)) : M frame counts :=
  match entities with
  | Some (e :: es) => process_entities (e :: es)
  | _ => mret ()
  end;;
  match relationships with
  | Some (r :: rs) => process_relationships (r :: rs) entities_map_for_relationships
  | _ => mret ()
  end;;
  items ← gets (fun s => items_to_add_to_db (snd s));
  match items with
  | [] => mret ()
  | _ => try_except (on_store (add_items items)) (fun e => mret ())
  end;;
  l ← gets snd;
  mret {| entities_processed := entities_processed_count l;
          relationships_processed := relationships_processed_count l |}.

(** [store_embeddings(entities, relationships,
    entities_map_for_relationships)]: the state is the pair of globals
    [embedding_model_client] and [vector_db_client]. *)
Definition store_embeddings
    (entities relationships : option (list pydict))
    (entities_map_for_relationships : option (gmap pykey pydict))
  : M (option EState * option VState) counts :=
  fun '(embedding_model_client, vector_db_client) =>
    match embedding_model_client, vector_db_client with
    | Some model, Some db =>
        let '(r, ((model', db'), _)) :=
          store_embeddings_body entities relationships entities_map_for_relationships
            ((model, db),
             {| items_to_add_to_db := [];
                entities_processed_count := 0;
                relationships_processed_count := 0 |}) in
        (r, (Some model', Some db'))
    | _, _ =>
        (inr {| entities_processed := 0; relationships_processed := 0 |},
         (embedding_model_client, vector_db_client))
    end.

End Pipeline.

End EmbeddingStore.

(** ** Equality of objects, [==] *)

Fixpoint py_eq (v1 v2 : value) : bool :=
  match v1, v2 with
  | VNone, VNone => true
  | VBool a, VBool b => Bool.eqb a b
  | VBool a, VInt z => (if a then 1 else 0) =? z
  | VInt z, VBool b => z =? (if b then 1 else 0)
  | VInt a, VInt b => a =? b
  | VStr a, VStr b => String.eqb a b
  | VList l1, VList l2 =>
      (fix go (l1 l2 : list value) : bool :=
         match l1, l2 with
         | [], [] => true
         | x :: l1', y :: l2' => py_eq x y && go l1' l2'
         | _, _ => false
         end) l1 l2
  | VDict d1, VDict d2 =>
      (length d1 =? length d2)%nat &&
      (fix go (d : list (string * value)) : bool :=
         match d with
         | [] => true
         | kv :: d' =>
             match PyDict.lookup (fst kv) d2 with
             | Some v' => py_eq (snd kv) v' && go d'
             | None => false
             end
         end) d1
  | _, _ => false
  end.

(** ** The part of networkx that kag_builder uses

    A [MultiDiGraph] keeps an attribute dict per node and, per ordered pair
    of nodes joined by edges, the dict of their parallel edges, from the key
    of an edge to its attribute dict, in insertion order.  A call
    [f(a, **kwargs)] binds the keywords to the parameters of [f]: a keyword
    that names a parameter given by position is a [TypeError], worded as
    CPython 3.10 words it. *)

Module Networkx.

Record MultiDiGraph : Type := {
  _node : gmap pykey pydict;
  _adj : gmap (pykey * pykey) (list (pykey * pydict))
}.

Definition empty : MultiDiGraph := {| _node := ∅; _adj := ∅ |}.

(** [graph.has_node(n)]: an unhashable [n] is not a node. *)
Definition has_node (g : MultiDiGraph) (n : value) : bool :=
  match hash_key n with
  | inr k => bool_decide (is_Some (_node g !! k))
  | inl _ => false
  end.

(** The keywords [**kwargs] of a call of [method] whose parameters
    [positional] are given by position: the first keyword that names one of
    them is refused. *)
Definition bind_keywords (method : string) (positional : list string) (kwargs : pydict)
  : exn + unit :=
  match List.find (fun kv => existsb (String.eqb (fst kv)) positional) kwargs with
  | Some kv =>
      inl (TypeError (method ++ "() got multiple values for argument '" ++ fst kv ++ "'"))
  | None => inr ()
  end.

(** [graph.add_node(n, **attr)], of signature
    [add_node(self, node_for_adding, **attr)]. *)
Definition add_node (g : MultiDiGraph) (n : value) (attr : pydict) : exn + MultiDiGraph :=
  bind_keywords "DiGraph.add_node" ["self"; "node_for_adding"] attr;;
  k ← hash_key n;
  match _node g !! k with
  | Some old => mret {| _node := <[k := PyDict.update old attr]> (_node g); _adj := _adj g |}
  | None =>
      match k with
      | KNone => inl (ValueError "None cannot be a node")
      | _ => mret {| _node := <[k := PyDict.update [] attr]> (_node g); _adj := _adj g |}
      end
  end.

(** [graph.nodes[n][key] = value] for a node that exists. *)
Definition set_node_attr (g : MultiDiGraph) (k : pykey) (key : string) (v : value) : MultiDiGraph :=
  {| _node := alter (PyDict.set key v) k (_node g); _adj := _adj g |}.

(** [keydict.get(key)] and [keydict[key] = datadict] on the dict of the
    parallel edges between two nodes: a key that is present keeps its
    position. *)
Fixpoint keydict_get (key : pykey) (keydict : list (pykey * pydict)) : option pydict :=
  match keydict with
  | [] => None
  | (key', datadict) :: keydict' =>
      if decide (key = key') then Some datadict else keydict_get key keydict'
  end.

Fixpoint keydict_set (key : pykey) (datadict : pydict) (keydict : list (pykey * pydict))
  : list (pykey * pydict) :=
  match keydict with
  | [] => [(key, datadict)]
  | (key', datadict') :: keydict' =>
      if decide (key = key') then (key', datadict) :: keydict'
      else (key', datadict') :: keydict_set key datadict keydict'
  end.

(** [new_edge_key(u, v)]: [key = len(keydict)], then [key += 1] while
    [key in keydict]; of the [len(keydict) + 1] keys from [len(keydict)]
    on, one is not in [keydict]. *)
Fixpoint free_key (fuel : nat) (key : Z) (keydict : list (pykey * pydict)) : Z :=
  match fuel with
  | O => key
  | S fuel' =>
      match keydict_get (KInt key) keydict with
      | Some _ => free_key fuel' (key + 1) keydict
      | None => key
      end
  end.

Definition new_edge_key (keydict : list (pykey * pydict)) : pykey :=
  KInt (free_key (length keydict) (Z.of_nat (length keydict)) keydict).

(** [graph.add_edge(u, v, **kwargs)] between two nodes that exist, of
    signature [add_edge(self, u_for_edge, v_for_edge, key=None, **attr)]: a
    keyword [key] is the key of the edge, and the data of an edge that has
    that key already is updated. *)
Definition add_edge (g : MultiDiGraph) (u v : pykey) (kwargs : pydict) : exn + MultiDiGraph :=
  bind_keywords "MultiDiGraph.add_edge" ["self"; "u_for_edge"; "v_for_edge"] kwargs;;
  let key := PyDict.get kwargs "key" in
  let attr := List.filter (fun kv => negb (String.eqb (fst kv) "key")) kwargs in
  let keydict := default [] (_adj g !! (u, v)) in
  key ← match key with
        | VNone => mret (new_edge_key keydict)
        | _ => hash_key key
        end;
  let datadict := default [] (keydict_get key keydict) in
  mret {| _node := _node g;
          _adj := <[(u, v) := keydict_set key (PyDict.update datadict attr) keydict]> (_adj g) |}.

End Networkx.

(** ** kag_builder/kg_construction.py *)

Module KgConstruction.

Import Networkx.

(** [{k: v for k, v in d.items() if k not in excluded}] *)
Definition without (excluded : list string) (d : pydict) : pydict :=
  List.filter (fun kv => negb (existsb (String.eqb (fst kv)) excluded)) d.

(** The [else] branch of the node loop: each attribute that is new or
    differs from the stored one is assigned. *)
Definition merge_attributes (g : MultiDiGraph) (k : pykey) (attributes : pydict) : MultiDiGraph :=
  fold_left
    (fun g kv =>
       let node := default [] (_node g !! k) in
       match PyDict.lookup (fst kv) node with
       | Some old => if py_eq old (snd kv) then g else set_node_attr g k (fst kv) (snd kv)
       | None => set_node_attr g k (fst kv) (snd kv)
       end)
    attributes g.

(** One iteration of [for entity_dict in entities]. *)
Definition add_entity (g : MultiDiGraph) (entity_dict : pydict) : exn + MultiDiGraph :=
  node_id ← getitem entity_dict "text";
  let attributes := without ["text"] entity_dict in
  if negb (has_node g node_id) then Networkx.add_node g node_id attributes
  else
    k ← hash_key node_id;
    mret (merge_attributes g k attributes).

(** One iteration of [for rel_dict in relations]. *)
Definition add_relation (g : MultiDiGraph) (rel_dict : pydict) : exn + MultiDiGraph :=
  source_node ← getitem rel_dict "entity1_text";
  target_node ← getitem rel_dict "entity2_text";
  relation_type ← getitem rel_dict "type";
  let edge_attributes := without ["entity1_text"; "entity2_text"; "type"] rel_dict in
  let edge_attributes := PyDict.set "type" relation_type edge_attributes in
  if has_node g source_node && has_node g target_node then
    u ← hash_key source_node;
    v ← hash_key target_node;
    Networkx.add_edge g u v edge_attributes
  else mret g.

Fixpoint fold_exn {A S} (f : S -> A -> exn + S) (xs : list A) (s : S) : exn + S :=
  match xs with
  | [] => inr s
  | x :: xs' => s' ← f s x; fold_exn f xs' s'
  end.

(** [create_kg(entities, relations)] *)
Definition create_kg (entities relations : list pydict) : exn + MultiDiGraph :=
  graph ← fold_exn add_entity entities Networkx.empty;
  fold_exn add_relation relations graph.

End KgConstruction.

(** ** kag_builder/indexing.py *)

Module Indexing.

Import Networkx.

(** [set(xs)] *)
Fixpoint set_of (xs : list value) : exn + gset pykey :=
  match xs with
  | [] => inr ∅
  | x :: xs' => k ← hash_key x; s ← set_of xs'; mret ({[k]} ∪ s)
  end.

(** The chunk ids held by an attribute dict: the value under
    [text_chunk_id], a single id or a list of ids. *)
Definition source_ids (data : pydict) : exn + gset pykey :=
  let source_id := PyDict.get data "text_chunk_id" in
  if truthy source_id then
    match source_id with
    | VList l => set_of l
    | _ => k ← hash_key source_id; mret {[k]}
    end
  else mret ∅.

(** [get_source_ids_for_node(graph, node_id)] *)
Definition get_source_ids_for_node (graph : MultiDiGraph) (node_id : value) : exn + gset pykey :=
  if negb (has_node graph node_id) then mret ∅
  else
    k ← hash_key node_id;
    let node_data := default [] (_node graph !! k) in
    source_ids node_data.

End Indexing.


(** ** Notions used in the statements *)

(** A dict holds each key once. *)
Definition wf_dict (d : pydict) : Prop := NoDup (PyDict.keys d).

(** The endpoint [k] is known to the store: a persisted node or a node
    touched in the current session. *)
Definition present (kg : KgBuilder.KG) (k : pykey) : bool :=
  KgBuilder.contains (KgBuilder.nodes kg) k
  || bool_decide (k ∈ KgBuilder._temp_node_ids kg).

(** The error that names the first endpoint of a relationship that is
    not known to the store. *)
Definition missing_endpoint_error (kg : KgBuilder.KG) (relationship : pydict) (ks : pykey) : exn :=
  if present kg ks then
    ValueError ("Target node " ++ py_str (PyDict.get relationship "target_entity_id") ++ " not found.")
  else
    ValueError ("Source node " ++ py_str (PyDict.get relationship "source_entity_id") ++ " not found.").

(** The id that [add_node] or [add_edge] resolves for a record in a table
    of [n] records, and the record as the call leaves it. *)
Definition generated_id (prefix : string) (n : nat) : value :=
  VStr (prefix ++ pretty (n + 1)%nat).

Definition resolved_id (prefix : string) (n : nat) (record : pydict) : value :=
  if truthy (PyDict.get record "id") then PyDict.get record "id" else generated_id prefix n.

Definition resolved_record (prefix : string) (n : nat) (record : pydict) : pydict :=
  if truthy (PyDict.get record "id") then record
  else PyDict.set "id" (generated_id prefix n) record.

(** The items of a batch applied one after the other by [call]: an item
    whose call returns contributes its id, an item whose call raises is
    skipped, and either way the next item runs on the store the call left. *)
Inductive applied (call : M (KgBuilder.KG * pydict) value)
  : KgBuilder.KG -> list pydict -> list value -> KgBuilder.KG -> Prop :=
| applied_nil kg : applied call kg [] [] kg
| applied_ok kg x xs id kg' x' ids kg'' :
    call (kg, x) = (inr id, (kg', x')) ->
    applied call kg' xs ids kg'' ->
    applied call kg (x :: xs) (id :: ids) kg''
| applied_skip kg x xs e kg' x' ids kg'' :
    call (kg, x) = (inl e, (kg', x')) ->
    applied call kg' xs ids kg'' ->
    applied call kg (x :: xs) ids kg''.

(** A relationship carries both endpoint ids, and they are hashable. *)
Definition has_endpoints (relationship : pydict) (ks kt : pykey) : Prop :=
  (exists v, PyDict.lookup "source_entity_id" relationship = Some v /\ hash_key v = inr ks) /\
  (exists v, PyDict.lookup "target_entity_id" relationship = Some v /\ hash_key v = inr kt).

(** The text of a relationship description around the two entity texts. *)
Definition relationship_text (relationship : pydict) (source_text target_text : value) : string :=
  let description :=
    "Relationship: '" ++ py_str source_text ++ "' "
      ++ py_str (PyDict.get_default relationship "label" (VStr "RELATED_TO")) ++ " "
      ++ "'" ++ py_str target_text ++ "'. (ID: "
      ++ py_str (PyDict.get relationship "id") ++ ")" in
  if truthy (PyDict.get relationship "attributes") then
    description ++ newline ++ "Attributes: " ++ json_dumps (PyDict.get relationship "attributes")
  else description.

(** The chunk ids of a record tagged with the chunk id [c]. *)
Definition chunk_set (c : string) : gset pykey :=
  if String.eqb c "" then ∅ else {[KStr c]}.

(** ** Sample records *)

Definition alice : pydict :=
  [("id", VStr "e1"); ("label", VStr "PERSON"); ("text", VStr "Alice")].

Definition python_skill : pydict :=
  [("id", VStr "e6"); ("label", VStr "SKILL"); ("text", VStr "Python")].

Definition has_skill : pydict :=
  [("id", VStr "r5"); ("source_entity_id", VStr "e1"); ("target_entity_id", VStr "e6");
   ("label", VStr "HAS_SKILL")].

(** A store that holds the node of Alice from an earlier batch. *)
Definition kg_alice : KgBuilder.KG :=
  {| KgBuilder.nodes := {[KStr "e1" := alice]};
     KgBuilder.edges := ∅;
     KgBuilder._temp_node_ids := ∅ |}.

Definition alice_smith : pydict :=
  [("id", VStr "e1"); ("text", VStr "Alice Smith");
   ("attributes", VDict [("role", VStr "Senior Engineer")])].

(** Alice as stored with an attribute map of her own. *)
Definition alice_intern : pydict :=
  [("id", VStr "e1"); ("text", VStr "Alice");
   ("attributes", VDict [("status", VStr "Intern")])].

Definition works_at : pydict :=
  [("id", VStr "r1"); ("source_entity_id", VStr "e1"); ("target_entity_id", VStr "e1");
   ("label", VStr "WORKS_AT")].

Definition works_at_again : pydict :=
  [("id", VStr "r1"); ("source_entity_id", VStr "e1"); ("target_entity_id", VStr "e1");
   ("attributes", VDict [("confidence", VInt 1)])].

(** The same edge with an attribute map of its own. *)
Definition works_at_since : pydict :=
  [("id", VStr "r1"); ("source_entity_id", VStr "e1"); ("target_entity_id", VStr "e1");
   ("label", VStr "WORKS_AT"); ("attributes", VDict [("since", VInt 2020)])].

(** A store that holds the node of Alice and an edge on it. *)
Definition kg_alice_edge : KgBuilder.KG :=
  {| KgBuilder.nodes := {[KStr "e1" := alice]};
     KgBuilder.edges := {[KStr "r1" := works_at]};
     KgBuilder._temp_node_ids := ∅ |}.

(** A node whose caller chose the id [node_2], and an entity without id. *)
Definition named_node_2 : pydict := [("id", VStr "node_2"); ("text", VStr "A")].

Definition unnamed : pydict := [("text", VStr "B")].

(** An edge whose caller chose the id [edge_2], and a relationship without
    id, both from Alice to herself. *)
Definition named_edge_2 : pydict :=
  [("id", VStr "edge_2"); ("source_entity_id", VStr "e1"); ("target_entity_id", VStr "e1");
   ("label", VStr "A")].

Definition unnamed_edge : pydict :=
  [("source_entity_id", VStr "e1"); ("target_entity_id", VStr "e1"); ("label", VStr "B")].

(** Two objects with the same content whatever the insertion order of the
    dicts in them, at any depth: equal objects, lists with the same content
    position by position, and dicts one of which holds, in some order, the
    keys of the other with values of the same content. *)
Inductive same_content : value -> value -> Prop :=
| same_refl v : same_content v v
| same_list l1 l2 :
    Forall2 same_content l1 l2 -> same_content (VList l1) (VList l2)
| same_dict d1 d d2 :
    wf_dict d1 ->
    d1 ≡ₚ d ->
    Forall2 (fun kv kv' => fst kv = fst kv' /\ same_content (snd kv) (snd kv')) d d2 ->
    same_content (VDict d1) (VDict d2).

(** Two records that agree on every key but [attributes], whose attribute
    maps hold the same items in a different insertion order. *)
Definition differ_in_attribute_order (x1 x2 : pydict) : Prop :=
  exists a1 a2,
    same_content (VDict a1) (VDict a2)
    /\ PyDict.lookup "attributes" x1 = Some (VDict a1)
    /\ PyDict.lookup "attributes" x2 = Some (VDict a2)
    /\ forall key, key <> "attributes" -> PyDict.lookup key x1 = PyDict.lookup key x2.

Definition engineer_first : pydict :=
  [("id", VStr "r1"); ("source_entity_id", VStr "e1"); ("target_entity_id", VStr "e2");
   ("label", VStr "WORKS_AT"); ("text", VStr "Alice");
   ("attributes", VDict [("role", VStr "Engineer"); ("email", VStr "alice@example.com")])].

Definition email_first : pydict :=
  [("id", VStr "r1"); ("source_entity_id", VStr "e1"); ("target_entity_id", VStr "e2");
   ("label", VStr "WORKS_AT"); ("text", VStr "Alice");
   ("attributes", VDict [("email", VStr "alice@example.com"); ("role", VStr "Engineer")])].

(** The same relationship without its source endpoint. *)
Definition no_source : pydict :=
  [("id", VStr "r1"); ("target_entity_id", VStr "e2"); ("label", VStr "WORKS_AT")].


(** The embedding model keeps its contract: a call returns, with one vector
    per text. *)
Definition embeds {vector EState : Type}
    (embed_batch : list string -> M EState (list vector)) : Prop :=
  forall texts model, exists vectors model',
    embed_batch texts model = (inr vectors, model') /\ length vectors = length texts.

(** The entity [e1] as extracted from the chunk [c1] and from the chunk [c2]. *)
Definition e1_from_c1 : pydict :=
  [("id", VStr "e1"); ("text", VStr "Alice"); ("text_chunk_id", VStr "c1")].

Definition e1_from_c2 : pydict :=
  [("id", VStr "e1"); ("text", VStr "Alice"); ("text_chunk_id", VStr "c2")].

(** One step of the merge loop of [create_kg], seen on the attribute dict of
    the node. *)
Definition merge_step (node : pydict) (kv : string * value) : pydict :=
  match PyDict.lookup (fst kv) node with
  | Some old => if py_eq old (snd kv) then node else PyDict.set (fst kv) (snd kv) node
  | None => PyDict.set (fst kv) (snd kv) node
  end.

(** The entity Aspirin as extracted from two chunks. *)
Definition aspirin_doc1 : pydict :=
  [("text", VStr "Aspirin"); ("label", VStr "CHEMICAL"); ("text_chunk_id", VStr "doc1_sent1")].


(** ** Invariants of the store *)

(** Every node id touched in the session is a node of the store. *)
Definition session_tracked (kg : KgBuilder.KG) : Prop :=
  forall k, k ∈ KgBuilder._temp_node_ids kg -> is_Some (KgBuilder.nodes kg !! k).

(** Every record of a table holds, under [id], the key it is stored under. *)
Definition ids_consistent (table : gmap pykey pydict) : Prop :=
  forall k record, table !! k = Some record -> hash_key (PyDict.get record "id") = inr k.

(** The record carries an id, which hashes to [k]. *)
Definition carries_id (x : pydict) (k : pykey) : Prop :=
  truthy (PyDict.get x "id") = true /\ hash_key (PyDict.get x "id") = inr k.

(** A relationship of a batch that can be applied: it carries an id and
    its two endpoints, and each endpoint is one of the nodes [known]. *)
Definition applicable (known : gset pykey) (relationship : pydict) : Prop :=
  exists ke ks kt,
    carries_id relationship ke /\ has_endpoints relationship ks kt
    /\ ks ∈ known /\ kt ∈ known.

(** The ids of a list of records. *)
Definition ids_of (xs : list pydict) : list value :=
  map (fun x => PyDict.get x "id") xs.

Definition python_skill_2 : pydict :=
  [("id", VStr "e7"); ("label", VStr "SKILL"); ("text", VStr "Rocq")].

Definition has_skill_2 : pydict :=
  [("id", VStr "r6"); ("source_entity_id", VStr "e1"); ("target_entity_id", VStr "e7");
   ("label", VStr "HAS_SKILL")].

(** A record whose id is a list. *)
Definition unhashable_id : pydict := [("id", VList [VInt 1]); ("text", VStr "x")].

(** The store after a call, whether the call returned or raised. *)
Definition store_after {A} (outcome : (exn + A) * (KgBuilder.KG * pydict)) : KgBuilder.KG :=
  fst (snd outcome).





(** ** Notions for the embedding pipeline *)

(** [len(xs)] for an optional list argument left at [None]. *)
Definition length_of (xs : option (list pydict)) : nat :=
  match xs with
  | Some l => length l
  | None => 0
  end.

(** The embedding model raises on every call. *)
Definition embedding_fails {vector EState : Type}
    (embed_batch : list string -> M EState (list vector)) : Prop :=
  forall texts model, exists err model', embed_batch texts model = (inl err, model').

(** A record that lacks one of the endpoint keys of a relationship. *)
Definition lacks_endpoint (record : pydict) : Prop :=
  PyDict.lookup "source_entity_id" record = None
  \/ PyDict.lookup "target_entity_id" record = None.

(** The locals of [store_embeddings] after a loop that started from [l]: the
    counter [count] has grown by at most [n], the counter [other] is as it
    was, and the list of items has grown by as much as the counter. *)
Definition grown_by {vector : Type}
    (count other : EmbeddingStore.locals (vector:=vector) -> nat) (n : nat)
    (l l' : EmbeddingStore.locals (vector:=vector)) : Prop :=
  (count l <= count l' /\ count l' <= count l + n)%nat
  /\ other l' = other l
  /\ length (EmbeddingStore.items_to_add_to_db l')
     = (length (EmbeddingStore.items_to_add_to_db l) + (count l' - count l))%nat.

(** The descriptions that [store_embeddings] builds for its relationships,
    outside any [try]. *)
Definition relationship_texts (relationships : option (list pydict))
    (entities_map : option (gmap pykey pydict)) : exn + list string :=
  match relationships with
  | Some (r :: rs) =>
      map_exn (fun r => EmbeddingStore._create_relationship_description r
                          (match entities_map with Some m => m | None => ∅ end))
        (r :: rs)
  | _ => inr []
  end.

Definition no_counts : EmbeddingStore.counts :=
  {| EmbeddingStore.entities_processed := 0; EmbeddingStore.relationships_processed := 0 |}.

(** An embedding model that raises, and one that returns a fixed vector
    per text; a vector store that counts its calls. *)
Definition failing_model : list string -> M unit (list (list Z)) :=
  fun texts model => (inl (Exception "Embedding API Error"), model).

Definition constant_model : list string -> M unit (list (list Z)) :=
  fun texts model => (inr (map (fun _ => [1; 2; 3; 4; 5]) texts), model).

Definition counting_store : list (EmbeddingStore.item (list Z)) -> M nat unit :=
  fun items calls => (inr (), S calls).

(** ** embedding_store.py: the vector store that the module instantiates *)

Module MockVectorDBClient.

(** A value of [_vector_store]; [F] is the type of the components of a
    vector, of which nothing is used. *)
Record stored (F : Type) : Type := {
  stored_text_description : string;
  stored_vector : list F;
  stored_metadata : pydict
}.
Arguments stored_text_description {F}.
Arguments stored_vector {F}.
Arguments stored_metadata {F}.

Section Client.

Context {F : Type}.

(** [add_item(item_id, text_description, vector, metadata=None)] *)
Definition add_item (item_id text_description : string) (vector : list F)
    (metadata : option pydict) : M (gmap string (stored F)) unit :=
  if negb (truthy (VStr item_id)) then raise (ValueError "Item ID cannot be empty.")
  else
    modify (fun _vector_store =>
      <[item_id := {| stored_text_description := text_description;
                      stored_vector := vector;
                      stored_metadata := match metadata with
                                         | Some (kv :: m) => kv :: m
                                         | _ => []
                                         end |}]> _vector_store).

(** [add_items(items)]: an item is a dict with the keys [id],
    [text_description], [vector] and [metadata]. *)
Definition add_items (items : list (EmbeddingStore.item (list F)))
  : M (gmap string (stored F)) unit :=
  for_in items (fun item =>
    if negb (truthy (VStr (EmbeddingStore.item_id item)))
       || negb (truthy (VStr (EmbeddingStore.text_description item)))
       || negb (match EmbeddingStore.item_vector item with [] => false | _ => true end)
    then mret ()
    else add_item (EmbeddingStore.item_id item) (EmbeddingStore.text_description item)
           (EmbeddingStore.item_vector item) (Some (EmbeddingStore.metadata item))).

(** [get_item(item_id)] *)
Definition get_item (item_id : string) (_vector_store : gmap string (stored F))
  : option (stored F) :=
  _vector_store !! item_id.

(** [get_collection_size()] *)
Definition get_collection_size (_vector_store : gmap string (stored F)) : nat :=
  size _vector_store.

End Client.

End MockVectorDBClient.

(** An item that [add_items] stores: its id, its text and its vector are
    not empty. *)
Definition accepted {F : Type} (item : EmbeddingStore.item (list F)) : bool :=
  negb (String.eqb (EmbeddingStore.item_id item) "")
  && negb (String.eqb (EmbeddingStore.text_description item) "")
  && negb (Nat.eqb (length (EmbeddingStore.item_vector item)) 0).

(** The last item of a batch that is accepted under the id [id]. *)
Definition last_accepted {F : Type} (id : string) (items : list (EmbeddingStore.item (list F)))
  : option (EmbeddingStore.item (list F)) :=
  last (List.filter (fun item => accepted item && String.eqb (EmbeddingStore.item_id item) id)
          items).

(** What the store holds for an item. *)
Definition as_stored {F : Type} (item : EmbeddingStore.item (list F))
  : MockVectorDBClient.stored F :=
  {| MockVectorDBClient.stored_text_description := EmbeddingStore.text_description item;
     MockVectorDBClient.stored_vector := EmbeddingStore.item_vector item;
     MockVectorDBClient.stored_metadata := EmbeddingStore.metadata item |}.

(** The item that [store_embeddings] appends for an entity, its
    description and its vector, and the one it appends for a relationship. *)
Definition entity_item {vector : Type} (x : pydict * string * vector)
  : EmbeddingStore.item vector :=
  let '(entity, text_desc, v) := x in
  {| EmbeddingStore.item_id := "entity_" ++ py_str (PyDict.get entity "id");
     EmbeddingStore.text_description := text_desc;
     EmbeddingStore.item_vector := v;
     EmbeddingStore.metadata := [("type", VStr "entity");
                                 ("original_id", PyDict.get entity "id");
                                 ("label", PyDict.get entity "label")] |}.

Definition relationship_item {vector : Type} (x : pydict * string * vector)
  : EmbeddingStore.item vector :=
  let '(rel, text_desc, v) := x in
  {| EmbeddingStore.item_id := "relationship_" ++ py_str (PyDict.get rel "id");
     EmbeddingStore.text_description := text_desc;
     EmbeddingStore.item_vector := v;
     EmbeddingStore.metadata := [("type", VStr "relationship");
                                 ("original_id", PyDict.get rel "id");
                                 ("label", PyDict.get rel "label");
                                 ("source_id", PyDict.get rel "source_entity_id");
                                 ("target_id", PyDict.get rel "target_entity_id")] |}.

(** The vector store after the bulk upsert of [items]: [add_items] is not
    called for an empty list, and what it leaves is kept also when it
    raises. *)
Definition upserted {vector VState : Type}
    (add_items : list (EmbeddingStore.item vector) -> M VState unit)
    (items : list (EmbeddingStore.item vector)) (db : VState) : VState :=
  match items with
  | [] => db
  | _ => snd (add_items items db)
  end.

(** An embedding model that returns one vector per text, each of which
    satisfies [P]. *)
Definition embeds_with {vector EState : Type} (P : vector -> Prop)
    (embed_batch : list string -> M EState (list vector)) : Prop :=
  forall texts model, exists vectors model',
    embed_batch texts model = (inr vectors, model')
    /\ length vectors = length texts /\ Forall P vectors.



(** ** kag_builder/relation_extraction.py *)

Module RelationExtraction.

(** [itertools.combinations(xs, 2)] *)
Fixpoint combinations {A} (xs : list A) : list (A * A) :=
  match xs with
  | [] => []
  | x :: xs' => (map (pair x) xs' ++ combinations xs')%list
  end.

(** The dict appended for a pair [ent1, ent2]. *)
Definition relation (text_chunk_id : value) (ents : pydict * pydict) : exn + pydict :=
  let '(ent1, ent2) := ents in
  entity1_text ← getitem ent1 "text";
  entity1_label ← getitem ent1 "label";
  entity2_text ← getitem ent2 "text";
  entity2_label ← getitem ent2 "label";
  mret [("entity1_text", entity1_text);
        ("entity1_label", entity1_label);
        ("entity2_text", entity2_text);
        ("entity2_label", entity2_label);
        ("type", VStr "CO-OCCURS_WITH");
        ("text_chunk_id", text_chunk_id)].

(** [extract_relations_cooccurrence(entities, text_chunk_id)]; the
    parameter [window_size] is not used. *)
Definition extract_relations_cooccurrence (entities : list pydict) (text_chunk_id : value)
  : exn + list pydict :=
  if (length entities <? 2)%nat then mret []
  else map_exn (relation text_chunk_id) (combinations entities).

End RelationExtraction.

(** ** kag_builder/indexing.py: the chunk ids of an edge *)

Module EdgeIndexing.

Import Networkx.

(** [graph.has_edge(u, v)]: [v in self._adj[u]], where a [KeyError] gives
    [False]; a node has an entry in [_adj], which holds its successors. *)
Definition has_edge (g : MultiDiGraph) (u v : value) : exn + bool :=
  ku ← hash_key u;
  match _node g !! ku with
  | None => mret false
  | Some _ => kv ← hash_key v; mret (bool_decide (is_Some (_adj g !! (ku, kv))))
  end.

(** [get_source_ids_for_edge(graph, u, v, key=None)] *)
Definition get_source_ids_for_edge (graph : MultiDiGraph) (u v key : value)
  : exn + gset pykey :=
  b ← has_edge graph u v;
  if negb b then mret ∅
  else
    ku ← hash_key u;
    kv ← hash_key v;
    let keydict := default [] (_adj graph !! (ku, kv)) in
    match key with
    | VNone =>
        KgConstruction.fold_exn
          (fun source_ids edge =>
             ids ← Indexing.source_ids (snd edge); mret (source_ids ∪ ids))
          keydict ∅
    | _ =>
        k ← hash_key key;
        match keydict_get k keydict with
        | Some edge_data => Indexing.source_ids edge_data
        | None => mret ∅
        end
    end.

End EdgeIndexing.

(** [graph.number_of_nodes()] and [graph.number_of_edges()], parallel
    edges counted. *)
Definition number_of_nodes (g : Networkx.MultiDiGraph) : nat := size (Networkx._node g).

Definition number_of_edges (g : Networkx.MultiDiGraph) : nat :=
  map_fold (fun _ (keydict : list (pykey * pydict)) n => (length keydict + n)%nat) 0%nat
    (Networkx._adj g).

(** A record that cannot be an entity of [create_kg], and one that cannot
    be a relation. *)
Definition lacks_text (entity_dict : pydict) : Prop :=
  PyDict.lookup "text" entity_dict = None.

Definition lacks_relation_key (rel_dict : pydict) : Prop :=
  PyDict.lookup "entity1_text" rel_dict = None
  \/ PyDict.lookup "entity2_text" rel_dict = None
  \/ PyDict.lookup "type" rel_dict = None.

(** A relation none of whose keys is taken for a parameter of the
    [add_edge] of networkx. *)
Definition no_edge_keyword (rel_dict : pydict) : Prop :=
  Forall (fun name => PyDict.lookup name rel_dict = None)
    ["self"; "u_for_edge"; "v_for_edge"; "key"].

(** The graph [g] with one more parallel edge between [u] and [v], under
    the key that [new_edge_key] gives. *)
Definition with_new_edge (g : Networkx.MultiDiGraph) (u v : pykey) (attr : pydict)
  : Networkx.MultiDiGraph :=
  let keydict := default [] (Networkx._adj g !! (u, v)) in
  {| Networkx._node := Networkx._node g;
     Networkx._adj :=
       <[(u, v) := (keydict ++ [(Networkx.new_edge_key keydict, PyDict.update [] attr)])%list]>
         (Networkx._adj g) |}.

(** The node that an entity of [create_kg] names. *)
Definition names_node (entity_dict : pydict) (k : pykey) : Prop :=
  exists t, PyDict.lookup "text" entity_dict = Some t /\ hash_key t = inr k.

(** The relation [treats_again] with a [key] entry, and with an entry
    named as a parameter of [add_edge]. *)
Definition treats_keyed : pydict :=
  [("entity1_text", VStr "DrugA"); ("entity2_text", VStr "DiseaseX"); ("type", VStr "TREATS");
   ("text_chunk_id", VStr "c2"); ("key", VInt 0)].

Definition treats_misnamed : pydict :=
  [("entity1_text", VStr "DrugA"); ("entity2_text", VStr "DiseaseX"); ("type", VStr "TREATS");
   ("text_chunk_id", VStr "c2"); ("u_for_edge", VStr "DrugA")].

(** The records of the test [test_create_kg_nodes_and_edges], a second
    mention of DrugA in another chunk, a relation to a disease that is not
    among the entities, and an entity without [text]. *)
Definition drug_a : pydict :=
  [("text", VStr "DrugA"); ("label", VStr "CHEMICAL"); ("text_chunk_id", VStr "c1")].

Definition disease_x : pydict :=
  [("text", VStr "DiseaseX"); ("label", VStr "DISEASE"); ("text_chunk_id", VStr "c1")].

Definition drug_a_again : pydict :=
  [("text", VStr "DrugA"); ("label", VStr "CHEMICAL"); ("text_chunk_id", VStr "c2")].

Definition treats : pydict :=
  [("entity1_text", VStr "DrugA"); ("entity2_text", VStr "DiseaseX"); ("type", VStr "TREATS");
   ("text_chunk_id", VStr "c1")].

Definition treats_again : pydict :=
  [("entity1_text", VStr "DrugA"); ("entity2_text", VStr "DiseaseX"); ("type", VStr "TREATS");
   ("text_chunk_id", VStr "c2")].

Definition treats_unknown : pydict :=
  [("entity1_text", VStr "DrugA"); ("entity2_text", VStr "DiseaseY"); ("type", VStr "TREATS");
   ("text_chunk_id", VStr "c1")].

Definition untitled : pydict :=
  [("label", VStr "CHEMICAL"); ("text_chunk_id", VStr "c1")].

(** An entity that [extract_relations_cooccurrence] can read, and one it
    cannot. *)
Definition has_text_and_label (entity : pydict) : Prop :=
  is_Some (PyDict.lookup "text" entity) /\ is_Some (PyDict.lookup "label" entity).

Definition lacks_text_or_label (entity : pydict) : Prop :=
  PyDict.lookup "text" entity = None \/ PyDict.lookup "label" entity = None.

(** A co-occurrence relation of the chunk [text_chunk_id] between two
    entities of [entities]. *)
Definition co_occurrence (entities : list pydict) (text_chunk_id : value) (rel : pydict)
  : Prop :=
  PyDict.lookup "type" rel = Some (VStr "CO-OCCURS_WITH")
  /\ PyDict.lookup "text_chunk_id" rel = Some text_chunk_id
  /\ exists ent1 ent2,
       In ent1 entities /\ In ent2 entities
       /\ PyDict.lookup "entity1_text" rel = PyDict.lookup "text" ent1
       /\ PyDict.lookup "entity1_label" rel = PyDict.lookup "label" ent1
       /\ PyDict.lookup "entity2_text" rel = PyDict.lookup "text" ent2
       /\ PyDict.lookup "entity2_label" rel = PyDict.lookup "label" ent2.

(** A single entity without [label]. *)
Definition unlabelled : pydict := [("text", VStr "Aspirin")].

(** An entity as [extract_entities] builds it: a text that is a [str], a
    label, and no key other than the five it sets. *)
Definition extracted_entity (entity : pydict) : Prop :=
  (exists t, PyDict.lookup "text" entity = Some (VStr t))
  /\ is_Some (PyDict.lookup "label" entity)
  /\ Forall (fun key => In key ["text"; "label"; "start_char"; "end_char"; "text_chunk_id"])
       (PyDict.keys entity).

(** ** main.py: deduplication by id *)

Module Main.

(** [d[k] = v] on a dict keyed by hashable objects, in insertion order: a
    key that is present keeps its position and takes the new value. *)
Fixpoint assign (k : pykey) (v : pydict) (d : list (pykey * pydict)) : list (pykey * pydict) :=
  match d with
  | [] => [(k, v)]
  | (k', v') :: d' => if decide (k = k') then (k', v) :: d' else (k', v') :: assign k v d'
  end.

(** [{e['id']: e for e in records}] *)
Definition by_id (records : list pydict) : exn + list (pykey * pydict) :=
  KgConstruction.fold_exn
    (fun d e => id ← getitem e "id"; k ← hash_key id; mret (assign k e d))
    records [].

(** [list({e['id']: e for e in records}.values())] *)
Definition deduplicate (records : list pydict) : exn + list pydict :=
  d ← by_id records; mret (map snd d).

End Main.

(** The key under which a record is deduplicated. *)
Definition id_key (record : pydict) (k : pykey) : Prop :=
  exists v, PyDict.lookup "id" record = Some v /\ hash_key v = inr k.

(** [record] is the last record of [records] with the key [k]. *)
Definition last_with_key (records : list pydict) (k : pykey) (record : pydict) : Prop :=
  id_key record k
  /\ exists before after,
       records = (before ++ record :: after)%list
       /\ Forall (fun other => ~ id_key other k) after.

(** * Properties *)

(** Well-formedness of a dict written out in full is decided. *)
Ltac solve_wf_dict :=
  unfold wf_dict; apply (bool_decide_unpack _); vm_compute; exact I.

Example json_dumps_sorted :
  json_dumps (VDict [("role", VStr "Engineer"); ("age", VInt 30);
                     ("tags", VList [VBool true; VNone])])
  = "{" ++ chr dquote ++ "age" ++ chr dquote ++ ": 30, "
        ++ chr dquote ++ "role" ++ chr dquote ++ ": "
        ++ chr dquote ++ "Engineer" ++ chr dquote ++ ", "
        ++ chr dquote ++ "tags" ++ chr dquote ++ ": [true, null]}".
Proof. vm_compute. reflexivity. Qed.

Example py_str_dict :
  py_str (VDict [("b", VInt (-2)); ("a", VStr "x")]) = "{'b': -2, 'a': 'x'}".
Proof. vm_compute. reflexivity. Qed.

(** ** The order on keys *)

Section KeyOrder.

Lemma ascii_compare_refl c : Ascii.compare c c = Eq.
Proof. unfold Ascii.compare. apply N.compare_refl. Qed.

Lemma ascii_compare_lt_trans a b c :
  Ascii.compare a b = Lt -> Ascii.compare b c = Lt -> Ascii.compare a c = Lt.
Proof.
  unfold Ascii.compare. rewrite !N.compare_lt_iff. apply N.lt_trans.
Qed.

Lemma string_compare_lt_trans s1 : forall s2 s3,
  String.compare s1 s2 = Lt -> String.compare s2 s3 = Lt -> String.compare s1 s3 = Lt.
Proof.
  induction s1 as [|a s1 IH]; intros [|b s2] [|c s3]; simpl; try congruence.
  destruct (Ascii.compare a b) eqn:Hab; try discriminate;
    destruct (Ascii.compare b c) eqn:Hbc; try discriminate; intros H1 H2.
  - apply Ascii.compare_eq_iff in Hab, Hbc. subst.
    rewrite ascii_compare_refl. eauto.
  - apply Ascii.compare_eq_iff in Hab. subst. now rewrite Hbc.
  - apply Ascii.compare_eq_iff in Hbc. subst. now rewrite Hab.
  - now rewrite (ascii_compare_lt_trans _ _ _ Hab Hbc).
Qed.

Lemma string_compare_refl s : String.compare s s = Eq.
Proof. induction s as [|a s IH]; simpl; [done|]. now rewrite ascii_compare_refl. Qed.

Lemma string_leb_trans s1 s2 s3 :
  String.leb s1 s2 = true -> String.leb s2 s3 = true -> String.leb s1 s3 = true.
Proof.
  unfold String.leb.
  destruct (String.compare s1 s2) eqn:H12; try discriminate;
    destruct (String.compare s2 s3) eqn:H23; try discriminate; intros _ _.
  - apply String.compare_eq_iff in H12, H23. subst. now rewrite string_compare_refl.
  - apply String.compare_eq_iff in H12. subst. now rewrite H23.
  - apply String.compare_eq_iff in H23. subst. now rewrite H12.
  - now rewrite (string_compare_lt_trans _ _ _ H12 H23).
Qed.

Lemma string_leb_false s1 s2 : String.leb s1 s2 = false -> String.leb s2 s1 = true.
Proof. destruct (String.leb_total s1 s2); congruence. Qed.

End KeyOrder.

(** ** Sorting the items of a dict *)

Section SortItems.

Context {A : Type}.
Implicit Types (x y : string * A) (l : list (string * A)).

(** Two items with different keys are inserted in either order. *)
Lemma insert_item_comm x y l :
  fst x <> fst y ->
  insert_item x (insert_item y l) = insert_item y (insert_item x l).
Proof.
  intros Hne. induction l as [|z l IH]; simpl.
  - destruct (String.leb (fst x) (fst y)) eqn:Hxy, (String.leb (fst y) (fst x)) eqn:Hyx;
      try reflexivity.
    + elim Hne. now apply String.leb_antisym.
    + apply string_leb_false in Hxy. congruence.
  - destruct (String.leb (fst x) (fst z)) eqn:Hxz, (String.leb (fst y) (fst z)) eqn:Hyz;
      simpl; rewrite ?Hxz, ?Hyz.
    + destruct (String.leb (fst x) (fst y)) eqn:Hxy, (String.leb (fst y) (fst x)) eqn:Hyx;
        rewrite ?Hxz, ?Hyz; try reflexivity.
      * elim Hne. now apply String.leb_antisym.
      * apply string_leb_false in Hxy. congruence.
    + destruct (String.leb (fst y) (fst x)) eqn:Hyx; [|reflexivity].
      rewrite (string_leb_trans _ _ _ Hyx Hxz) in Hyz. discriminate.
    + destruct (String.leb (fst x) (fst y)) eqn:Hxy; [|reflexivity].
      rewrite (string_leb_trans _ _ _ Hxy Hyz) in Hxz. discriminate.
    + now rewrite IH.
Qed.

(** The sorted items do not depend on the insertion order. *)
Lemma sort_items_perm l1 l2 :
  l1 ≡ₚ l2 -> NoDup (map fst l1) -> sort_items l1 = sort_items l2.
Proof.
  induction 1 as [|x l1 l2 Hp IH|x y l|l1 l2 l3 Hp1 IH1 Hp2 IH2]; intros Hnd; simpl.
  - reflexivity.
  - rewrite IH; [reflexivity|]. now apply NoDup_cons in Hnd as [_ ?].
  - apply insert_item_comm. simpl in Hnd. apply NoDup_cons in Hnd as [Hnotin _].
    intros Heq. apply Hnotin. rewrite Heq. left.
  - rewrite IH1 by assumption. apply IH2. now rewrite <- Hp1.
Qed.

End SortItems.

(** [json.dumps(..., sort_keys=True)] of a dict does not depend on the
    order in which its items were inserted. *)
Lemma json_dumps_perm (d1 d2 : pydict) :
  d1 ≡ₚ d2 -> wf_dict d1 -> json_dumps (VDict d1) = json_dumps (VDict d2).
Proof.
  intros Hp Hnd.
  assert (sort_items (map (fun kv => (fst kv, json_dumps (snd kv))) d1)
          = sort_items (map (fun kv => (fst kv, json_dumps (snd kv))) d2)) as Hsort.
  { apply sort_items_perm.
    - now apply Permutation_map.
    - unfold wf_dict, PyDict.keys in Hnd. rewrite map_map. simpl. exact Hnd. }
  simpl. now rewrite Hsort.
Qed.

(** ** Dicts *)

Section PyDictFacts.

Implicit Types (d other : pydict) (k key : string) (v : value).

Lemma lookup_set key k v d :
  PyDict.lookup key (PyDict.set k v d)
  = if String.eqb key k then Some v else PyDict.lookup key d.
Proof.
  induction d as [|[k' v'] d IH]; simpl.
  - reflexivity.
  - destruct (String.eqb_spec k k') as [->|Hkk']; simpl.
    + destruct (String.eqb key k'); reflexivity.
    + rewrite IH. destruct (String.eqb_spec key k') as [->|]; [|reflexivity].
      destruct (String.eqb_spec k' k); [congruence|reflexivity].
Qed.

Lemma lookup_set_ne key k v d :
  key <> k -> PyDict.lookup key (PyDict.set k v d) = PyDict.lookup key d.
Proof. intros H. rewrite lookup_set. now destruct (String.eqb_spec key k). Qed.

Lemma lookup_set_eq k v d : PyDict.lookup k (PyDict.set k v d) = Some v.
Proof. rewrite lookup_set. now rewrite String.eqb_refl. Qed.

Lemma lookup_not_key k d : k ∉ PyDict.keys d -> PyDict.lookup k d = None.
Proof.
  induction d as [|[k' v'] d IH]; simpl; [reflexivity|]. intros Hn.
  apply not_elem_of_cons in Hn as [Hne Hn].
  destruct (String.eqb_spec k k'); [congruence|auto].
Qed.

Lemma lookup_item k v d : wf_dict d -> (k, v) ∈ d -> PyDict.lookup k d = Some v.
Proof.
  unfold wf_dict. induction d as [|[k' v'] d IH]; simpl; intros Hnd Hin.
  - now apply elem_of_nil in Hin.
  - apply NoDup_cons in Hnd as [Hnotin Hnd].
    apply elem_of_cons in Hin as [Heq|Hin].
    + inversion Heq; subst. now rewrite String.eqb_refl.
    + destruct (String.eqb_spec k k') as [->|]; [|auto].
      elim Hnotin. exact (list_elem_of_fmap_2 fst d (k', v) Hin).
Qed.

Lemma set_same k v d : PyDict.lookup k d = Some v -> PyDict.set k v d = d.
Proof.
  induction d as [|[k' v'] d IH]; simpl; [discriminate|].
  destruct (String.eqb_spec k k') as [->|]; intros H.
  - congruence.
  - now rewrite IH.
Qed.

Lemma keys_set k v d :
  PyDict.keys (PyDict.set k v d)
  = if bool_decide (k ∈ PyDict.keys d) then PyDict.keys d else (PyDict.keys d ++ [k])%list.
Proof.
  induction d as [|[k' v'] d IH]; simpl; [reflexivity|].
  destruct (String.eqb_spec k k') as [->|Hne]; simpl.
  - rewrite bool_decide_eq_true_2 by left. reflexivity.
  - rewrite IH. destruct (bool_decide_reflect (k ∈ PyDict.keys d)) as [Hin|Hnin].
    + rewrite bool_decide_eq_true_2 by now right. reflexivity.
    + rewrite bool_decide_eq_false_2; [reflexivity|].
      intros [?|?]%elem_of_cons; contradiction.
Qed.

Lemma wf_set k v d : wf_dict d -> wf_dict (PyDict.set k v d).
Proof.
  unfold wf_dict. intros Hnd. rewrite keys_set.
  destruct (bool_decide_reflect (k ∈ PyDict.keys d)) as [Hin|Hnin]; [assumption|].
  apply NoDup_app. split; [assumption|]. split.
  - intros x Hx Hx'. apply list_elem_of_singleton in Hx'. now subst.
  - apply NoDup_singleton.
Qed.

(** [d.update(other)]: a key of [other] takes the value of [other], any
    other key keeps its value. *)
Lemma lookup_update key d other :
  wf_dict other ->
  PyDict.lookup key (PyDict.update d other)
  = match PyDict.lookup key other with
    | Some v => Some v
    | None => PyDict.lookup key d
    end.
Proof.
  unfold PyDict.update, wf_dict. revert d.
  induction other as [|[k v] other IH]; intros d Hnd; simpl; [reflexivity|].
  apply NoDup_cons in Hnd as [Hnotin Hnd]. rewrite IH by assumption.
  simpl in Hnotin. destruct (String.eqb_spec key k) as [->|Hne].
  - rewrite (lookup_not_key k other Hnotin). apply lookup_set_eq.
  - destruct (PyDict.lookup key other); [reflexivity|]. now apply lookup_set_ne.
Qed.

(** Updating with items that the dict already holds changes nothing. *)
Lemma update_same d other :
  (forall k v, (k, v) ∈ other -> PyDict.lookup k d = Some v) ->
  PyDict.update d other = d.
Proof.
  unfold PyDict.update.
  induction other as [|[k v] other IH]; intros H; simpl; [reflexivity|].
  rewrite set_same by (apply H; left). apply IH. intros k' v' Hin. apply H. now right.
Qed.

Lemma update_idem d other :
  wf_dict other -> PyDict.update (PyDict.update d other) other = PyDict.update d other.
Proof.
  intros Hwf. apply update_same. intros k v Hin.
  rewrite lookup_update by assumption. now rewrite (lookup_item _ _ _ Hwf Hin).
Qed.

Lemma update_self d : wf_dict d -> PyDict.update d d = d.
Proof. intros Hwf. apply update_same. intros k v. now apply lookup_item. Qed.

End PyDictFacts.

(** ** The graph store *)

Section Store.

Import KgBuilder.

Implicit Types (kg : KG) (e r : pydict) (k : pykey).

Lemma contains_spec (d : gmap pykey pydict) k : contains d k = true <-> is_Some (d !! k).
Proof. unfold contains. apply bool_decide_eq_true. Qed.

Lemma contains_false (d : gmap pykey pydict) k : contains d k = false <-> d !! k = None.
Proof.
  unfold contains. rewrite bool_decide_eq_false. rewrite <- eq_None_not_Some. reflexivity.
Qed.

(** What [add_node] does, in one equation. *)
Lemma add_node_eq kg e :
  add_node (kg, e)
  = let node_id := resolved_id "node_" (size (nodes kg)) e in
    let e' := resolved_record "node_" (size (nodes kg)) e in
    match hash_key node_id with
    | inr k =>
        (inr node_id,
         ({| nodes := upsert (nodes kg) k e';
             edges := edges kg;
             _temp_node_ids := {[k]} ∪ _temp_node_ids kg |}, e'))
    | inl err => (inl err, (kg, e'))
    end.
Proof.
  unfold add_node, resolved_id, resolved_record, generated_id.
  unfold mbind, M_bind, mret, M_ret, gets, modify, lift. simpl.
  destruct (truthy (PyDict.get e "id")); simpl.
  - destruct (hash_key (PyDict.get e "id")); reflexivity.
  - reflexivity.
Qed.

(** What [add_edge] does, in one equation. *)
Lemma add_edge_eq kg r :
  add_edge (kg, r)
  = let edge_id := resolved_id "edge_" (size (edges kg)) r in
    let r' := resolved_record "edge_" (size (edges kg)) r in
    match hash_key (PyDict.get r "source_entity_id") with
    | inl err => (inl err, (kg, r'))
    | inr ks =>
        if negb (present kg ks) then
          (inl (ValueError ("Source node " ++ py_str (PyDict.get r "source_entity_id")
                              ++ " not found.")), (kg, r'))
        else
          match hash_key (PyDict.get r "target_entity_id") with
          | inl err => (inl err, (kg, r'))
          | inr kt =>
              if negb (present kg kt) then
                (inl (ValueError ("Target node " ++ py_str (PyDict.get r "target_entity_id")
                                    ++ " not found.")), (kg, r'))
              else
                match hash_key edge_id with
                | inl err => (inl err, (kg, r'))
                | inr ke =>
                    (inr edge_id,
                     ({| nodes := nodes kg;
                         edges := upsert (edges kg) ke r';
                         _temp_node_ids := _temp_node_ids kg |}, r'))
                end
          end
    end.
Proof.
  unfold add_edge, resolved_id, resolved_record, generated_id, present.
  unfold mbind, M_bind, mret, M_ret, gets, modify, lift, raise. simpl.
  destruct (truthy (PyDict.get r "id")); simpl;
    destruct (hash_key (PyDict.get r "source_entity_id")) as [?|ks]; simpl; try reflexivity;
    destruct (contains (nodes kg) ks || bool_decide (ks ∈ _temp_node_ids kg)); simpl;
      try reflexivity;
    destruct (hash_key (PyDict.get r "target_entity_id")) as [?|kt]; simpl; try reflexivity;
    destruct (contains (nodes kg) kt || bool_decide (kt ∈ _temp_node_ids kg)); simpl;
      try reflexivity.
  all: destruct (hash_key (PyDict.get r "id")); reflexivity.
Qed.

Lemma lookup_upsert (d : gmap pykey pydict) k x :
  upsert d k x !! k
  = Some (match d !! k with Some old => PyDict.update old x | None => PyDict.copy x end).
Proof. unfold upsert. destruct (d !! k); apply lookup_insert_eq. Qed.

Lemma lookup_upsert_ne (d : gmap pykey pydict) k k' x :
  k <> k' -> upsert d k x !! k' = d !! k'.
Proof. intros H. unfold upsert. destruct (d !! k); now apply lookup_insert_ne. Qed.

Lemma size_upsert (d : gmap pykey pydict) k x :
  size (upsert d k x) = if contains d k then size d else S (size d).
Proof.
  unfold upsert. destruct (d !! k) as [old|] eqn:Hk.
  - rewrite (proj2 (contains_spec d k)) by eauto.
    rewrite <- (insert_delete_id d k old) at 2 by assumption.
    rewrite <- (insert_delete_eq d k (PyDict.update old x)).
    rewrite !map_size_insert_None by apply lookup_delete_eq. reflexivity.
  - rewrite (proj2 (contains_false d k)) by assumption.
    now apply map_size_insert_None.
Qed.

Lemma resolved_id_truthy prefix n e :
  truthy (PyDict.get e "id") = true ->
  resolved_id prefix n e = PyDict.get e "id" /\ resolved_record prefix n e = e.
Proof. unfold resolved_id, resolved_record. now intros ->. Qed.

Lemma lookup_resolved_record prefix n e :
  PyDict.lookup "id" (resolved_record prefix n e) = Some (resolved_id prefix n e).
Proof.
  unfold resolved_record, resolved_id, PyDict.get.
  destruct (PyDict.lookup "id" e) as [v|] eqn:Hid.
  - destruct (truthy v); [assumption|apply lookup_set_eq].
  - simpl. apply lookup_set_eq.
Qed.

Lemma lookup_resolved_record_ne prefix n e key :
  key <> "id" -> PyDict.lookup key (resolved_record prefix n e) = PyDict.lookup key e.
Proof.
  intros H. unfold resolved_record.
  destruct (truthy (PyDict.get e "id")); [reflexivity|now apply lookup_set_ne].
Qed.

Lemma wf_resolved_record prefix n e : wf_dict e -> wf_dict (resolved_record prefix n e).
Proof.
  intros H. unfold resolved_record.
  destruct (truthy (PyDict.get e "id")); [assumption|now apply wf_set].
Qed.

End Store.

(** ** Referential integrity, merge and identity *)

Section StoreClaims.

Import KgBuilder.

Implicit Types (kg : KG) (e r x : pydict) (k : pykey).

Lemma present_upsert kg k k' x temp :
  is_Some (nodes kg !! k') ->
  present {| nodes := upsert (nodes kg) k x; edges := edges kg; _temp_node_ids := temp |} k' = true.
Proof.
  intros Hsome. unfold present. simpl. apply orb_true_iff. left.
  apply contains_spec. destruct (decide (k = k')) as [->|Hne].
  - rewrite lookup_upsert. eauto.
  - now rewrite lookup_upsert_ne.
Qed.

Lemma present_touched kg k (d : gmap pykey pydict) (s : gset pykey) :
  present {| nodes := d; edges := edges kg; _temp_node_ids := {[k]} ∪ s |} k = true.
Proof.
  unfold present. simpl. apply orb_true_iff. right.
  apply bool_decide_eq_true. set_solver.
Qed.

(** C1. A relationship one of whose endpoints is neither a persisted node
    nor a node touched in the current session is refused by [add_edge]
    with the error that names the missing endpoint (a [ValueError], the
    exception kg_builder.py raises for a referential-integrity failure), and
    the store, its edge table included, is left as it was.  When the batch
    is opened with [clear_session_tracking] and an entity carrying the
    missing id is added first, the same [add_edge] returns and the edge is
    in the edge table. *)
Theorem add_edge_referential_integrity kg r ks kt :
  hash_key (PyDict.get r "source_entity_id") = inr ks ->
  hash_key (PyDict.get r "target_entity_id") = inr kt ->
  present kg ks && present kg kt = false ->
  (exists r', add_edge (kg, r) = (inl (missing_endpoint_error kg r ks), (kg, r')))
  /\ (forall e k ke,
        truthy (PyDict.get e "id") = true ->
        hash_key (PyDict.get e "id") = inr k ->
        ks = k \/ is_Some (nodes kg !! ks) ->
        kt = k \/ is_Some (nodes kg !! kt) ->
        hash_key (resolved_id "edge_" (size (edges kg)) r) = inr ke ->
        exists kg1 kg2 r',
          add_node (clear_session_tracking kg, e) = (inr (PyDict.get e "id"), (kg1, e))
          /\ add_edge (kg1, r) = (inr (resolved_id "edge_" (size (edges kg)) r), (kg2, r'))
          /\ is_Some (edges kg2 !! ke)).
Proof.
  intros Hs Ht Hmiss. split.
  - eexists. rewrite add_edge_eq. simpl. rewrite Hs. unfold missing_endpoint_error.
    destruct (present kg ks) eqn:Hps; simpl.
    + rewrite Ht. simpl in Hmiss. rewrite Hmiss. simpl. reflexivity.
    + reflexivity.
  - intros e k ke Hid Hk Hsrc Htgt Hke.
    destruct (resolved_id_truthy "node_" (size (nodes (clear_session_tracking kg))) e Hid)
      as [Hrid Hrec].
    do 3 eexists. split; [|split].
    + rewrite add_node_eq. simpl. simpl in Hrid, Hrec. rewrite Hrid, Hrec, Hk. reflexivity.
    + rewrite add_edge_eq. simpl. rewrite Hs.
      assert (forall k', k' = k \/ is_Some (nodes kg !! k') ->
                present {| nodes := upsert (nodes kg) k e; edges := edges kg;
                           _temp_node_ids := {[k]} ∪ ∅ |} k' = true) as Hpres.
      { intros k' [->|Hsome]; [apply present_touched|now apply present_upsert]. }
      rewrite (Hpres ks Hsrc). simpl. rewrite Ht, (Hpres kt Htgt). simpl.
      rewrite Hke. reflexivity.
    + simpl. rewrite lookup_upsert. eauto.
Qed.

Lemma add_edge_referential_integrity_witness :
  (exists r', add_edge (kg_alice, has_skill)
              = (inl (ValueError "Target node e6 not found."), (kg_alice, r')))
  /\ exists kg1 kg2 r',
       add_node (clear_session_tracking kg_alice, python_skill)
       = (inr (VStr "e6"), (kg1, python_skill))
       /\ add_edge (kg1, has_skill) = (inr (VStr "r5"), (kg2, r'))
       /\ is_Some (edges kg2 !! KStr "r5").
Proof.
  destruct (add_edge_referential_integrity kg_alice has_skill (KStr "e1") (KStr "e6"))
    as [Hfail Hrepair]; [reflexivity|reflexivity|vm_compute; reflexivity|].
  split; [exact Hfail|].
  apply (Hrepair python_skill (KStr "e6") (KStr "r5")); try reflexivity.
  - right. exists alice. reflexivity.
  - now left.
Defined.

(** C3, as amended.  On an upsert of an existing node or edge the stored
    record is merged with the submission, as the store resolved it, key of
    the record by key of the record ([id], [label], [text], [attributes],
    ...): a key of the submission takes the submitted value, every other
    key of the stored record keeps its value.  The map under [attributes]
    is the value of one such key: it is replaced as a whole when the
    submission has the key, and kept as a whole when it has not.  The
    resolved submission is the submission itself when it carries an id;
    otherwise it differs from it in the [id] key only. *)
Theorem upsert_last_write_wins kg x k old nid kg' x' :
  wf_dict x ->
  hash_key nid = inr k ->
  (add_node (kg, x) = (inr nid, (kg', x')) /\ nodes kg !! k = Some old ->
   exists new,
     nodes kg' !! k = Some new
     /\ (forall key, PyDict.lookup key new
                     = match PyDict.lookup key x' with
                       | Some v => Some v
                       | None => PyDict.lookup key old
                       end)
     /\ (truthy (PyDict.get x "id") = true -> x' = x)
     /\ (forall key, key <> "id" -> PyDict.lookup key x' = PyDict.lookup key x))
  /\ (add_edge (kg, x) = (inr nid, (kg', x')) /\ edges kg !! k = Some old ->
      exists new,
        edges kg' !! k = Some new
        /\ (forall key, PyDict.lookup key new
                        = match PyDict.lookup key x' with
                          | Some v => Some v
                          | None => PyDict.lookup key old
                          end)
        /\ (truthy (PyDict.get x "id") = true -> x' = x)
        /\ (forall key, key <> "id" -> PyDict.lookup key x' = PyDict.lookup key x)).
Proof.
  intros Hwf Hk. split.
  - intros [Hcall Hold]. rewrite add_node_eq in Hcall. simpl in Hcall.
    destruct (hash_key (resolved_id "node_" (size (nodes kg)) x)) as [err|k0] eqn:Hk0;
      [discriminate|].
    injection Hcall as <- <- <-. rewrite Hk in Hk0. injection Hk0 as <-.
    eexists. split; [|split; [|split]].
    + simpl. rewrite lookup_upsert, Hold. reflexivity.
    + intros key. apply lookup_update. now apply wf_resolved_record.
    + intros Hid. now apply resolved_id_truthy.
    + intros key. apply lookup_resolved_record_ne.
  - intros [Hcall Hold]. rewrite add_edge_eq in Hcall. simpl in Hcall.
    destruct (hash_key (PyDict.get x "source_entity_id")) as [?|ks]; [discriminate|].
    destruct (negb (present kg ks)); [discriminate|].
    destruct (hash_key (PyDict.get x "target_entity_id")) as [?|kt]; [discriminate|].
    destruct (negb (present kg kt)); [discriminate|].
    destruct (hash_key (resolved_id "edge_" (size (edges kg)) x)) as [err|k0] eqn:Hk0;
      [discriminate|].
    injection Hcall as <- <- <-. rewrite Hk in Hk0. injection Hk0 as <-.
    eexists. split; [|split; [|split]].
    + simpl. rewrite lookup_upsert, Hold. reflexivity.
    + intros key. apply lookup_update. now apply wf_resolved_record.
    + intros Hid. now apply resolved_id_truthy.
    + intros key. apply lookup_resolved_record_ne.
Qed.

Lemma upsert_last_write_wins_witness :
  (exists new,
      nodes (fst (snd (add_node (kg_alice, alice_smith)))) !! KStr "e1" = Some new
      /\ PyDict.lookup "text" new = Some (VStr "Alice Smith")
      /\ PyDict.lookup "label" new = Some (VStr "PERSON"))
  /\ (exists new,
         edges (fst (snd (add_edge (kg_alice_edge, works_at_again)))) !! KStr "r1" = Some new
         /\ PyDict.lookup "attributes" new = Some (VDict [("confidence", VInt 1)])
         /\ PyDict.lookup "label" new = Some (VStr "WORKS_AT")).
Proof.
  split.
  - destruct (upsert_last_write_wins kg_alice alice_smith (KStr "e1") alice (VStr "e1")
                (fst (snd (add_node (kg_alice, alice_smith)))) alice_smith)
      as [Hnode _].
    + solve_wf_dict.
    + reflexivity.
    + destruct Hnode as (new & Hnew & Hmerge & _); [split; reflexivity|].
      exists new. split; [exact Hnew|]. split; rewrite Hmerge; reflexivity.
  - destruct (upsert_last_write_wins kg_alice_edge works_at_again (KStr "r1") works_at
                (VStr "r1") (fst (snd (add_edge (kg_alice_edge, works_at_again))))
                works_at_again) as [_ Hedge].
    + solve_wf_dict.
    + reflexivity.
    + destruct Hedge as (new & Hnew & Hmerge & _); [split; reflexivity|].
      exists new. split; [exact Hnew|]. split; rewrite Hmerge; reflexivity.
Defined.

(** C3, as stated for the keys of the attribute map, fails: the node
    [e1] stored with the attribute [role] and submitted again with the
    attribute [status] alone ends with [status] alone, and the edge [r1]
    stored with the attribute [since] and submitted again with [confidence]
    alone ends with [confidence] alone, while its [label], a key of the
    record that the submission does not have, is kept. *)
Lemma attribute_keys_not_preserved :
  (exists kg1 kg2 old new,
      add_node (__init__, alice_smith) = (inr (VStr "e1"), (kg1, alice_smith))
      /\ add_node (kg1, alice_intern) = (inr (VStr "e1"), (kg2, alice_intern))
      /\ nodes kg1 !! KStr "e1" = Some old
      /\ PyDict.lookup "attributes" old = Some (VDict [("role", VStr "Senior Engineer")])
      /\ PyDict.lookup "attributes" alice_intern = Some (VDict [("status", VStr "Intern")])
      /\ nodes kg2 !! KStr "e1" = Some new
      /\ PyDict.lookup "attributes" new = Some (VDict [("status", VStr "Intern")]))
  /\ (exists kg1 kg2 old new,
         add_edge (kg_alice, works_at_since) = (inr (VStr "r1"), (kg1, works_at_since))
         /\ add_edge (kg1, works_at_again) = (inr (VStr "r1"), (kg2, works_at_again))
         /\ edges kg1 !! KStr "r1" = Some old
         /\ PyDict.lookup "attributes" old = Some (VDict [("since", VInt 2020)])
         /\ PyDict.lookup "attributes" works_at_again = Some (VDict [("confidence", VInt 1)])
         /\ edges kg2 !! KStr "r1" = Some new
         /\ PyDict.lookup "attributes" new = Some (VDict [("confidence", VInt 1)])
         /\ PyDict.lookup "label" new = Some (VStr "WORKS_AT")).
Proof.
  split.
  - do 4 eexists. split; [rewrite add_node_eq; reflexivity|].
    split; [rewrite add_node_eq; reflexivity|]. repeat split; reflexivity.
  - do 4 eexists. split; [rewrite add_edge_eq; reflexivity|].
    split; [rewrite add_edge_eq; reflexivity|]. repeat split; reflexivity.
Qed.

(** The merge is between the keys of the record: the map under
    [attributes] is the value of one key and is assigned as a whole. *)
Example attributes_assigned_as_a_whole :
  exists new,
    nodes (fst (snd (add_node ({| nodes := {[KStr "e1" := alice_intern]};
                                  edges := ∅; _temp_node_ids := ∅ |}, alice_smith))))
      !! KStr "e1" = Some new
    /\ PyDict.lookup "attributes" new = Some (VDict [("role", VStr "Senior Engineer")]).
Proof. eexists. split; reflexivity. Qed.

(** C4. Adding the same entity twice under the id it carries: both calls
    return that id, the second call leaves the store exactly as the first
    left it, and the store holds one node under the id, the node count
    having grown by one only if the id was new. *)
Theorem add_node_idempotent kg e k :
  wf_dict e ->
  truthy (PyDict.get e "id") = true ->
  hash_key (PyDict.get e "id") = inr k ->
  exists kg1,
    add_node (kg, e) = (inr (PyDict.get e "id"), (kg1, e))
    /\ add_node (kg1, e) = (inr (PyDict.get e "id"), (kg1, e))
    /\ is_Some (nodes kg1 !! k)
    /\ size (nodes kg1) = if contains (nodes kg) k then size (nodes kg) else S (size (nodes kg)).
Proof.
  intros Hwf Hid Hk.
  eexists. split; [|split; [|split]].
  - rewrite add_node_eq. simpl.
    destruct (resolved_id_truthy "node_" (size (nodes kg)) e Hid) as [-> ->].
    rewrite Hk. reflexivity.
  - rewrite add_node_eq. simpl.
    match goal with
    | |- context [resolved_id "node_" ?n e] =>
        destruct (resolved_id_truthy "node_" n e Hid) as [-> ->]
    end.
    rewrite Hk. do 2 f_equal. f_equal.
    + unfold upsert at 1. rewrite lookup_upsert. apply insert_id.
      rewrite lookup_upsert. f_equal.
      destruct (nodes kg !! k); symmetry; [now apply update_idem|now apply update_self].
    + apply set_eq. intros k'. rewrite !elem_of_union. tauto.
  - simpl. rewrite lookup_upsert. eauto.
  - simpl. apply size_upsert.
Qed.

Lemma add_node_idempotent_witness :
  exists kg1,
    add_node (__init__, alice) = (inr (VStr "e1"), (kg1, alice))
    /\ add_node (kg1, alice) = (inr (VStr "e1"), (kg1, alice))
    /\ is_Some (nodes kg1 !! KStr "e1")
    /\ size (nodes kg1) = 1%nat.
Proof.
  apply (add_node_idempotent __init__ alice (KStr "e1")).
  - solve_wf_dict.
  - reflexivity.
  - reflexivity.
Defined.

(** C9. The id generated for an entity without id is [node_] followed by
    the node count plus one, and it is not always fresh: in a store whose
    only node was named [node_2] by its caller, the next entity without id
    is given [node_2] as well and is merged into that node, whose text it
    overwrites.  [add_edge] generates the ids of edges by the same scheme,
    and a relationship without id is merged into the edge that its caller
    named [edge_2]. *)
Theorem generated_id_collides :
  (exists kg1 kg2,
      add_node (__init__, named_node_2) = (inr (VStr "node_2"), (kg1, named_node_2))
      /\ nodes kg1 !! KStr "node_2" = Some named_node_2
      /\ add_node (kg1, unnamed)
         = (inr (VStr "node_2"), (kg2, [("text", VStr "B"); ("id", VStr "node_2")]))
      /\ nodes kg2 !! KStr "node_2" = Some [("id", VStr "node_2"); ("text", VStr "B")]
      /\ size (nodes kg2) = 1%nat)
  /\ (exists kg1 kg2 r',
         add_edge (kg_alice, named_edge_2) = (inr (VStr "edge_2"), (kg1, named_edge_2))
         /\ edges kg1 !! KStr "edge_2" = Some named_edge_2
         /\ add_edge (kg1, unnamed_edge) = (inr (VStr "edge_2"), (kg2, r'))
         /\ PyDict.lookup "label" <$> (edges kg2 !! KStr "edge_2") = Some (Some (VStr "B"))
         /\ size (edges kg2) = 1%nat).
Proof.
  split.
  - do 2 eexists. split; [|split; [|split; [|split]]].
    + rewrite add_node_eq. reflexivity.
    + reflexivity.
    + rewrite add_node_eq. reflexivity.
    + reflexivity.
    + reflexivity.
  - do 3 eexists. split; [|split; [|split; [|split]]].
    + rewrite add_edge_eq. reflexivity.
    + reflexivity.
    + rewrite add_edge_eq. reflexivity.
    + reflexivity.
    + reflexivity.
Qed.

(** C10. A record submitted without an id is changed in place by
    [add_node] and by [add_edge]: the generated id is written under its
    [id] key and no other key changes, and a new node or edge is stored as
    a copy of the record so changed.  A record submitted with an id is left
    as it is.  This holds whether the call returns or raises. *)
Theorem id_written_in_place kg x :
  let node_id := VStr ("node_" ++ pretty (size (nodes kg) + 1)%nat) in
  let edge_id := VStr ("edge_" ++ pretty (size (edges kg) + 1)%nat) in
  let after_node := add_node (kg, x) in
  let after_edge := add_edge (kg, x) in
  (truthy (PyDict.get x "id") = true ->
     snd (snd after_node) = x /\ snd (snd after_edge) = x)
  /\ (truthy (PyDict.get x "id") = false ->
        snd (snd after_node) = PyDict.set "id" node_id x
        /\ snd (snd after_edge) = PyDict.set "id" edge_id x
        /\ (forall key, key <> "id" ->
              PyDict.lookup key (snd (snd after_node)) = PyDict.lookup key x
              /\ PyDict.lookup key (snd (snd after_edge)) = PyDict.lookup key x)
        /\ fst after_node = inr node_id
        /\ (forall k, hash_key node_id = inr k -> nodes kg !! k = None ->
              nodes (fst (snd after_node)) !! k = Some (PyDict.set "id" node_id x))
        /\ (forall k, hash_key edge_id = inr k -> edges kg !! k = None ->
              fst after_edge = inr edge_id ->
              edges (fst (snd after_edge)) !! k = Some (PyDict.set "id" edge_id x))).
Proof.
  intros node_id edge_id after_node after_edge.
  assert (snd (snd after_node) = resolved_record "node_" (size (nodes kg)) x) as Hn.
  { unfold after_node. rewrite add_node_eq. simpl.
    destruct (hash_key (resolved_id "node_" (size (nodes kg)) x)); reflexivity. }
  assert (snd (snd after_edge) = resolved_record "edge_" (size (edges kg)) x) as He.
  { unfold after_edge. rewrite add_edge_eq. simpl.
    repeat match goal with
           | |- context [match ?c with _ => _ end] => destruct c; simpl; try reflexivity
           end. }
  split; intros Hid.
  - rewrite Hn, He. unfold resolved_record. now rewrite Hid.
  - assert (resolved_record "node_" (size (nodes kg)) x = PyDict.set "id" node_id x) as Hrn.
    { unfold resolved_record. now rewrite Hid. }
    assert (resolved_record "edge_" (size (edges kg)) x = PyDict.set "id" edge_id x) as Hre.
    { unfold resolved_record. now rewrite Hid. }
    assert (resolved_id "node_" (size (nodes kg)) x = node_id) as Hin.
    { unfold resolved_id. now rewrite Hid. }
    assert (resolved_id "edge_" (size (edges kg)) x = edge_id) as Hie.
    { unfold resolved_id. now rewrite Hid. }
    rewrite Hn, He, Hrn, Hre.
    split; [reflexivity|]. split; [reflexivity|]. split; [|split; [|split]].
    + intros key Hkey. now rewrite !lookup_set_ne.
    + unfold after_node. rewrite add_node_eq. simpl. rewrite Hin. reflexivity.
    + intros k Hk Hnew. unfold after_node. rewrite add_node_eq. simpl.
      rewrite Hin, Hk, Hrn. simpl. rewrite lookup_upsert, Hnew. reflexivity.
    + intros k Hk Hnew. unfold after_edge. rewrite add_edge_eq. simpl.
      rewrite Hie, Hk, Hre.
      repeat match goal with
             | |- context [match ?c with _ => _ end] => destruct c; simpl; try discriminate
             end.
      intros _. rewrite lookup_upsert, Hnew. reflexivity.
Qed.

Lemma id_written_in_place_witness :
  (snd (snd (add_node (kg_alice, alice))) = alice
   /\ snd (snd (add_edge (kg_alice, alice))) = alice)
  /\ snd (snd (add_node (kg_alice, unnamed))) = [("text", VStr "B"); ("id", VStr "node_2")]
  /\ snd (snd (add_edge (kg_alice, unnamed))) = [("text", VStr "B"); ("id", VStr "edge_1")]
  /\ nodes (fst (snd (add_node (kg_alice, unnamed)))) !! KStr "node_2"
     = Some [("text", VStr "B"); ("id", VStr "node_2")].
Proof.
  destruct (id_written_in_place kg_alice alice) as [Hkeep _].
  destruct (id_written_in_place kg_alice unnamed)
    as [_ (Hn & He & _ & _ & Hstored & _)]; [reflexivity|].
  split; [apply Hkeep; reflexivity|].
  split; [exact Hn|]. split; [exact He|].
  apply Hstored; reflexivity.
Defined.

End StoreClaims.

(** ** The batch build *)

Section Batch.

Import KgBuilder.

Implicit Types (kg : KG) (acc ids : list value) (x : pydict).

(** A loop whose body catches whatever the call raises applies the items
    one after the other and never raises. *)
Lemma for_each_applied (call : M (KG * pydict) value) (body : M ((KG * list value) * pydict) unit) :
  (forall kg acc x,
      body ((kg, acc), x)
      = match call (kg, x) with
        | (inr id, (kg', x')) => (inr (), ((kg', (acc ++ [id])%list), x'))
        | (inl _, (kg', x')) => (inr (), ((kg', acc), x'))
        end) ->
  forall xs kg acc,
  exists ids kg' xs',
    for_each body xs (kg, acc) = (inr (), ((kg', (acc ++ ids)%list), xs'))
    /\ applied call kg xs ids kg'.
Proof.
  intros Hbody xs. induction xs as [|x xs IH]; intros kg acc; simpl.
  - exists [], kg, []. rewrite app_nil_r. split; [reflexivity|constructor].
  - rewrite Hbody. destruct (call (kg, x)) as [[e|id] [kg1 x1]] eqn:Hcall.
    + destruct (IH kg1 acc) as (ids & kg' & xs' & -> & Happ).
      exists ids, kg', (x1 :: xs'). split; [reflexivity|].
      eapply applied_skip; eassumption.
    + destruct (IH kg1 (acc ++ [id])%list) as (ids & kg' & xs' & -> & Happ).
      exists (id :: ids), kg', (x1 :: xs'). split.
      * now rewrite <- app_assoc.
      * eapply applied_ok; eassumption.
Qed.

Lemma add_entities_body_eq kg acc x :
  add_entities_body ((kg, acc), x)
  = match add_node (kg, x) with
    | (inr id, (kg', x')) => (inr (), ((kg', (acc ++ [id])%list), x'))
    | (inl _, (kg', x')) => (inr (), ((kg', acc), x'))
    end.
Proof.
  unfold add_entities_body, try_except, zoom, mbind, M_bind, modify, mret, M_ret. simpl.
  destruct (add_node (kg, x)) as [[e|id] [kg' x']]; reflexivity.
Qed.

Lemma add_relationships_body_eq kg acc x :
  add_relationships_body ((kg, acc), x)
  = match add_edge (kg, x) with
    | (inr id, (kg', x')) => (inr (), ((kg', (acc ++ [id])%list), x'))
    | (inl _, (kg', x')) => (inr (), ((kg', acc), x'))
    end.
Proof.
  unfold add_relationships_body, try_except, zoom, mbind, M_bind, modify, mret, M_ret. simpl.
  destruct (add_edge (kg, x)) as [[[]|id] [kg' x']]; reflexivity.
Qed.

Lemma add_entities_to_graph_applied kg es :
  exists ids kg' es',
    add_entities_to_graph (Some kg, es) = (inr ids, (Some kg', es'))
    /\ applied add_node kg es ids kg'.
Proof.
  destruct es as [|e es].
  - exists [], kg, []. split; [reflexivity|constructor].
  - destruct (for_each_applied add_node add_entities_body add_entities_body_eq (e :: es) kg [])
      as (ids & kg' & es' & Hloop & Happ).
    exists ids, kg', es'. split; [|exact Happ].
    unfold add_entities_to_graph. now rewrite Hloop.
Qed.

Lemma add_relationships_to_graph_applied kg rs :
  exists ids kg' rs',
    add_relationships_to_graph (Some kg, rs) = (inr ids, (Some kg', rs'))
    /\ applied add_edge kg rs ids kg'.
Proof.
  destruct rs as [|r rs].
  - exists [], kg, []. split; [reflexivity|constructor].
  - destruct (for_each_applied add_edge add_relationships_body add_relationships_body_eq
                (r :: rs) kg []) as (ids & kg' & rs' & Hloop & Happ).
    exists ids, kg', rs'. split; [|exact Happ].
    unfold add_relationships_to_graph. now rewrite Hloop.
Qed.

(** C5. [build_or_update_graph] returns for every pair of input lists and
    never raises.  Without a graph instance it returns two empty lists.
    Otherwise it clears the session, applies the entities and then, on the
    store they leave, the relationships; an item whose call raises is
    skipped and the next item is tried; [added_nodes] and [added_edges] are
    exactly the ids returned by the calls that succeeded, in input order. *)
Theorem build_or_update_graph_never_raises (kg_instance : option KG) (entities relationships : list pydict) :
  exists result kg_instance' entities' relationships',
    build_or_update_graph (kg_instance, (entities, relationships))
    = (inr result, (kg_instance', (entities', relationships')))
    /\ match kg_instance with
       | None =>
           result = {| added_nodes := []; added_edges := [] |} /\ kg_instance' = None
       | Some kg =>
           exists kg1 kg2,
             applied add_node (clear_session_tracking kg) entities (added_nodes result) kg1
             /\ applied add_edge kg1 relationships (added_edges result) kg2
             /\ kg_instance' = Some kg2
       end.
Proof.
  destruct kg_instance as [kg|].
  - destruct (add_entities_to_graph_applied (clear_session_tracking kg) entities)
      as (ns & kg1 & es' & Hes & Hnodes).
    destruct (add_relationships_to_graph_applied kg1 relationships)
      as (eds & kg2 & rs' & Hrs & Hedges).
    exists {| added_nodes := ns; added_edges := eds |}, (Some kg2), es', rs'.
    split; [|exists kg1, kg2; auto].
    unfold build_or_update_graph, zoom, mbind, M_bind, gets, modify, mret, M_ret.
    cbn [fst snd]. rewrite Hes. cbn [fst snd]. rewrite Hrs. reflexivity.
  - exists {| added_nodes := []; added_edges := [] |}, None, entities, relationships.
    split; [reflexivity|auto].
Qed.

(** The example of the module: the second relationship names a node that
    does not exist and is skipped. *)
Example build_or_update_graph_partial :
  fst (build_or_update_graph
         (Some kg_alice,
          ([python_skill; [("id", VList [VInt 1])]],
           [[("id", VStr "r_invalid"); ("source_entity_id", VStr "e_nonexistent");
             ("target_entity_id", VStr "e1")];
            has_skill])))
  = inr {| added_nodes := [VStr "e6"]; added_edges := [VStr "r5"] |}.
Proof. vm_compute. reflexivity. Qed.

End Batch.

(** ** Descriptions *)

Section Descriptions.

Import EmbeddingStore.

Implicit Types (x r : pydict) (m : gmap pykey pydict).

Lemma truthy_same_content (a1 a2 : pydict) :
  same_content (VDict a1) (VDict a2) -> truthy (VDict a1) = truthy (VDict a2).
Proof.
  intros H. inversion H as [|?|? d ? _ Hp HF]; subst; [reflexivity|].
  apply Permutation_length in Hp. apply Forall2_length in HF.
  destruct a1, a2; simpl in *; try reflexivity; congruence.
Qed.

(** [json.dumps(..., sort_keys=True)] of two objects with the same content
    is the same string. *)
Lemma json_dumps_same_content : forall v1 v2,
  same_content v1 v2 -> json_dumps v1 = json_dumps v2.
Proof.
  fix IH 3. intros v1 v2 H. destruct H as [v|l1 l2 HF|d1 d d2 Hwf Hp HF].
  - reflexivity.
  - assert (map json_dumps l1 = map json_dumps l2) as Hmap.
    { induction HF as [|x y l1 l2 Hxy _ IHF]; simpl; [reflexivity|].
      f_equal; [exact (IH _ _ Hxy)|exact IHF]. }
    simpl. rewrite Hmap. reflexivity.
  - rewrite (json_dumps_perm d1 d Hp Hwf). clear Hp Hwf.
    assert (map (fun kv => (fst kv, json_dumps (snd kv))) d
            = map (fun kv => (fst kv, json_dumps (snd kv))) d2) as Hmap.
    { induction HF as [|x y l1 l2 [Hk Hxy] _ IHF]; simpl; [reflexivity|].
      f_equal; [f_equal; [exact Hk|exact (IH _ _ Hxy)]|exact IHF]. }
    simpl. rewrite Hmap. reflexivity.
Qed.

(** C7. Two records that differ only in the insertion order of their
    attribute maps (of the map itself and of any map nested in it) have the
    same entity description and, with any entity map, the same relationship
    description, character for character. *)
Theorem descriptions_ignore_insertion_order x1 x2 m :
  differ_in_attribute_order x1 x2 ->
  _create_entity_description x1 = _create_entity_description x2
  /\ _create_relationship_description x1 m = _create_relationship_description x2 m.
Proof.
  intros (a1 & a2 & Hsame_attrs & Ha1 & Ha2 & Hsame).
  pose proof (json_dumps_same_content _ _ Hsame_attrs) as Hjson.
  pose proof (truthy_same_content a1 a2 Hsame_attrs) as Htruthy.
  split.
  - unfold _create_entity_description, PyDict.get, PyDict.get_default.
    rewrite Ha1, Ha2, (Hsame "text"), (Hsame "label") by discriminate.
    now rewrite Hjson.
  - unfold _create_relationship_description, getitem, PyDict.get, PyDict.get_default.
    rewrite Ha1, Ha2, (Hsame "source_entity_id"), (Hsame "target_entity_id"),
      (Hsame "label"), (Hsame "id") by discriminate.
    now rewrite Hjson, Htruthy.
Qed.

Lemma descriptions_ignore_insertion_order_witness :
  _create_entity_description engineer_first = _create_entity_description email_first
  /\ _create_relationship_description engineer_first ∅
     = _create_relationship_description email_first ∅.
Proof.
  apply descriptions_ignore_insertion_order.
  exists [("role", VStr "Engineer"); ("email", VStr "alice@example.com")],
         [("email", VStr "alice@example.com"); ("role", VStr "Engineer")].
  split.
  { apply (same_dict _ [("email", VStr "alice@example.com"); ("role", VStr "Engineer")]).
    - solve_wf_dict.
    - apply perm_swap.
    - repeat constructor. }
  split; [reflexivity|]. split; [reflexivity|].
  intros key Hkey. unfold engineer_first, email_first. simpl.
  repeat (destruct (String.eqb key _); [reflexivity|]).
  destruct (String.eqb_spec key "attributes"); [contradiction|reflexivity].
Defined.

(** Attribute maps nested in one another are sorted at every depth. *)
Example json_dumps_nested_order :
  json_dumps (VDict [("b", VDict [("y", VInt 1); ("x", VInt 2)]); ("a", VNone)])
  = json_dumps (VDict [("a", VNone); ("b", VDict [("x", VInt 2); ("y", VInt 1)])]).
Proof. vm_compute. reflexivity. Qed.


Lemma relationship_description_eq r m ks kt :
  has_endpoints r ks kt ->
  _create_relationship_description r m
  = inr (relationship_text r (entity_text m ks (VStr "Unknown Source Entity"))
                             (entity_text m kt (VStr "Unknown Target Entity"))).
Proof.
  intros [(vs & Hvs & Hks) (vt & Hvt & Hkt)].
  unfold _create_relationship_description, relationship_text, getitem.
  rewrite Hvs, Hvt. unfold mbind, exn_bind at 1 2. rewrite Hks.
  unfold mbind, exn_bind at 1 2. rewrite Hkt.
  destruct (truthy (PyDict.get r "attributes")); reflexivity.
Qed.


(** A record without [source_entity_id] is not a relationship; on it the
    subscript [relationship["source_entity_id"]] raises. *)
Example relationship_without_endpoint_raises :
  _create_relationship_description no_source ∅ = inl (KeyError "source_entity_id").
Proof. reflexivity. Qed.


End Descriptions.

(** ** The embedding pipeline *)

Section PipelineClaims.

Import EmbeddingStore.

Context {vector EState VState : Type}.
Variable embed_batch : list string -> M EState (list vector).
Variable add_items : list (item vector) -> M VState unit.

Implicit Types (l : locals (vector:=vector)) (c : EState * VState).

Lemma zip3_length {A B C} (xs : list A) (ys : list B) (zs : list C) :
  length ys = length xs -> length zs = length xs ->
  length (zip3 xs ys zs) = length xs.
Proof.
  revert ys zs. induction xs as [|x xs IH]; intros [|y ys] [|z zs]; simpl; try discriminate.
  - reflexivity.
  - intros Hy Hz. f_equal. apply IH; congruence.
Qed.

Lemma zip3_Forall {A B C} (P : A -> Prop) (xs : list A) (ys : list B) (zs : list C) :
  Forall P xs -> Forall (fun x => P (fst (fst x))) (zip3 xs ys zs).
Proof.
  intros H. revert ys zs. induction H as [|x xs Hx _ IH]; intros [|y ys] [|z zs]; simpl;
    try constructor; auto.
Qed.

Lemma map_exn_length {A B} (f : A -> exn + B) (xs : list A) (ys : list B) :
  map_exn f xs = inr ys -> length ys = length xs.
Proof.
  revert ys. induction xs as [|x xs IH]; intros ys; simpl.
  - intros [= <-]. reflexivity.
  - unfold mbind, exn_bind. destruct (f x); [discriminate|].
    destruct (map_exn f xs) as [|ys']; [discriminate|].
    intros [= <-]. simpl. f_equal. now apply IH.
Qed.

(** The descriptions of relationships that carry their endpoints are all
    produced. *)
Lemma relationship_texts_total (m : gmap pykey pydict) (rs : list pydict) :
  Forall (fun r => exists ks kt, has_endpoints r ks kt) rs ->
  exists texts, map_exn (fun r => _create_relationship_description r m) rs = inr texts.
Proof.
  induction 1 as [|r rs (ks & kt & Hends) _ [texts IH]]; simpl.
  - eexists. reflexivity.
  - rewrite (relationship_description_eq r m ks kt Hends), IH. eexists. reflexivity.
Qed.

Lemma for_in_cons {S A} (x : A) (xs : list A) (body : A -> M S unit) (s : S) :
  for_in (x :: xs) body s
  = match body x s with
    | (inr _, s') => for_in xs body s'
    | (inl e, s') => (inl e, s')
    end.
Proof. reflexivity. Qed.

Lemma append_entity_item_eq e t (v : vector) id c l :
  PyDict.lookup "id" e = Some id ->
  exists l',
    append_entity_item (e, t, v) (c, l) = (inr (), (c, l'))
    /\ entities_processed_count l' = (entities_processed_count l + 1)%nat
    /\ relationships_processed_count l' = relationships_processed_count l.
Proof.
  intros Hid. eexists. split.
  - unfold append_entity_item, mbind, M_bind, lift, on_locals, modify, getitem.
    rewrite Hid. reflexivity.
  - split; reflexivity.
Qed.

Lemma append_relationship_item_eq r t (v : vector) id c l :
  PyDict.lookup "id" r = Some id ->
  exists l',
    append_relationship_item (r, t, v) (c, l) = (inr (), (c, l'))
    /\ entities_processed_count l' = entities_processed_count l
    /\ relationships_processed_count l' = (relationships_processed_count l + 1)%nat.
Proof.
  intros Hid. eexists. split.
  - unfold append_relationship_item, mbind, M_bind, lift, on_locals, modify, getitem.
    rewrite Hid. reflexivity.
  - split; reflexivity.
Qed.

(** The loop over the zipped entities counts each of them when each
    carries an id. *)
Lemma for_in_append_entities (xs : list (pydict * string * vector)) c l :
  Forall (fun x => is_Some (PyDict.lookup "id" (fst (fst x)))) xs ->
  exists l',
    for_in xs append_entity_item (c, l) = (inr (), (c, l'))
    /\ entities_processed_count l' = (entities_processed_count l + length xs)%nat
    /\ relationships_processed_count l' = relationships_processed_count l.
Proof.
  intros H. revert l. induction H as [|[[e t] v] xs [id Hid] _ IH]; intros l.
  - exists l. simpl. split; [reflexivity|]. split; [lia|reflexivity].
  - destruct (append_entity_item_eq e t v id c l Hid) as (l1 & Hstep & He1 & Hr1).
    destruct (IH l1) as (l' & Hloop & He & Hr).
    exists l'. split; [|cbn [length]; split; [lia|congruence]].
    now rewrite for_in_cons, Hstep.
Qed.

Lemma for_in_append_relationships (xs : list (pydict * string * vector)) c l :
  Forall (fun x => is_Some (PyDict.lookup "id" (fst (fst x)))) xs ->
  exists l',
    for_in xs append_relationship_item (c, l) = (inr (), (c, l'))
    /\ entities_processed_count l' = entities_processed_count l
    /\ relationships_processed_count l' = (relationships_processed_count l + length xs)%nat.
Proof.
  intros H. revert l. induction H as [|[[e t] v] xs [id Hid] _ IH]; intros l.
  - exists l. simpl. split; [reflexivity|]. split; [reflexivity|lia].
  - destruct (append_relationship_item_eq e t v id c l Hid) as (l1 & Hstep & He1 & Hr1).
    destruct (IH l1) as (l' & Hloop & He & Hr).
    exists l'. split; [|cbn [length]; split; [congruence|lia]].
    now rewrite for_in_cons, Hstep.
Qed.

Lemma process_entities_counts (es : list pydict) (model : EState) (db : VState) l :
  embeds embed_batch ->
  Forall (fun e => is_Some (PyDict.lookup "id" e)) es ->
  exists model' l',
    process_entities embed_batch es ((model, db), l) = (inr (), ((model', db), l'))
    /\ entities_processed_count l' = (entities_processed_count l + length es)%nat
    /\ relationships_processed_count l' = relationships_processed_count l.
Proof.
  intros Hembed Hids.
  destruct (Hembed (map _create_entity_description es) model) as (vs & model' & Hvs & Hlen).
  destruct (for_in_append_entities
              (zip3 es (map _create_entity_description es) vs) (model', db) l)
    as (l' & Hloop & He & Hr).
  { now apply (zip3_Forall (fun e => is_Some (PyDict.lookup "id" e))). }
  exists model', l'. split; [|split; [|assumption]].
  - unfold process_entities, try_except, on_model, zoom, mbind, M_bind. simpl.
    rewrite Hvs. simpl. now rewrite Hloop.
  - rewrite He. f_equal. apply zip3_length; [apply length_map|].
    now rewrite Hlen, length_map.
Qed.

Lemma process_relationships_counts (rs : list pydict) map_arg (model : EState) (db : VState) l :
  embeds embed_batch ->
  Forall (fun r => is_Some (PyDict.lookup "id" r)) rs ->
  Forall (fun r => exists ks kt, has_endpoints r ks kt) rs ->
  exists model' l',
    process_relationships embed_batch rs map_arg ((model, db), l) = (inr (), ((model', db), l'))
    /\ entities_processed_count l' = entities_processed_count l
    /\ relationships_processed_count l' = (relationships_processed_count l + length rs)%nat.
Proof.
  intros Hembed Hids Hends.
  destruct (relationship_texts_total (match map_arg with Some m => m | None => ∅ end) rs Hends)
    as [texts Htexts].
  pose proof (map_exn_length _ _ _ Htexts) as Htl.
  destruct (Hembed texts model) as (vs & model' & Hvs & Hlen).
  destruct (for_in_append_relationships (zip3 rs texts vs) (model', db) l)
    as (l' & Hloop & He & Hr).
  { now apply (zip3_Forall (fun r => is_Some (PyDict.lookup "id" r))). }
  exists model', l'. split; [|split; [assumption|]].
  - unfold process_relationships, try_except, on_model, zoom, mbind, M_bind, lift.
    rewrite Htexts. simpl. rewrite Hvs. simpl. now rewrite Hloop.
  - rewrite Hr. f_equal. apply zip3_length; congruence.
Qed.

(** C6. When the embedding model returns one vector per text and every
    record carries its id (and every relationship its endpoints),
    [store_embeddings] returns the number of entities and the number of
    relationships as processed counts whatever the bulk upsert [add_items]
    does: an exception it raises is caught and does not change the counts. *)
Theorem store_embeddings_counts_survive_upsert_failure
    (entities relationships : list pydict) (entities_map : option (gmap pykey pydict))
    (model : EState) (db : VState) :
  embeds embed_batch ->
  Forall (fun e => is_Some (PyDict.lookup "id" e)) entities ->
  Forall (fun r => is_Some (PyDict.lookup "id" r)) relationships ->
  Forall (fun r => exists ks kt, has_endpoints r ks kt) relationships ->
  exists clients',
    store_embeddings embed_batch add_items (Some entities) (Some relationships) entities_map
      (Some model, Some db)
    = (inr {| entities_processed := length entities;
              relationships_processed := length relationships |}, clients').
Proof.
  intros Hembed Hes Hrs Hends.
  set (l0 := {| items_to_add_to_db := @nil (item vector);
                entities_processed_count := 0;
                relationships_processed_count := 0 |}).
  assert (exists model1 l1,
             match entities with
             | e :: es => process_entities embed_batch (e :: es)
             | [] => mret ()
             end ((model, db), l0) = (inr (), ((model1, db), l1))
             /\ entities_processed_count l1 = length entities
             /\ relationships_processed_count l1 = 0%nat) as (model1 & l1 & H1 & He1 & Hr1).
  { destruct entities as [|e es].
    - exists model, l0. split; [reflexivity|]. split; reflexivity.
    - destruct (process_entities_counts (e :: es) model db l0 Hembed Hes)
        as (model1 & l1 & H1 & He1 & Hr1).
      exists model1, l1. split; [exact H1|]. split; [exact He1|exact Hr1]. }
  assert (exists model2 l2,
             match relationships with
             | r :: rs => process_relationships embed_batch (r :: rs) entities_map
             | [] => mret ()
             end ((model1, db), l1) = (inr (), ((model2, db), l2))
             /\ entities_processed_count l2 = length entities
             /\ relationships_processed_count l2 = length relationships)
    as (model2 & l2 & H2 & He2 & Hr2).
  { destruct relationships as [|r rs].
    - exists model1, l1. split; [reflexivity|]. split; assumption.
    - destruct (process_relationships_counts (r :: rs) entities_map model1 db l1
                  Hembed Hrs Hends) as (model2 & l2 & H2 & He2 & Hr2).
      exists model2, l2. split; [exact H2|]. split; [congruence|].
      rewrite Hr2, Hr1. reflexivity. }
  unfold store_embeddings, store_embeddings_body. fold l0.
  unfold mbind, M_bind at 1. rewrite H1.
  unfold M_bind at 1. rewrite H2.
  unfold M_bind, gets, mret, M_ret, try_except, on_store, zoom. simpl.
  destruct (items_to_add_to_db l2) as [|i items]; simpl.
  - rewrite He2, Hr2. eexists. reflexivity.
  - destruct (add_items (i :: items) db) as [[e|[]] db']; simpl;
      rewrite He2, Hr2; eexists; reflexivity.
Qed.

End PipelineClaims.

(** The scenario of the test [test_store_embeddings_vector_db_error], with
    two entities and one relationship: the model returns a fixed vector per
    text and the store raises on every bulk upsert. *)
Lemma store_embeddings_counts_survive_upsert_failure_witness :
  exists clients',
    EmbeddingStore.store_embeddings (vector:=list Z)
      (fun texts model => (inr (map (fun _ => [1; 2; 3; 4; 5]) texts), model))
      (fun _ (db : unit) => (inl (Exception "VectorDB API Error"), db))
      (Some [alice; python_skill]) (Some [has_skill]) None (Some (), Some ())
    = (inr {| EmbeddingStore.entities_processed := 2;
              EmbeddingStore.relationships_processed := 1 |}, clients').
Proof.
  apply (store_embeddings_counts_survive_upsert_failure
           (fun texts (model : unit) => (inr (map (fun _ => [1; 2; 3; 4; 5]) texts), model))
           (fun _ (db : unit) => (inl (Exception "VectorDB API Error"), db))
           [alice; python_skill] [has_skill] None () ()).
  - intros texts model. do 2 eexists. split; [reflexivity|apply length_map].
  - repeat constructor; eexists; reflexivity.
  - repeat constructor; eexists; reflexivity.
  - repeat constructor. exists (KStr "e1"), (KStr "e6").
    split; eexists; split; reflexivity.
Defined.

(** ** Provenance *)

Section Provenance.

Import KgBuilder.

Implicit Types (kg : KG) (x record : pydict) (k : pykey) (c : string).

Lemma source_ids_tagged record c :
  PyDict.lookup "text_chunk_id" record = Some (VStr c) ->
  Indexing.source_ids record = inr (chunk_set c).
Proof.
  intros H. unfold Indexing.source_ids, PyDict.get, chunk_set. rewrite H. simpl.
  destruct (String.eqb c ""); reflexivity.
Qed.




End Provenance.

(** ** Provenance in the graph of [create_kg] *)

Section GraphProvenance.

Import Networkx KgConstruction Indexing.

Implicit Types (g : MultiDiGraph) (x node attributes : pydict) (k : pykey) (c : string).

(** A node that [add_node] creates, and the nodes after [add_edge]. *)
Lemma add_node_new g (n : value) (attr : pydict) k g' :
  hash_key n = inr k -> _node g !! k = None ->
  Networkx.add_node g n attr = inr g' ->
  g' = {| _node := <[k := PyDict.update [] attr]> (_node g); _adj := _adj g |}.
Proof.
  intros Hk Hnode. unfold Networkx.add_node, mbind, exn_bind, mret, exn_ret.
  destruct (bind_keywords _ _ attr) as [|[]]; [discriminate|]. rewrite Hk, Hnode.
  destruct k; [discriminate| |]; now intros [= <-].
Qed.

Lemma add_edge_nodes g (u v : pykey) (kwargs : pydict) g' :
  Networkx.add_edge g u v kwargs = inr g' -> _node g' = _node g.
Proof.
  unfold Networkx.add_edge, mbind, exn_bind, mret, exn_ret.
  destruct (bind_keywords _ _ kwargs) as [|[]]; [discriminate|].
  destruct (match PyDict.get kwargs "key" with VNone => _ | _ => _ end) as [|key];
    [discriminate|].
  now intros [= <-].
Qed.


Lemma lookup_without excluded x key :
  existsb (String.eqb key) excluded = false ->
  PyDict.lookup key (without excluded x) = PyDict.lookup key x.
Proof.
  intros Hkey. unfold without. induction x as [|[k' v'] x IH]; simpl; [reflexivity|].
  destruct (String.eqb_spec key k') as [<-|Hne].
  - rewrite Hkey. simpl. now rewrite String.eqb_refl.
  - destruct (existsb (String.eqb k') excluded); simpl; [assumption|].
    destruct (String.eqb_spec key k'); [contradiction|assumption].
Qed.

Lemma wf_without excluded x : wf_dict x -> wf_dict (without excluded x).
Proof.
  unfold wf_dict, without, PyDict.keys. induction x as [|[k' v'] x IH]; simpl; [auto|].
  intros [Hnotin Hnd]%NoDup_cons.
  destruct (existsb (String.eqb k') excluded); simpl; [auto|].
  apply NoDup_cons. split; [|auto].
  intros Hin. apply Hnotin. apply list_elem_of_fmap in Hin as ([k0 v0] & -> & Hin).
  apply list_elem_of_fmap. exists (k0, v0). split; [reflexivity|].
  apply list_elem_of_In, filter_In in Hin. apply list_elem_of_In. tauto.
Qed.

Lemma merge_attributes_node attributes : forall g k node,
  _node g !! k = Some node ->
  _node (merge_attributes g k attributes) !! k = Some (fold_left merge_step attributes node).
Proof.
  unfold merge_attributes.
  induction attributes as [|[key v] attributes IH]; intros g k node Hnode; simpl; [assumption|].
  apply IH. rewrite Hnode. simpl. unfold merge_step. simpl.
  destruct (PyDict.lookup key node) as [old|].
  - destruct (py_eq old v); [assumption|].
    unfold set_node_attr. simpl. rewrite lookup_alter_eq, Hnode. reflexivity.
  - unfold set_node_attr. simpl. rewrite lookup_alter_eq, Hnode. reflexivity.
Qed.




Lemma add_relation_nodes g r g' : add_relation g r = inr g' -> _node g' = _node g.
Proof.
  unfold add_relation, getitem, mbind, exn_bind, mret, exn_ret.
  destruct (PyDict.lookup "entity1_text" r) as [s|]; [|discriminate].
  destruct (PyDict.lookup "entity2_text" r) as [t|]; [|discriminate].
  destruct (PyDict.lookup "type" r) as [ty|]; [|discriminate].
  destruct (has_node g s && has_node g t).
  - destruct (hash_key s); [discriminate|]. destruct (hash_key t); [discriminate|].
    apply add_edge_nodes.
  - now intros [= <-].
Qed.

Lemma fold_add_relation_nodes rs : forall g g',
  fold_exn add_relation rs g = inr g' -> _node g' = _node g.
Proof.
  induction rs as [|r rs IH]; intros g g'; simpl.
  - now intros [= <-].
  - unfold mbind, exn_bind. destruct (add_relation g r) as [|g1] eqn:H1; [discriminate|].
    intros H. rewrite (IH _ _ H). now apply add_relation_nodes in H1.
Qed.



End GraphProvenance.

(** ** Provenance under upsert *)

Section ProvenanceClaim.

Import KgBuilder.

Implicit Types (kg : KG) (x record : pydict) (k : pykey) (c : string).




End ProvenanceClaim.

(** * More of the graph store *)

Section StoreBehaviour.

Import KgBuilder.

Implicit Types (kg : KG) (e r x : pydict) (k : pykey).

(** X1. [add_node] raises only for a record whose id is truthy and not
    hashable; the exception is the [TypeError] of the hash, and the store
    and the record are left as they were.  For every other record it
    returns the resolved id. *)
Theorem add_node_raises_only_on_unhashable_id kg x :
  (forall err kg' x',
      add_node (kg, x) = (inl err, (kg', x')) ->
      kg' = kg /\ x' = x
      /\ truthy (PyDict.get x "id") = true /\ hash_key (PyDict.get x "id") = inl err)
  /\ (truthy (PyDict.get x "id") = false \/ (exists k, hash_key (PyDict.get x "id") = inr k) ->
      exists kg' x',
        add_node (kg, x) = (inr (resolved_id "node_" (size (nodes kg)) x), (kg', x'))).
Proof.
  rewrite add_node_eq. cbn zeta. unfold resolved_id, resolved_record, generated_id. split.
  - intros err kg' x'. destruct (truthy (PyDict.get x "id")); simpl.
    + destruct (hash_key (PyDict.get x "id")) as [err0|k]; [|discriminate].
      intros [= <- <- <-]. auto.
    + discriminate.
  - intros [Hfalsy|[k Hk]].
    + rewrite Hfalsy. simpl. eauto.
    + destruct (truthy (PyDict.get x "id")); simpl; [rewrite Hk|]; eauto.
Qed.

Lemma add_node_raises_only_on_unhashable_id_witness :
  add_node (kg_alice, unhashable_id)
  = (inl (TypeError "unhashable type: 'list'"), (kg_alice, unhashable_id))
  /\ exists kg' x', add_node (kg_alice, unnamed) = (inr (VStr "node_2"), (kg', x')).
Proof.
  destruct (add_node_raises_only_on_unhashable_id kg_alice unhashable_id) as [Hraise _].
  destruct (add_node_raises_only_on_unhashable_id kg_alice unnamed) as [_ Hreturn].
  split.
  - destruct (add_node (kg_alice, unhashable_id)) as [[err|id] [kg' x']] eqn:Hcall.
    + destruct (Hraise err kg' x' eq_refl) as (-> & -> & _ & Herr).
      injection Herr as <-. reflexivity.
    + rewrite add_node_eq in Hcall. discriminate.
  - apply Hreturn. left. reflexivity.
Defined.

(** X2. What a call leaves alone.  [add_edge] that raises, for whatever
    reason, leaves the whole store as it was; [add_edge] that returns
    changes the edge table at the key of its id only, and neither the nodes
    nor the session set.  [add_node] that returns changes the node table at
    the key of its id only, adds that key to the session set, and leaves
    the edges alone. *)
Theorem calls_change_one_record kg x :
  (forall err kg' x', add_edge (kg, x) = (inl err, (kg', x')) -> kg' = kg)
  /\ (forall id kg' x' ke,
        add_edge (kg, x) = (inr id, (kg', x')) -> hash_key id = inr ke ->
        nodes kg' = nodes kg /\ _temp_node_ids kg' = _temp_node_ids kg
        /\ is_Some (edges kg' !! ke)
        /\ forall k, k <> ke -> edges kg' !! k = edges kg !! k)
  /\ (forall id kg' x' kn,
        add_node (kg, x) = (inr id, (kg', x')) -> hash_key id = inr kn ->
        edges kg' = edges kg /\ _temp_node_ids kg' = {[kn]} ∪ _temp_node_ids kg
        /\ is_Some (nodes kg' !! kn)
        /\ forall k, k <> kn -> nodes kg' !! k = nodes kg !! k).
Proof.
  split; [|split].
  - intros err kg' x'. rewrite add_edge_eq. cbn zeta.
    repeat match goal with
           | |- context [match ?c with _ => _ end] => destruct c; try discriminate
           end; now intros [= _ <- _].
  - intros id kg' x' ke. rewrite add_edge_eq. cbn zeta.
    destruct (hash_key (PyDict.get x "source_entity_id")) as [?|ks]; [discriminate|].
    destruct (negb (present kg ks)); [discriminate|].
    destruct (hash_key (PyDict.get x "target_entity_id")) as [?|kt]; [discriminate|].
    destruct (negb (present kg kt)); [discriminate|].
    destruct (hash_key (resolved_id "edge_" (size (edges kg)) x)) as [?|ke0] eqn:Hke0;
      [discriminate|].
    intros [= <- <- _] Hke. rewrite Hke in Hke0. injection Hke0 as <-. simpl.
    split; [reflexivity|]. split; [reflexivity|]. split.
    + rewrite lookup_upsert. eauto.
    + intros k Hne. now apply lookup_upsert_ne.
  - intros id kg' x' kn. rewrite add_node_eq. cbn zeta.
    destruct (hash_key (resolved_id "node_" (size (nodes kg)) x)) as [?|kn0] eqn:Hkn0;
      [discriminate|].
    intros [= <- <- _] Hkn. rewrite Hkn in Hkn0. injection Hkn0 as <-. simpl.
    split; [reflexivity|]. split; [reflexivity|]. split.
    + rewrite lookup_upsert. eauto.
    + intros k Hne. now apply lookup_upsert_ne.
Qed.

Lemma calls_change_one_record_witness :
  fst (snd (add_edge (kg_alice, has_skill))) = kg_alice
  /\ nodes (fst (snd (add_edge (kg_alice, works_at)))) = nodes kg_alice
  /\ edges (fst (snd (add_node (kg_alice_edge, python_skill)))) = edges kg_alice_edge.
Proof.
  destruct (calls_change_one_record kg_alice has_skill) as [Hraise _].
  destruct (calls_change_one_record kg_alice works_at) as (_ & Hedge & _).
  destruct (calls_change_one_record kg_alice_edge python_skill) as (_ & _ & Hnode).
  split; [|split].
  - destruct (add_edge (kg_alice, has_skill)) as [[err|id] [kg' x']] eqn:Hcall.
    + exact (Hraise err kg' x' eq_refl).
    + rewrite add_edge_eq in Hcall. discriminate.
  - destruct (add_edge (kg_alice, works_at)) as [[err|id] [kg' x']] eqn:Hcall.
    + rewrite add_edge_eq in Hcall. discriminate.
    + assert (id = VStr "r1") as ->.
      { rewrite add_edge_eq in Hcall. now injection Hcall as <- _ _. }
      now destruct (Hedge (VStr "r1") kg' x' (KStr "r1") eq_refl eq_refl).
  - destruct (add_node (kg_alice_edge, python_skill)) as [[err|id] [kg' x']] eqn:Hcall.
    + rewrite add_node_eq in Hcall. discriminate.
    + assert (id = VStr "e6") as ->.
      { rewrite add_node_eq in Hcall. now injection Hcall as <- _ _. }
      now destruct (Hnode (VStr "e6") kg' x' (KStr "e6") eq_refl eq_refl).
Defined.

End StoreBehaviour.

Section StoreInvariants.

Import KgBuilder.

Implicit Types (kg : KG) (e r x : pydict) (k : pykey).

Lemma is_Some_upsert (d : gmap pykey pydict) k k' x :
  is_Some (d !! k') -> is_Some (upsert d k x !! k').
Proof.
  intros H. destruct (decide (k = k')) as [->|Hne].
  - rewrite lookup_upsert. eauto.
  - now rewrite lookup_upsert_ne.
Qed.

Lemma add_edge_keeps_nodes kg x :
  nodes (store_after (add_edge (kg, x))) = nodes kg
  /\ _temp_node_ids (store_after (add_edge (kg, x))) = _temp_node_ids kg.
Proof.
  unfold store_after. rewrite add_edge_eq. cbn zeta.
  repeat match goal with
         | |- context [match ?c with _ => _ end] => destruct c
         end; split; reflexivity.
Qed.

(** X3. The session set never holds an id that is not a node: this is
    true of a new store and kept by [add_node], [add_edge] and
    [clear_session_tracking].  In such a store the test of [add_edge] on
    the session set adds nothing: an endpoint is accepted exactly when it
    is a node of the store. *)
Theorem session_set_is_redundant kg x :
  session_tracked kg ->
  (forall k, present kg k = contains (nodes kg) k)
  /\ session_tracked (clear_session_tracking kg)
  /\ session_tracked (store_after (add_node (kg, x)))
  /\ session_tracked (store_after (add_edge (kg, x)))
  /\ session_tracked __init__.
Proof.
  intros Hinv. split; [|split; [|split; [|split]]].
  - intros k. unfold present. destruct (contains (nodes kg) k) eqn:Hc; [reflexivity|].
    simpl. apply bool_decide_eq_false. intros Hin.
    apply Hinv, contains_spec in Hin. congruence.
  - intros k Hin. simpl in Hin. now apply not_elem_of_empty in Hin.
  - unfold store_after. rewrite add_node_eq. cbn zeta.
    destruct (hash_key (resolved_id "node_" (size (nodes kg)) x)) as [?|kn]; [exact Hinv|].
    intros k Hin. simpl in *. apply elem_of_union in Hin as [Hin|Hin].
    + apply elem_of_singleton in Hin as ->. rewrite lookup_upsert. eauto.
    + apply is_Some_upsert. now apply Hinv.
  - destruct (add_edge_keeps_nodes kg x) as [Hn Ht]. intros k. rewrite Hn, Ht. apply Hinv.
  - intros k Hin. now apply not_elem_of_empty in Hin.
Qed.

Lemma session_set_is_redundant_witness :
  (forall k, present kg_alice k = contains (nodes kg_alice) k)
  /\ session_tracked (store_after (add_node (kg_alice, python_skill))).
Proof.
  destruct (session_set_is_redundant kg_alice python_skill) as (Hpresent & _ & Hnode & _).
  - intros k Hin. now apply not_elem_of_empty in Hin.
  - split; assumption.
Defined.

Lemma upsert_ids_consistent (table : gmap pykey pydict) k x :
  wf_dict x ->
  hash_key (PyDict.get x "id") = inr k ->
  is_Some (PyDict.lookup "id" x) ->
  ids_consistent table -> ids_consistent (upsert table k x).
Proof.
  intros Hwf Hk [v Hv] Hinv k' record. destruct (decide (k = k')) as [<-|Hne].
  - rewrite lookup_upsert. intros [= <-].
    assert (PyDict.lookup "id" (match table !! k with
                                | Some old => PyDict.update old x
                                | None => PyDict.copy x
                                end) = Some v) as Hid.
    { destruct (table !! k); [|exact Hv]. rewrite lookup_update by assumption. now rewrite Hv. }
    unfold PyDict.get in *. now rewrite Hid, Hv in *.
  - rewrite lookup_upsert_ne by assumption. apply Hinv.
Qed.

(** X4. Every stored record holds under [id] the key it is stored under:
    this is true of the empty tables and kept, for the nodes, by [add_node]
    and, for the edges, by [add_edge], whatever the record submitted (a dict,
    so with distinct keys) and whether the call returns or raises. *)
Theorem stored_id_is_key kg x :
  wf_dict x ->
  ids_consistent (nodes kg) ->
  ids_consistent (edges kg) ->
  ids_consistent (nodes (store_after (add_node (kg, x))))
  /\ ids_consistent (edges (store_after (add_edge (kg, x))))
  /\ ids_consistent (nodes __init__) /\ ids_consistent (edges __init__).
Proof.
  intros Hwf Hnodes Hedges. split; [|split; [|split]].
  - unfold store_after. rewrite add_node_eq. cbn zeta.
    destruct (hash_key (resolved_id "node_" (size (nodes kg)) x)) as [?|kn] eqn:Hkn;
      [exact Hnodes|].
    simpl. apply upsert_ids_consistent; try assumption.
    + now apply wf_resolved_record.
    + unfold PyDict.get. now rewrite lookup_resolved_record.
    + rewrite lookup_resolved_record. eauto.
  - unfold store_after. rewrite add_edge_eq. cbn zeta.
    destruct (hash_key (PyDict.get x "source_entity_id")) as [?|ks]; [exact Hedges|].
    destruct (negb (present kg ks)); [exact Hedges|].
    destruct (hash_key (PyDict.get x "target_entity_id")) as [?|kt]; [exact Hedges|].
    destruct (negb (present kg kt)); [exact Hedges|].
    destruct (hash_key (resolved_id "edge_" (size (edges kg)) x)) as [?|ke] eqn:Hke;
      [exact Hedges|].
    simpl. apply upsert_ids_consistent; try assumption.
    + now apply wf_resolved_record.
    + unfold PyDict.get. now rewrite lookup_resolved_record.
    + rewrite lookup_resolved_record. eauto.
  - intros k record. simpl. now rewrite lookup_empty.
  - intros k record. simpl. now rewrite lookup_empty.
Qed.

Lemma stored_id_is_key_witness :
  ids_consistent (nodes (store_after (add_node (__init__, unnamed))))
  /\ ids_consistent (edges (store_after (add_edge (__init__, has_skill)))).
Proof.
  destruct (stored_id_is_key __init__ unnamed) as (Hn & _); [solve_wf_dict| | |].
  - intros k record. simpl. now rewrite lookup_empty.
  - intros k record. simpl. now rewrite lookup_empty.
  - destruct (stored_id_is_key __init__ has_skill) as (_ & He & _); [solve_wf_dict| | |].
    + intros k record. simpl. now rewrite lookup_empty.
    + intros k record. simpl. now rewrite lookup_empty.
    + split; assumption.
Defined.

End StoreInvariants.

(** * More of the batch build *)

Section BatchBehaviour.

Import KgBuilder.

Implicit Types (kg : KG) (e r x : pydict) (k : pykey) (ids : list value).

Lemma applied_deterministic (call : M (KG * pydict) value) kg xs ids1 kg1 :
  applied call kg xs ids1 kg1 ->
  forall ids2 kg2, applied call kg xs ids2 kg2 -> ids1 = ids2 /\ kg1 = kg2.
Proof.
  induction 1 as [kg|kg x xs id kg' x' ids kg'' Hcall _ IH|kg x xs err kg' x' ids kg'' Hcall _ IH];
    intros ids2 kg2 H2; inversion H2; subst; try (split; reflexivity);
    match goal with
    | Hc : call (kg, x) = _ |- _ => rewrite Hcall in Hc; try discriminate; injection Hc as <- <- <-
    | Hc : call (kg, x) = _ |- _ => rewrite Hcall in Hc; try discriminate; injection Hc as <- <-
    end.
  - match goal with Ha : applied call kg' xs _ _ |- _ => destruct (IH _ _ Ha) as [-> ->] end.
    split; reflexivity.
  - match goal with Ha : applied call kg' xs _ _ |- _ => destruct (IH _ _ Ha) as [-> ->] end.
    split; reflexivity.
Qed.

(** What the batch returns and leaves, from the two runs of [applied]. *)
Lemma build_or_update_graph_applied kg entities relationships ns kg1 es kg2 :
  applied add_node (clear_session_tracking kg) entities ns kg1 ->
  applied add_edge kg1 relationships es kg2 ->
  exists entities' relationships',
    build_or_update_graph (Some kg, (entities, relationships))
    = (inr {| added_nodes := ns; added_edges := es |}, (Some kg2, (entities', relationships'))).
Proof.
  intros Hn He.
  destruct (add_entities_to_graph_applied (clear_session_tracking kg) entities)
    as (ns' & kg1' & es' & Hes & Hnodes).
  destruct (applied_deterministic _ _ _ _ _ Hn _ _ Hnodes) as [<- <-].
  destruct (add_relationships_to_graph_applied kg1 relationships)
    as (eds' & kg2' & rs' & Hrs & Hedges).
  destruct (applied_deterministic _ _ _ _ _ He _ _ Hedges) as [<- <-].
  exists es', rs'.
  unfold build_or_update_graph, zoom, mbind, M_bind, gets, modify, mret, M_ret.
  cbn [fst snd]. rewrite Hes. cbn [fst snd]. rewrite Hrs. reflexivity.
Qed.

Lemma applied_exists (call : M (KG * pydict) value) xs : forall kg,
  exists ids kg', applied call kg xs ids kg'.
Proof.
  induction xs as [|x xs IH]; intros kg.
  - exists [], kg. constructor.
  - destruct (call (kg, x)) as [[err|id] [kg1 x1]] eqn:Hcall;
      destruct (IH kg1) as (ids & kg' & Happ).
    + exists ids, kg'. eapply applied_skip; eassumption.
    + exists (id :: ids), kg'. eapply applied_ok; eassumption.
Qed.

(** Entities that all carry an id are all added. *)
Lemma applied_add_node_all entities : forall eks kg,
  Forall2 carries_id entities eks ->
  exists kg',
    applied add_node kg entities (ids_of entities) kg'
    /\ forall k, is_Some (nodes kg' !! k) <-> k ∈ eks \/ is_Some (nodes kg !! k).
Proof.
  induction entities as [|e entities IH]; intros eks kg Hall.
  - inversion Hall; subst. exists kg. split; [constructor|].
    intros k. split; [auto|]. intros [Hin|H]; [now apply elem_of_nil in Hin|exact H].
  - inversion Hall as [|? ek ? eks' [Hid Hk] Hrest]; subst.
    assert (add_node (kg, e)
            = (inr (PyDict.get e "id"),
               ({| nodes := upsert (nodes kg) ek e; edges := edges kg;
                   _temp_node_ids := {[ek]} ∪ _temp_node_ids kg |}, e))) as Hcall.
    { rewrite add_node_eq. cbn zeta.
      destruct (resolved_id_truthy "node_" (size (nodes kg)) e Hid) as [-> ->].
      now rewrite Hk. }
    destruct (IH eks' {| nodes := upsert (nodes kg) ek e; edges := edges kg;
                         _temp_node_ids := {[ek]} ∪ _temp_node_ids kg |} Hrest)
      as (kg' & Happ & Hdom).
    exists kg'. split.
    + simpl. eapply applied_ok; eassumption.
    + intros k. rewrite Hdom. simpl. rewrite elem_of_cons.
      destruct (decide (ek = k)) as [->|Hne].
      * rewrite lookup_upsert. split; eauto.
      * rewrite lookup_upsert_ne by assumption. split; intros [?|?]; auto.
        destruct H as [->|?]; [contradiction|auto].
Qed.

(** Relationships that carry an id and whose endpoints are nodes are all
    added, and the nodes stay as they are. *)
Lemma applied_add_edge_all relationships : forall kg,
  Forall (applicable (dom (nodes kg))) relationships ->
  exists kg', applied add_edge kg relationships (ids_of relationships) kg'.
Proof.
  induction relationships as [|r relationships IH]; intros kg Hall.
  - exists kg. constructor.
  - inversion Hall as [|? ? (ke & ks & kt & [Hid Hke] & [(vs & Hvs & Hks) (vt & Hvt & Hkt)]
                              & Hins & Hint) Hrest]; subst.
    assert (forall k0, k0 ∈ dom (nodes kg) -> present kg k0 = true) as Hpres.
    { intros k0 Hin. unfold present. apply orb_true_iff. left.
      apply contains_spec. now apply elem_of_dom. }
    assert (add_edge (kg, r)
            = (inr (PyDict.get r "id"),
               ({| nodes := nodes kg; edges := upsert (edges kg) ke r;
                   _temp_node_ids := _temp_node_ids kg |}, r))) as Hcall.
    { rewrite add_edge_eq. cbn zeta.
      destruct (resolved_id_truthy "edge_" (size (edges kg)) r Hid) as [-> ->].
      unfold PyDict.get at 1. rewrite Hvs, Hks, (Hpres ks Hins). simpl.
      unfold PyDict.get at 1. rewrite Hvt, Hkt, (Hpres kt Hint). simpl.
      now rewrite Hke. }
    destruct (IH {| nodes := nodes kg; edges := upsert (edges kg) ke r;
                    _temp_node_ids := _temp_node_ids kg |} Hrest) as (kg' & Happ).
    exists kg'. simpl. eapply applied_ok; eassumption.
Qed.

(** X5. A batch in which every entity carries an id and every relationship
    carries an id and two endpoints that are entities of the batch or nodes
    already in the store is applied in full: [build_or_update_graph] returns
    the ids of all the entities and of all the relationships, in order. *)
Theorem complete_batch_is_applied_in_full kg entities eks relationships :
  Forall2 carries_id entities eks ->
  Forall (applicable (list_to_set eks ∪ dom (nodes kg))) relationships ->
  fst (build_or_update_graph (Some kg, (entities, relationships)))
  = inr {| added_nodes := ids_of entities; added_edges := ids_of relationships |}.
Proof.
  intros Hes Hrs.
  destruct (applied_add_node_all entities eks (clear_session_tracking kg) Hes)
    as (kg1 & Hnodes & Hdom).
  assert (Forall (applicable (dom (nodes kg1))) relationships) as Hrs1.
  { eapply Forall_impl; [exact Hrs|].
    intros r (ke & ks & kt & Hid & Hends & Hins & Hint).
    assert (forall k0, k0 ∈ list_to_set eks ∪ dom (nodes kg) -> k0 ∈ dom (nodes kg1)) as Hsub.
    { intros k0 Hin. apply elem_of_dom, Hdom. apply elem_of_union in Hin as [Hin|Hin].
      - left. now apply elem_of_list_to_set in Hin.
      - right. now apply elem_of_dom in Hin. }
    exists ke, ks, kt. auto. }
  destruct (applied_add_edge_all relationships kg1 Hrs1) as (kg2 & Hedges).
  destruct (build_or_update_graph_applied kg entities relationships _ _ _ _ Hnodes Hedges)
    as (es' & rs' & ->).
  reflexivity.
Qed.

Lemma complete_batch_is_applied_in_full_witness :
  fst (build_or_update_graph
         (Some kg_alice, ([python_skill; python_skill_2], [has_skill; has_skill_2])))
  = inr {| added_nodes := [VStr "e6"; VStr "e7"]; added_edges := [VStr "r5"; VStr "r6"] |}.
Proof.
  apply (complete_batch_is_applied_in_full kg_alice [python_skill; python_skill_2]
           [KStr "e6"; KStr "e7"] [has_skill; has_skill_2]).
  - repeat constructor.
  - repeat constructor.
    + exists (KStr "r5"), (KStr "e1"), (KStr "e6").
      split; [split; reflexivity|]. split; [split; eexists; split; reflexivity|].
      split; [|set_solver].
      apply elem_of_union. right. apply elem_of_dom. exists alice. reflexivity.
    + exists (KStr "r6"), (KStr "e1"), (KStr "e7").
      split; [split; reflexivity|]. split; [split; eexists; split; reflexivity|].
      split; [|set_solver].
      apply elem_of_union. right. apply elem_of_dom. exists alice. reflexivity.
Defined.

End BatchBehaviour.

Section BatchBounds.

Import KgBuilder.

Local Open Scope nat_scope.

Implicit Types (kg : KG) (e r x : pydict) (k : pykey) (ids : list value).

Lemma size_upsert_le (d : gmap pykey pydict) k x : size (upsert d k x) <= S (size d).
Proof. rewrite size_upsert. destruct (contains d k); lia. Qed.

Lemma add_node_step kg x (outcome : exn + value) kg1 x1 :
  add_node (kg, x) = (outcome, (kg1, x1)) ->
  edges kg1 = edges kg
  /\ (forall k, is_Some (nodes kg !! k) -> is_Some (nodes kg1 !! k))
  /\ size (nodes kg1) <= S (size (nodes kg))
  /\ match outcome with
     | inr id => exists k, hash_key id = inr k
                           /\ _temp_node_ids kg1 = {[k]} ∪ _temp_node_ids kg
     | inl _ => _temp_node_ids kg1 = _temp_node_ids kg
     end.
Proof.
  rewrite add_node_eq. cbn zeta.
  destruct (hash_key (resolved_id "node_" (size (nodes kg)) x)) as [?|kn] eqn:Hkn;
    intros [= <- <- <-]; simpl.
  - split; [reflexivity|]. split; [auto|]. split; [lia|reflexivity].
  - split; [reflexivity|]. split; [intros k; apply is_Some_upsert|].
    split; [apply size_upsert_le|]. exists kn. split; [assumption|reflexivity].
Qed.

Lemma add_edge_step kg x (outcome : exn + value) kg1 x1 :
  add_edge (kg, x) = (outcome, (kg1, x1)) ->
  nodes kg1 = nodes kg /\ _temp_node_ids kg1 = _temp_node_ids kg
  /\ (forall k, is_Some (edges kg !! k) -> is_Some (edges kg1 !! k))
  /\ size (edges kg1) <= S (size (edges kg)).
Proof.
  rewrite add_edge_eq. cbn zeta.
  repeat match goal with
         | |- context [match ?c with _ => _ end] => destruct c
         end; intros [= <- <- <-]; simpl;
    (split; [reflexivity|]); (split; [reflexivity|]);
    (split; [first [intros k; apply is_Some_upsert|auto]|]);
    first [apply size_upsert_le|lia].
Qed.

Lemma applied_add_node_grows kg xs ids kg' :
  applied add_node kg xs ids kg' ->
  edges kg' = edges kg
  /\ (forall k, is_Some (nodes kg !! k) -> is_Some (nodes kg' !! k))
  /\ size (nodes kg') <= size (nodes kg) + length xs
  /\ length ids <= length xs
  /\ (forall k, k ∈ _temp_node_ids kg'
                <-> k ∈ _temp_node_ids kg \/ exists id, id ∈ ids /\ hash_key id = inr k).
Proof.
  induction 1 as [kg|kg x xs id kg1 x1 ids kg' Hcall _ IH|kg x xs err kg1 x1 ids kg' Hcall _ IH].
  - split; [reflexivity|]. split; [auto|]. split; [lia|]. split; [simpl; lia|].
    intros k. split; [auto|]. intros [H|(id & Hin & _)]; [exact H|].
    now apply elem_of_nil in Hin.
  - destruct (add_node_step _ _ _ _ _ Hcall) as (He & Hn & Hs & (kn & Hkn & Ht)).
    destruct IH as (He' & Hn' & Hs' & Hl' & Ht').
    split; [congruence|]. split; [auto|]. split; [simpl; lia|]. split; [simpl; lia|].
    intros k. rewrite Ht', Ht, elem_of_union, elem_of_singleton. split.
    + intros [[->|Hin]|(id' & Hin & Hk)].
      * right. exists id. split; [left|assumption].
      * now left.
      * right. exists id'. split; [now right|assumption].
    + intros [Hin|(id' & Hin & Hk)]; [auto|].
      apply elem_of_cons in Hin as [->|Hin].
      * left. left. congruence.
      * right. eauto.
  - destruct (add_node_step _ _ _ _ _ Hcall) as (He & Hn & Hs & Ht).
    destruct IH as (He' & Hn' & Hs' & Hl' & Ht').
    split; [congruence|]. split; [auto|]. split; [simpl; lia|]. split; [simpl; lia|].
    intros k. rewrite Ht', Ht. reflexivity.
Qed.

Lemma applied_add_edge_grows kg xs ids kg' :
  applied add_edge kg xs ids kg' ->
  nodes kg' = nodes kg /\ _temp_node_ids kg' = _temp_node_ids kg
  /\ (forall k, is_Some (edges kg !! k) -> is_Some (edges kg' !! k))
  /\ size (edges kg') <= size (edges kg) + length xs
  /\ length ids <= length xs.
Proof.
  induction 1 as [kg|kg x xs id kg1 x1 ids kg' Hcall _ IH|kg x xs err kg1 x1 ids kg' Hcall _ IH].
  - split; [reflexivity|]. split; [reflexivity|]. split; [auto|]. split; simpl; lia.
  - destruct (add_edge_step _ _ _ _ _ Hcall) as (Hn & Ht & He & Hs).
    destruct IH as (Hn' & Ht' & He' & Hs' & Hl').
    split; [congruence|]. split; [congruence|]. split; [auto|]. split; simpl; lia.
  - destruct (add_edge_step _ _ _ _ _ Hcall) as (Hn & Ht & He & Hs).
    destruct IH as (Hn' & Ht' & He' & Hs' & Hl').
    split; [congruence|]. split; [congruence|]. split; [auto|]. split; simpl; lia.
Qed.

(** X6. A batch deletes nothing and adds at most one record per item:
    after [build_or_update_graph] every node and every edge that was in the
    store is still there, the node count has grown by at most the number of
    entities and the edge count by at most the number of relationships, and
    the lists returned are no longer than the lists submitted. *)
Theorem batch_never_deletes kg entities relationships :
  exists result kg2 lists,
    build_or_update_graph (Some kg, (entities, relationships)) = (inr result, (Some kg2, lists))
    /\ (forall k, is_Some (nodes kg !! k) -> is_Some (nodes kg2 !! k))
    /\ (forall k, is_Some (edges kg !! k) -> is_Some (edges kg2 !! k))
    /\ size (nodes kg2) <= size (nodes kg) + length entities
    /\ size (edges kg2) <= size (edges kg) + length relationships
    /\ length (added_nodes result) <= length entities
    /\ length (added_edges result) <= length relationships.
Proof.
  destruct (applied_exists add_node entities (clear_session_tracking kg)) as (ns & kg1 & Hn).
  destruct (applied_exists add_edge relationships kg1) as (es & kg2 & He).
  destruct (build_or_update_graph_applied kg entities relationships _ _ _ _ Hn He)
    as (es' & rs' & Hrun).
  destruct (applied_add_node_grows _ _ _ _ Hn) as (He1 & Hn1 & Hs1 & Hl1 & _).
  destruct (applied_add_edge_grows _ _ _ _ He) as (Hn2 & _ & He2 & Hs2 & Hl2).
  exists {| added_nodes := ns; added_edges := es |}, kg2, (es', rs').
  split; [exact Hrun|]. simpl in *.
  split; [intros k Hk; rewrite Hn2; auto|].
  split; [intros k Hk; apply He2; rewrite He1; exact Hk|].
  split; [rewrite Hn2; exact Hs1|].
  split; [rewrite <- He1; exact Hs2|]. split; assumption.
Qed.

(** X7. After a batch the session set holds exactly the ids of the nodes
    the batch added, whatever it held before: an endpoint that only an
    earlier session had touched is no longer in it. *)
Theorem session_set_after_batch kg entities relationships :
  exists result kg2 lists,
    build_or_update_graph (Some kg, (entities, relationships)) = (inr result, (Some kg2, lists))
    /\ forall k, k ∈ _temp_node_ids kg2
                 <-> exists id, id ∈ added_nodes result /\ hash_key id = inr k.
Proof.
  destruct (applied_exists add_node entities (clear_session_tracking kg)) as (ns & kg1 & Hn).
  destruct (applied_exists add_edge relationships kg1) as (es & kg2 & He).
  destruct (build_or_update_graph_applied kg entities relationships _ _ _ _ Hn He)
    as (es' & rs' & Hrun).
  destruct (applied_add_node_grows _ _ _ _ Hn) as (_ & _ & _ & _ & Ht1).
  destruct (applied_add_edge_grows _ _ _ _ He) as (_ & Ht2 & _).
  exists {| added_nodes := ns; added_edges := es |}, kg2, (es', rs').
  split; [exact Hrun|]. intros k. rewrite Ht2, Ht1. simpl. split.
  - intros [Hin|H]; [now apply not_elem_of_empty in Hin|exact H].
  - auto.
Qed.

End BatchBounds.

(** * More of the embedding pipeline *)

Section PipelineBehaviour.

Import EmbeddingStore.

Local Open Scope nat_scope.

Context {vector EState VState : Type}.
Variable embed_batch : list string -> M EState (list vector).
Variable add_items : list (item vector) -> M VState unit.

Implicit Types (l : locals (vector:=vector)) (c : EState * VState).

Lemma grown_by_refl count other n l : grown_by count other n l l.
Proof. unfold grown_by. repeat split; lia. Qed.

Lemma grown_by_trans count other n m l1 l2 l3 :
  grown_by count other n l1 l2 -> grown_by count other m l2 l3 ->
  grown_by count other (n + m) l1 l3.
Proof.
  unfold grown_by. intros ([? ?] & ? & ?) ([? ?] & ? & ?). repeat split; lia || congruence.
Qed.

Lemma grown_by_le count other n m l1 l2 :
  n <= m -> grown_by count other n l1 l2 -> grown_by count other m l1 l2.
Proof. unfold grown_by. intros ? ([? ?] & ? & ?). repeat split; lia || assumption. Qed.

Lemma append_entity_item_any (x : pydict * string * vector) c l :
  exists outcome l',
    append_entity_item x (c, l) = (outcome, (c, l'))
    /\ grown_by entities_processed_count relationships_processed_count 1 l l'.
Proof.
  destruct x as [[e t] v].
  unfold append_entity_item, mbind, M_bind, lift, on_locals, modify, getitem.
  destruct (PyDict.lookup "id" e) as [id|]; do 2 eexists; (split; [reflexivity|]).
  - unfold grown_by. simpl. rewrite length_app. simpl. repeat split; lia.
  - apply grown_by_refl.
Qed.

Lemma append_relationship_item_any (x : pydict * string * vector) c l :
  exists outcome l',
    append_relationship_item x (c, l) = (outcome, (c, l'))
    /\ grown_by relationships_processed_count entities_processed_count 1 l l'.
Proof.
  destruct x as [[e t] v].
  unfold append_relationship_item, mbind, M_bind, lift, on_locals, modify, getitem.
  destruct (PyDict.lookup "id" e) as [id|]; do 2 eexists; (split; [reflexivity|]).
  - unfold grown_by. simpl. rewrite length_app. simpl. repeat split; lia.
  - apply grown_by_refl.
Qed.

Lemma for_in_grown (body : pydict * string * vector -> M (EState * VState * locals) unit)
    count other :
  (forall x c l, exists outcome l',
      body x (c, l) = (outcome, (c, l')) /\ grown_by count other 1 l l') ->
  forall xs c l, exists outcome l',
    for_in xs body (c, l) = (outcome, (c, l')) /\ grown_by count other (length xs) l l'.
Proof.
  intros Hbody xs. induction xs as [|x xs IH]; intros c l.
  - exists (inr ()), l. split; [reflexivity|apply grown_by_refl].
  - rewrite for_in_cons. destruct (Hbody x c l) as (outcome & l1 & -> & Hg1).
    destruct outcome as [err|[]].
    + exists (inl err), l1. split; [reflexivity|].
      eapply grown_by_le; [|exact Hg1]. simpl. lia.
    + destruct (IH c l1) as (outcome & l' & -> & Hg). exists outcome, l'.
      split; [reflexivity|]. exact (grown_by_trans _ _ 1 _ _ _ _ Hg1 Hg).
Qed.

Lemma zip3_length_le {A B C} (xs : list A) (ys : list B) (zs : list C) :
  length (zip3 xs ys zs) <= length xs.
Proof.
  revert ys zs. induction xs as [|x xs IH]; intros [|y ys] [|z zs]; simpl; try lia.
  specialize (IH ys zs). lia.
Qed.

(** The entities never make the pipeline raise. *)
Lemma process_entities_any (es : list pydict) (model : EState) (db : VState) l :
  exists model' l',
    process_entities embed_batch es ((model, db), l) = (inr (), ((model', db), l'))
    /\ grown_by entities_processed_count relationships_processed_count (length es) l l'
    /\ ((exists err, fst (embed_batch (map _create_entity_description es) model) = inl err) ->
        l' = l).
Proof.
  unfold process_entities, try_except, on_model, zoom, mbind, M_bind. cbn [fst snd].
  destruct (embed_batch (map _create_entity_description es) model) as [[err|vs] model'].
  - exists model', l. split; [reflexivity|]. split; [apply grown_by_refl|reflexivity].
  - destruct (for_in_grown append_entity_item _ _ append_entity_item_any
                (zip3 es (map _create_entity_description es) vs) (model', db) l)
      as (outcome & l' & Hloop & Hg).
    exists model', l'. cbn [fst snd]. rewrite Hloop.
    split; [now destruct outcome as [?|[]]|]. split.
    + eapply grown_by_le; [|exact Hg]. apply zip3_length_le.
    + intros [err Herr]. discriminate.
Qed.

(** The relationships make it raise only while their descriptions are
    built, and then nothing has changed. *)
Lemma process_relationships_any (rs : list pydict) map_arg (model : EState) (db : VState) l :
  let texts := map_exn (fun r => _create_relationship_description r
                                   (match map_arg with Some m => m | None => ∅ end)) rs in
  match texts with
  | inl err =>
      process_relationships embed_batch rs map_arg ((model, db), l) = (inl err, ((model, db), l))
  | inr ts =>
      exists model' l',
        process_relationships embed_batch rs map_arg ((model, db), l)
        = (inr (), ((model', db), l'))
        /\ grown_by relationships_processed_count entities_processed_count (length rs) l l'
        /\ ((exists err, fst (embed_batch ts model) = inl err) -> l' = l)
  end.
Proof.
  unfold process_relationships, try_except, on_model, zoom, mbind, M_bind, lift. cbn [fst snd].
  cbn zeta.
  destruct (map_exn _ rs) as [err|ts]; [reflexivity|].
  destruct (embed_batch ts model) as [[err|vs] model'].
  - exists model', l. split; [reflexivity|]. split; [apply grown_by_refl|reflexivity].
  - destruct (for_in_grown append_relationship_item _ _ append_relationship_item_any
                (zip3 rs ts vs) (model', db) l) as (outcome & l' & Hloop & Hg).
    exists model', l'. cbn [fst snd]. rewrite Hloop.
    split; [now destruct outcome as [?|[]]|]. split.
    + eapply grown_by_le; [|exact Hg]. apply zip3_length_le.
    + intros [err Herr]. discriminate.
Qed.

End PipelineBehaviour.

Section PipelineOutcomes.

Import EmbeddingStore.

Local Open Scope nat_scope.

Context {vector EState VState : Type}.
Variable embed_batch : list string -> M EState (list vector).
Variable add_items : list (item vector) -> M VState unit.

Implicit Types (l : locals (vector:=vector)) (c : EState * VState).

(** Every run of [store_embeddings] with both clients: the entities are
    processed without raising; if a description of a relationship raises, so
    does the run, before any upsert; otherwise the run returns the two
    counters, and the vector store is called only if there are items. *)
Lemma store_embeddings_runs entities relationships entities_map (model : EState) (db : VState) :
  match relationship_texts relationships entities_map with
  | inl err =>
      exists model',
        store_embeddings embed_batch add_items entities relationships entities_map
          (Some model, Some db) = (inl err, (Some model', Some db))
  | inr _ =>
      exists model' db' l1 l2,
        store_embeddings embed_batch add_items entities relationships entities_map
          (Some model, Some db)
        = (inr {| entities_processed := entities_processed_count l2;
                  relationships_processed := relationships_processed_count l2 |},
           (Some model', Some db'))
        /\ grown_by entities_processed_count relationships_processed_count
             (length_of entities)
             {| items_to_add_to_db := []; entities_processed_count := 0;
                relationships_processed_count := 0 |} l1
        /\ grown_by relationships_processed_count entities_processed_count
             (length_of relationships) l1 l2
        /\ (items_to_add_to_db l2 = [] -> db' = db)
        /\ (embedding_fails embed_batch -> items_to_add_to_db l2 = [])
  end.
Proof.
  set (l0 := {| items_to_add_to_db := @nil (item vector); entities_processed_count := 0;
                relationships_processed_count := 0 |}).
  assert (exists model1 l1,
             match entities with
             | Some (e :: es) => process_entities embed_batch (e :: es)
             | _ => mret ()
             end ((model, db), l0) = (inr (), ((model1, db), l1))
             /\ grown_by entities_processed_count relationships_processed_count
                  (length_of entities) l0 l1
             /\ (embedding_fails embed_batch -> l1 = l0))
    as (model1 & l1 & H1 & Hg1 & Hf1).
  { destruct entities as [[|e es]|].
    - exists model, l0. split; [reflexivity|]. split; [apply grown_by_refl|reflexivity].
    - destruct (process_entities_any embed_batch (e :: es) model db l0)
        as (model1 & l1 & H1 & Hg1 & Hf1).
      exists model1, l1. split; [exact H1|]. split; [exact Hg1|].
      intros Hfail. apply Hf1.
      destruct (Hfail (map _create_entity_description (e :: es)) model) as (err & m' & ->).
      now exists err.
    - exists model, l0. split; [reflexivity|]. split; [apply grown_by_refl|reflexivity]. }
  unfold relationship_texts.
  destruct relationships as [[|r rs]|].
  - unfold store_embeddings, store_embeddings_body. fold l0.
    unfold mbind, M_bind at 1. rewrite H1.
    unfold M_bind, gets, mret, M_ret, try_except, on_store, zoom. cbn [fst snd].
    exists model1.
    destruct (items_to_add_to_db l1) as [|i items] eqn:Hitems.
    + exists db, l1, l1. split; [reflexivity|]. split; [exact Hg1|].
      split; [apply grown_by_refl|]. split; [reflexivity|]. intros _. exact Hitems.
    + cbn [fst snd]. destruct (add_items (i :: items) db) as [[err|[]] db'] eqn:Hadd;
        exists db', l1, l1; cbn [fst snd]; (split; [reflexivity|]); (split; [exact Hg1|]);
        (split; [apply grown_by_refl|]); (split; [rewrite Hitems; discriminate|]);
        intros Hfail; rewrite (Hf1 Hfail) in Hitems; discriminate.
  - pose proof (process_relationships_any embed_batch (r :: rs) entities_map model1 db l1)
      as Hrel. cbn zeta in Hrel.
    destruct (map_exn _ (r :: rs)) as [err|ts] eqn:Htexts.
    + exists model1. unfold store_embeddings, store_embeddings_body. fold l0.
      unfold mbind, M_bind at 1. rewrite H1. unfold M_bind at 1. rewrite Hrel. reflexivity.
    + destruct Hrel as (model2 & l2 & Hrel & Hg2 & Hf2).
      unfold store_embeddings, store_embeddings_body. fold l0.
      unfold mbind, M_bind at 1. rewrite H1. unfold M_bind at 1. rewrite Hrel.
      unfold M_bind, gets, mret, M_ret, try_except, on_store, zoom. cbn [fst snd].
      exists model2.
      assert (embedding_fails embed_batch -> items_to_add_to_db l2 = []) as Hnone.
      { intros Hfail. rewrite Hf2, (Hf1 Hfail); [reflexivity|].
        destruct (Hfail ts model1) as (err & m' & ->). now exists err. }
      destruct (items_to_add_to_db l2) as [|i items] eqn:Hitems.
      * exists db, l1, l2. split; [reflexivity|]. split; [exact Hg1|].
        split; [exact Hg2|]. split; [reflexivity|]. intros _. exact Hitems.
      * cbn [fst snd]. destruct (add_items (i :: items) db) as [[err|[]] db'] eqn:Hadd;
          exists db', l1, l2; cbn [fst snd]; (split; [reflexivity|]); (split; [exact Hg1|]);
          (split; [exact Hg2|]); (split; [rewrite Hitems; discriminate|]);
          intros Hfail; specialize (Hnone Hfail); discriminate.
  - unfold store_embeddings, store_embeddings_body. fold l0.
    unfold mbind, M_bind at 1. rewrite H1.
    unfold M_bind, gets, mret, M_ret, try_except, on_store, zoom. cbn [fst snd].
    exists model1.
    destruct (items_to_add_to_db l1) as [|i items] eqn:Hitems.
    + exists db, l1, l1. split; [reflexivity|]. split; [exact Hg1|].
      split; [apply grown_by_refl|]. split; [reflexivity|]. intros _. exact Hitems.
    + cbn [fst snd]. destruct (add_items (i :: items) db) as [[err|[]] db'] eqn:Hadd;
        exists db', l1, l1; cbn [fst snd]; (split; [reflexivity|]); (split; [exact Hg1|]);
        (split; [apply grown_by_refl|]); (split; [rewrite Hitems; discriminate|]);
        intros Hfail; rewrite (Hf1 Hfail) in Hitems; discriminate.
Qed.

End PipelineOutcomes.

Section PipelineExtras.

Import EmbeddingStore.

Local Open Scope nat_scope.

Context {vector EState VState : Type}.
Variable embed_batch : list string -> M EState (list vector).
Variable add_items : list (item vector) -> M VState unit.

(** X8. The counts that [store_embeddings] returns never exceed the
    numbers of entities and of relationships it was given, whatever the
    embedding model and the vector store do (return, raise, or return too
    few or too many vectors) and whether or not the clients are there. *)
Theorem processed_counts_are_bounded
    (entities relationships : option (list pydict)) entities_map
    (clients : option EState * option VState) :
  match fst (store_embeddings embed_batch add_items entities relationships entities_map
               clients) with
  | inr result =>
      entities_processed result <= length_of entities
      /\ relationships_processed result <= length_of relationships
  | inl _ => True
  end.
Proof.
  destruct clients as [[model|] [db|]]; try (simpl; split; lia).
  pose proof (store_embeddings_runs embed_batch add_items entities relationships
                entities_map model db) as Hrun.
  destruct (relationship_texts relationships entities_map).
  - destruct Hrun as (model' & ->). exact I.
  - destruct Hrun as (model' & db' & l1 & l2 & -> & ([_ He] & Hr & _) & ([_ Hr2] & He2 & _) & _).
    simpl in *. split; lia.
Qed.

(** X9. The vector store is called only when there is something to
    store: when [store_embeddings] raises, or returns with both counts at
    zero, the vector store is exactly as it was, whatever its [add_items]
    would have done. *)
Theorem vector_store_called_only_with_items
    (entities relationships : option (list pydict)) entities_map
    (model : option EState) (db : VState) :
  match store_embeddings embed_batch add_items entities relationships entities_map
          (model, Some db) with
  | (inr result, clients') =>
      entities_processed result = 0 -> relationships_processed result = 0 ->
      snd clients' = Some db
  | (inl _, clients') => snd clients' = Some db
  end.
Proof.
  destruct model as [model|]; [|simpl; auto].
  pose proof (store_embeddings_runs embed_batch add_items entities relationships
                entities_map model db) as Hrun.
  destruct (relationship_texts relationships entities_map).
  - destruct Hrun as (model' & ->). reflexivity.
  - destruct Hrun as (model' & db' & l1 & l2 & -> & (_ & _ & Hi1) & ([Hle _] & He2 & Hi2) & Hdb & _).
    simpl in *. intros He Hr. rewrite Hdb; [reflexivity|].
    apply length_zero_iff_nil. lia.
Qed.

(** X10. When every call of the embedding model raises, the exceptions
    are caught and [store_embeddings] returns zero for both counts. *)
Theorem embedding_failure_gives_zero_counts
    (entities relationships : option (list pydict)) entities_map
    (clients : option EState * option VState) :
  embedding_fails embed_batch ->
  match fst (store_embeddings embed_batch add_items entities relationships entities_map
               clients) with
  | inr result => result = no_counts
  | inl _ => True
  end.
Proof.
  intros Hfail. destruct clients as [[model|] [db|]]; try reflexivity.
  pose proof (store_embeddings_runs embed_batch add_items entities relationships
                entities_map model db) as Hrun.
  destruct (relationship_texts relationships entities_map).
  - destruct Hrun as (model' & ->). exact I.
  - destruct Hrun
      as (model' & db' & l1 & l2 & -> & ([_ _] & Hr1 & Hi1) & ([Hle _] & He2 & Hi2) & _ & Hnone).
    specialize (Hnone Hfail). rewrite Hnone in Hi2. simpl in *.
    unfold no_counts. f_equal; lia.
Qed.

Lemma lacking_endpoint_raises r m :
  lacks_endpoint r -> exists err, _create_relationship_description r m = inl err.
Proof.
  unfold _create_relationship_description, getitem, mbind, exn_bind.
  intros [Hs|Ht].
  - rewrite Hs. eauto.
  - rewrite Ht. destruct (PyDict.lookup "source_entity_id" r) as [v|]; [|eauto].
    destruct (hash_key v); eauto.
Qed.

Lemma map_exn_raises {A B} (f : A -> exn + B) (xs : list A) :
  Exists (fun x => exists err, f x = inl err) xs -> exists err, map_exn f xs = inl err.
Proof.
  induction 1 as [x xs [err Hx]|x xs _ [err IH]]; simpl; unfold mbind, exn_bind.
  - rewrite Hx. eauto.
  - destruct (f x); [eauto|]. rewrite IH. eauto.
Qed.

(** X11. The descriptions of the relationships are built outside the
    [try] blocks: a record among the relationships that lacks an endpoint
    key makes [store_embeddings] itself raise, after the entities were
    embedded and before anything is sent to the vector store. *)
Theorem malformed_relationship_escapes
    (entities : option (list pydict)) (relationships : list pydict) entities_map
    (model : EState) (db : VState) :
  Exists lacks_endpoint relationships ->
  exists err model',
    store_embeddings embed_batch add_items entities (Some relationships) entities_map
      (Some model, Some db) = (inl err, (Some model', Some db)).
Proof.
  intros Hbad.
  pose proof (store_embeddings_runs embed_batch add_items entities (Some relationships)
                entities_map model db) as Hrun.
  assert (exists err, relationship_texts (Some relationships) entities_map = inl err)
    as [err Herr].
  { destruct relationships as [|r rs]; [now apply Exists_nil in Hbad|].
    unfold relationship_texts. apply map_exn_raises.
    eapply Exists_impl; [exact Hbad|]. intros r0. apply lacking_endpoint_raises. }
  rewrite Herr in Hrun. destruct Hrun as (model' & Hrun). eauto.
Qed.

End PipelineExtras.

Lemma embedding_failure_gives_zero_counts_witness :
  fst (EmbeddingStore.store_embeddings failing_model counting_store
         (Some [alice; python_skill]) (Some [has_skill]) None (Some (), Some 0%nat))
  = inr no_counts.
Proof.
  pose proof (embedding_failure_gives_zero_counts failing_model counting_store
                (Some [alice; python_skill]) (Some [has_skill]) None (Some (), Some 0%nat))
    as H.
  destruct (fst (EmbeddingStore.store_embeddings failing_model counting_store
                   (Some [alice; python_skill]) (Some [has_skill]) None
                   (Some (), Some 0%nat))) as [err|result] eqn:Hrun.
  - discriminate.
  - rewrite H; [reflexivity|]. intros texts model. do 2 eexists. reflexivity.
Defined.

Lemma malformed_relationship_escapes_witness :
  exists err model',
    EmbeddingStore.store_embeddings constant_model counting_store
      (Some [alice]) (Some [has_skill; no_source]) None (Some (), Some 0%nat)
    = (inl err, (Some model', Some 0%nat)).
Proof.
  apply (malformed_relationship_escapes constant_model counting_store).
  apply Exists_cons_tl, Exists_cons_hd. left. reflexivity.
Defined.

(** ** The vector store *)

Section VectorStore.

Import EmbeddingStore MockVectorDBClient.

Local Open Scope nat_scope.

Context {F : Type}.

Implicit Types (db : gmap string (stored F)) (it : item (list F)).

Lemma add_items_cons it items db :
  add_items (it :: items) db
  = if accepted it then add_items items (<[item_id it := as_stored it]> db)
    else add_items items db.
Proof.
  unfold add_items at 1. cbn [for_in]. unfold mbind, M_bind, accepted, add_item, as_stored.
  destruct it as [id text v md]. cbn [item_id text_description item_vector metadata truthy].
  destruct (String.eqb id ""); [reflexivity|].
  destruct (String.eqb text ""); [reflexivity|].
  destruct v as [|x v]; [reflexivity|].
  destruct md; reflexivity.
Qed.

Lemma last_cons_filter {A} (x : A) (l : list A) :
  last (x :: l) = match last l with Some y => Some y | None => Some x end.
Proof. destruct l as [|y l]; [reflexivity|]. rewrite last_cons. now destruct (last (y :: l)). Qed.

Lemma add_items_spec items : forall db,
  exists db',
    add_items items db = (inr (), db')
    /\ (forall id, get_item id db'
                   = match last_accepted id items with
                     | Some it => Some (as_stored it)
                     | None => get_item id db
                     end)
    /\ (size db <= size db' /\ size db' <= size db + length (List.filter accepted items)).
Proof.
  induction items as [|it items IH]; intros db.
  - exists db. split; [reflexivity|]. split; [reflexivity|simpl; lia].
  - rewrite add_items_cons. destruct (accepted it) eqn:Hacc.
    + destruct (IH (<[item_id it := as_stored it]> db)) as (db' & Hrun & Hget & Hsize).
      exists db'. split; [exact Hrun|]. split.
      * intros id. rewrite Hget. unfold last_accepted. cbn [List.filter]. rewrite Hacc.
        cbn [andb]. unfold get_item.
        destruct (String.eqb_spec (item_id it) id) as [<-|Hne].
        -- rewrite last_cons_filter.
           destruct (last _); [reflexivity|]. now rewrite lookup_insert_eq.
        -- destruct (last _); [reflexivity|]. now rewrite lookup_insert_ne.
      * cbn [List.filter]. rewrite Hacc. cbn [length].
        pose proof (map_size_insert (item_id it) (as_stored it) db) as Hins.
        destruct (db !! item_id it); unfold id in Hins; lia.
    + destruct (IH db) as (db' & Hrun & Hget & Hsize).
      exists db'. split; [exact Hrun|]. split.
      * intros id. rewrite Hget. unfold last_accepted. cbn [List.filter]. rewrite Hacc.
        reflexivity.
      * cbn [List.filter]. now rewrite Hacc.
Qed.

(** X12. [add_items] never raises, although [add_item] can: an item
    with an empty id, text or vector is skipped.  Afterwards the store holds
    under each id the last accepted item of the batch with that id, and
    what it held before under an id that no accepted item carries. *)
Theorem add_items_last_accepted_wins items db :
  exists db',
    add_items items db = (inr (), db')
    /\ forall id, get_item id db'
                  = match last_accepted id items with
                    | Some it => Some (as_stored it)
                    | None => get_item id db
                    end.
Proof.
  destruct (add_items_spec items db) as (db' & Hrun & Hget & _). eauto.
Qed.

(** X13. [add_items] never removes an item: every id that was stored is
    still stored, and the collection grows by at most the number of
    accepted items of the batch. *)
Theorem add_items_only_grows items db :
  (forall id, is_Some (get_item id db) -> is_Some (get_item id (snd (add_items items db))))
  /\ get_collection_size db <= get_collection_size (snd (add_items items db))
  /\ get_collection_size (snd (add_items items db))
     <= get_collection_size db + length (List.filter accepted items).
Proof.
  destruct (add_items_spec items db) as (db' & Hrun & Hget & Hsize).
  rewrite Hrun. cbn [snd]. split; [|exact Hsize].
  intros id Hid. rewrite Hget. now destruct (last_accepted id items).
Qed.

End VectorStore.

(** ** The run of the pipeline on a well-formed batch *)

Section PipelineExact.

Import EmbeddingStore.

Local Open Scope nat_scope.

Context {vector EState VState : Type}.
Variable embed_batch : list string -> M EState (list vector).
Variable add_items : list (item vector) -> M VState unit.

Implicit Types (l : locals (vector:=vector)) (c : EState * VState).

Lemma for_in_entities_run (xs : list (pydict * string * vector)) c : forall l,
  Forall (fun x => is_Some (PyDict.lookup "id" (fst (fst x)))) xs ->
  for_in xs append_entity_item (c, l)
  = (inr (), (c, {| items_to_add_to_db := items_to_add_to_db l ++ map entity_item xs;
                     entities_processed_count := entities_processed_count l + length xs;
                     relationships_processed_count := relationships_processed_count l |})).
Proof.
  induction xs as [|[[e t] v] xs IH]; intros l Hids.
  - cbn [for_in map length]. rewrite app_nil_r, Nat.add_0_r. now destruct l.
  - apply Forall_cons in Hids as [[id Hid] Hids]. cbn [fst] in Hid.
    rewrite for_in_cons.
    assert (append_entity_item (e, t, v) (c, l)
            = (inr (), (c, {| items_to_add_to_db := items_to_add_to_db l ++ [entity_item (e, t, v)];
                               entities_processed_count := entities_processed_count l + 1;
                               relationships_processed_count :=
                                 relationships_processed_count l |}))) as ->.
    { unfold append_entity_item, mbind, M_bind, lift, on_locals, modify, getitem, entity_item,
        PyDict.get. rewrite Hid. reflexivity. }
    rewrite (IH _ Hids). cbn [items_to_add_to_db entities_processed_count
                               relationships_processed_count map length].
    rewrite <- app_assoc. cbn [app]. do 3 f_equal. lia.
Qed.

Lemma for_in_relationships_run (xs : list (pydict * string * vector)) c : forall l,
  Forall (fun x => is_Some (PyDict.lookup "id" (fst (fst x)))) xs ->
  for_in xs append_relationship_item (c, l)
  = (inr (), (c, {| items_to_add_to_db := items_to_add_to_db l ++ map relationship_item xs;
                     entities_processed_count := entities_processed_count l;
                     relationships_processed_count :=
                       relationships_processed_count l + length xs |})).
Proof.
  induction xs as [|[[e t] v] xs IH]; intros l Hids.
  - cbn [for_in map length]. rewrite app_nil_r, Nat.add_0_r. now destruct l.
  - apply Forall_cons in Hids as [[id Hid] Hids]. cbn [fst] in Hid.
    rewrite for_in_cons.
    assert (append_relationship_item (e, t, v) (c, l)
            = (inr (), (c, {| items_to_add_to_db :=
                                 items_to_add_to_db l ++ [relationship_item (e, t, v)];
                               entities_processed_count := entities_processed_count l;
                               relationships_processed_count :=
                                 relationships_processed_count l + 1 |}))) as ->.
    { unfold append_relationship_item, mbind, M_bind, lift, on_locals, modify, getitem,
        relationship_item, PyDict.get. rewrite Hid. reflexivity. }
    rewrite (IH _ Hids). cbn [items_to_add_to_db entities_processed_count
                               relationships_processed_count map length].
    rewrite <- app_assoc. cbn [app]. do 3 f_equal. lia.
Qed.

Lemma process_entities_run (es : list pydict) vs (model model' : EState) (db : VState) l :
  embed_batch (map _create_entity_description es) model = (inr vs, model') ->
  Forall (fun e => is_Some (PyDict.lookup "id" e)) es ->
  process_entities embed_batch es ((model, db), l)
  = (inr (), ((model', db),
              {| items_to_add_to_db :=
                   items_to_add_to_db l
                   ++ map entity_item (zip3 es (map _create_entity_description es) vs);
                 entities_processed_count :=
                   entities_processed_count l
                   + length (zip3 es (map _create_entity_description es) vs);
                 relationships_processed_count := relationships_processed_count l |})).
Proof.
  intros Hvs Hids.
  unfold process_entities, try_except, on_model, zoom, mbind, M_bind. cbn [fst snd].
  rewrite Hvs. cbn [fst snd].
  rewrite for_in_entities_run; [reflexivity|].
  now apply (zip3_Forall (fun e => is_Some (PyDict.lookup "id" e))).
Qed.

Lemma process_relationships_run (rs : list pydict) map_arg texts vs
    (model model' : EState) (db : VState) l :
  map_exn (fun r => _create_relationship_description r
                      (match map_arg with Some m => m | None => ∅ end)) rs = inr texts ->
  embed_batch texts model = (inr vs, model') ->
  Forall (fun r => is_Some (PyDict.lookup "id" r)) rs ->
  process_relationships embed_batch rs map_arg ((model, db), l)
  = (inr (), ((model', db),
              {| items_to_add_to_db :=
                   items_to_add_to_db l ++ map relationship_item (zip3 rs texts vs);
                 entities_processed_count := entities_processed_count l;
                 relationships_processed_count :=
                   relationships_processed_count l + length (zip3 rs texts vs) |})).
Proof.
  intros Htexts Hvs Hids.
  unfold process_relationships, try_except, on_model, zoom, mbind, M_bind, lift.
  rewrite Htexts. cbn [fst snd]. rewrite Hvs. cbn [fst snd].
  rewrite for_in_relationships_run; [reflexivity|].
  now apply (zip3_Forall (fun r => is_Some (PyDict.lookup "id" r))).
Qed.

(** The run of [store_embeddings] on a batch whose records carry their
    ids, and the relationships their endpoints, with a model that returns
    one vector per text. *)
Lemma store_embeddings_exact (P : vector -> Prop)
    (entities relationships : list pydict) (entities_map : option (gmap pykey pydict))
    (model : EState) (db : VState) :
  embeds_with P embed_batch ->
  Forall (fun e => is_Some (PyDict.lookup "id" e)) entities ->
  Forall (fun r => is_Some (PyDict.lookup "id" r)) relationships ->
  Forall (fun r => exists ks kt, has_endpoints r ks kt) relationships ->
  exists entity_vectors rel_texts rel_vectors model',
    (length entity_vectors = length entities /\ Forall P entity_vectors)
    /\ (length rel_vectors = length relationships /\ Forall P rel_vectors)
    /\ map_exn (fun r => _create_relationship_description r
                           (match entities_map with Some m => m | None => ∅ end))
         relationships = inr rel_texts
    /\ store_embeddings embed_batch add_items (Some entities) (Some relationships) entities_map
         (Some model, Some db)
       = (inr {| entities_processed := length entities;
                 relationships_processed := length relationships |},
          (Some model',
           Some (upserted add_items
                   (map entity_item
                      (zip3 entities (map _create_entity_description entities) entity_vectors)
                    ++ map relationship_item (zip3 relationships rel_texts rel_vectors))
                   db))).
Proof.
  intros Hembed Hes Hrs Hends.
  set (l0 := {| items_to_add_to_db := @nil (item vector);
                entities_processed_count := 0;
                relationships_processed_count := 0 |}).
  destruct (relationship_texts_total (match entities_map with Some m => m | None => ∅ end)
              relationships Hends) as [texts Htexts].
  pose proof (map_exn_length _ _ _ Htexts) as Htl.
  assert (exists vs1 model1,
             (length vs1 = length entities /\ Forall P vs1)
             /\ match entities with
                | e :: es => process_entities embed_batch (e :: es)
                | [] => mret ()
                end ((model, db), l0)
                = (inr (), ((model1, db),
                     {| items_to_add_to_db :=
                          map entity_item
                            (zip3 entities (map _create_entity_description entities) vs1);
                        entities_processed_count := length entities;
                        relationships_processed_count := 0 |})))
    as (vs1 & model1 & Hvs1 & H1).
  { destruct entities as [|e es].
    - exists [], model. split; [split; [reflexivity|constructor]|reflexivity].
    - destruct (Hembed (map _create_entity_description (e :: es)) model)
        as (vs1 & model1 & Hrun & Hlen & HP).
      rewrite length_map in Hlen.
      exists vs1, model1. split; [split; assumption|].
      rewrite (process_entities_run (e :: es) vs1 model model1 db l0 Hrun Hes).
      unfold l0. cbn [items_to_add_to_db entities_processed_count
                        relationships_processed_count app Nat.add].
      rewrite zip3_length; [reflexivity|apply length_map|exact Hlen]. }
  set (l1 := {| items_to_add_to_db :=
                  map entity_item (zip3 entities (map _create_entity_description entities) vs1);
                entities_processed_count := length entities;
                relationships_processed_count := 0 |}) in H1.
  assert (exists vs2 model2,
             (length vs2 = length relationships /\ Forall P vs2)
             /\ match relationships with
                | r :: rs => process_relationships embed_batch (r :: rs) entities_map
                | [] => mret ()
                end ((model1, db), l1)
                = (inr (), ((model2, db),
                     {| items_to_add_to_db :=
                          items_to_add_to_db l1
                          ++ map relationship_item (zip3 relationships texts vs2);
                        entities_processed_count := length entities;
                        relationships_processed_count := length relationships |})))
    as (vs2 & model2 & Hvs2 & H2).
  { destruct relationships as [|r rs].
    - exists [], model1. split; [split; [reflexivity|constructor]|].
      destruct texts; [|discriminate]. cbn [zip3 map]. rewrite app_nil_r. reflexivity.
    - destruct (Hembed texts model1) as (vs2 & model2 & Hrun & Hlen & HP).
      exists vs2, model2. split; [split; [congruence|assumption]|].
      rewrite (process_relationships_run (r :: rs) entities_map texts vs2 model1 model2 db l1
                 Htexts Hrun Hrs).
      unfold l1 at 2 3. cbn [entities_processed_count relationships_processed_count Nat.add].
      rewrite zip3_length; [reflexivity|exact Htl|congruence]. }
  exists vs1, texts, vs2, model2. split; [exact Hvs1|]. split; [exact Hvs2|].
  split; [exact Htexts|].
  unfold store_embeddings, store_embeddings_body. fold l0.
  unfold mbind, M_bind at 1. rewrite H1.
  unfold M_bind at 1. rewrite H2.
  unfold M_bind, gets, mret, M_ret, try_except, on_store, zoom, upserted. cbn [fst snd].
  unfold l1. cbn [items_to_add_to_db entities_processed_count relationships_processed_count].
  destruct (map entity_item _ ++ map relationship_item _)%list as [|i items]; [reflexivity|].
  cbn [fst snd]. destruct (add_items (i :: items) db) as [[e|[]] db']; reflexivity.
Qed.

(** X14. On a batch whose records all carry their ids (and the
    relationships their endpoints), with a model that returns one vector
    per text, [store_embeddings] calls the vector store once, with the items
    of the entities in order followed by those of the relationships in
    order, each under its prefixed id and with its description; it returns
    the two lengths as counts, also when that one call raises. *)
Theorem single_bulk_upsert
    (entities relationships : list pydict) (entities_map : option (gmap pykey pydict))
    (model : EState) (db : VState) :
  embeds embed_batch ->
  Forall (fun e => is_Some (PyDict.lookup "id" e)) entities ->
  Forall (fun r => is_Some (PyDict.lookup "id" r)) relationships ->
  Forall (fun r => exists ks kt, has_endpoints r ks kt) relationships ->
  exists items model',
    store_embeddings embed_batch add_items (Some entities) (Some relationships) entities_map
      (Some model, Some db)
    = (inr {| entities_processed := length entities;
              relationships_processed := length relationships |},
       (Some model', Some (upserted add_items items db)))
    /\ map item_id items
       = app (map (fun e => "entity_" ++ py_str (PyDict.get e "id")) entities)
             (map (fun r => "relationship_" ++ py_str (PyDict.get r "id")) relationships)
    /\ map (fun item => inr (text_description item)) items
       = app (map (fun e => inr (_create_entity_description e)) entities)
             (map (fun r => _create_relationship_description r
                              (match entities_map with Some m => m | None => ∅ end))
                relationships).
Proof.
  intros Hembed Hes Hrs Hends.
  destruct (store_embeddings_exact (fun _ => True) entities relationships entities_map model db)
    as (vs1 & texts & vs2 & model' & [Hl1 _] & [Hl2 _] & Htexts & Hrun); try assumption.
  { intros ts m. destruct (Hembed ts m) as (vs & m' & Hvs & Hlen).
    exists vs, m'. split; [exact Hvs|]. split; [exact Hlen|]. now apply Forall_forall. }
  eexists _, model'. split; [exact Hrun|].
  pose proof (map_exn_length _ _ _ Htexts) as Htl.
  rewrite !map_app, !map_map. split; f_equal.
  - clear -Hl1. revert vs1 Hl1. induction entities as [|e es IH]; intros [|v vs] Hl;
      try discriminate; [reflexivity|]. cbn [map zip3]. f_equal. apply IH. now injection Hl.
  - clear -Hl2 Htl. revert texts vs2 Hl2 Htl.
    induction relationships as [|r rs IH]; intros [|t ts] [|v vs] Hl Ht;
      try discriminate; [reflexivity|]. cbn [map zip3]. f_equal.
    cbn [length] in Hl, Ht. apply IH; congruence.
  - clear -Hl1. revert vs1 Hl1. induction entities as [|e es IH]; intros [|v vs] Hl;
      try discriminate; [reflexivity|]. cbn [map zip3]. f_equal. apply IH. now injection Hl.
  - clear -Hl2 Htexts. revert texts vs2 Hl2 Htexts.
    induction relationships as [|r rs IH]; intros texts [|v vs] Hl Ht;
      try discriminate.
    + cbn in Ht. injection Ht as <-. reflexivity.
    + cbn [map_exn] in Ht. unfold mbind, exn_bind in Ht.
      destruct (_create_relationship_description r _) as [|t] eqn:Hr; [discriminate|].
      destruct (map_exn _ rs) as [|ts] eqn:Hts; [discriminate|].
      injection Ht as <-. cbn [map zip3]. rewrite Hr. f_equal.
      cbn [length] in Hl. apply (IH ts vs); congruence.
Qed.

End PipelineExact.

Lemma single_bulk_upsert_witness :
  exists items model',
    EmbeddingStore.store_embeddings constant_model counting_store
      (Some [alice; python_skill]) (Some [has_skill]) None (Some (), Some 0%nat)
    = (inr {| EmbeddingStore.entities_processed := 2;
              EmbeddingStore.relationships_processed := 1 |},
       (Some model', Some (upserted counting_store items 0%nat)))
    /\ map EmbeddingStore.item_id items = ["entity_e1"; "entity_e6"; "relationship_r5"]
    /\ map (fun item => inr (EmbeddingStore.text_description item)) items
       = [inr "Entity: Alice (Type: PERSON)"; inr "Entity: Python (Type: SKILL)";
          @inr exn string "Relationship: 'Unknown Source Entity' HAS_SKILL 'Unknown Target Entity'. (ID: r5)"].
Proof.
  apply (single_bulk_upsert constant_model counting_store [alice; python_skill] [has_skill]
           None () 0%nat).
  - intros texts model. do 2 eexists. split; [reflexivity|apply length_map].
  - repeat constructor; eexists; reflexivity.
  - repeat constructor; eexists; reflexivity.
  - repeat constructor. exists (KStr "e1"), (KStr "e6"). split; eexists; split; reflexivity.
Defined.

(** ** The pipeline on the vector store of the module *)

Section Retrieval.

Import EmbeddingStore MockVectorDBClient.

Context {F EState : Type}.
Variable embed_batch : list string -> M EState (list (list F)).

Lemma last_In {A} (l : list A) (x : A) : last l = Some x -> In x l.
Proof.
  induction l as [|y l IH]; [discriminate|]. rewrite last_cons_filter.
  destruct (last l) as [z|]; intros [= <-]; [right; now apply IH|now left].
Qed.

Lemma zip3_In {A B C} (R : A -> B -> Prop) (xs : list A) (ys : list B) (zs : list C) x y z :
  Forall2 R xs ys -> In (x, y, z) (zip3 xs ys zs) -> In x xs /\ R x y /\ In z zs.
Proof.
  intros HR. revert zs. induction HR as [|x0 y0 xs ys Hxy _ IH]; intros [|z0 zs]; cbn [zip3];
    try contradiction.
  intros [[= -> -> ->]|Hin].
  - split; [now left|]. split; [assumption|now left].
  - destruct (IH _ Hin) as (? & ? & ?). split; [now right|]. split; [assumption|now right].
Qed.

Lemma zip3_In_exists {A B C} (xs : list A) (ys : list B) (zs : list C) x :
  length ys = length xs -> length zs = length xs -> In x xs ->
  exists y z, In (x, y, z) (zip3 xs ys zs).
Proof.
  revert ys zs. induction xs as [|x0 xs IH]; intros [|y0 ys] [|z0 zs]; cbn [length];
    try discriminate; try contradiction.
  intros [= Hy] [= Hz] [->|Hin].
  - exists y0, z0. now left.
  - destruct (IH ys zs Hy Hz Hin) as (y & z & H). exists y, z. now right.
Qed.

Lemma Forall2_map_r {A B} (f : A -> B) (xs : list A) :
  Forall2 (fun x y => y = f x) xs (map f xs).
Proof. induction xs; constructor; auto. Qed.

Lemma Forall2_map_exn {A B} (f : A -> exn + B) (xs : list A) : forall ys,
  map_exn f xs = inr ys -> Forall2 (fun x y => f x = inr y) xs ys.
Proof.
  induction xs as [|x xs IH]; intros ys; cbn [map_exn].
  - intros [= <-]. constructor.
  - unfold mbind, exn_bind. destruct (f x) as [|y] eqn:Hx; [discriminate|].
    destruct (map_exn f xs) as [|ys']; [discriminate|].
    intros [= <-]. constructor; [exact Hx|now apply IH].
Qed.

Lemma entity_description_not_empty e : String.eqb (_create_entity_description e) "" = false.
Proof. unfold _create_entity_description. destruct (PyDict.get e "attributes"); reflexivity. Qed.

Lemma relationship_description_not_empty r m t :
  _create_relationship_description r m = inr t -> String.eqb t "" = false.
Proof.
  unfold _create_relationship_description, mbind, exn_bind.
  destruct (getitem r "source_entity_id") as [|vs]; [discriminate|].
  destruct (hash_key vs) as [|ks]; [discriminate|].
  destruct (getitem r "target_entity_id") as [|vt]; [discriminate|].
  destruct (hash_key vt) as [|kt]; [discriminate|].
  destruct (truthy (PyDict.get r "attributes")); intros [= <-]; reflexivity.
Qed.

(** The last accepted item under an id that some accepted item carries. *)
Lemma last_accepted_exists (items : list (item (list F))) it0 :
  In it0 items -> accepted it0 = true ->
  exists it, last_accepted (item_id it0) items = Some it
             /\ In it items /\ item_id it = item_id it0.
Proof.
  intros Hin Hacc. unfold last_accepted.
  set (p := fun item : item (list F) => accepted item && String.eqb (item_id item) (item_id it0)).
  assert (In it0 (List.filter p items)) as Hf.
  { apply filter_In. split; [exact Hin|]. unfold p. now rewrite Hacc, String.eqb_refl. }
  destruct (last (List.filter p items)) as [it|] eqn:Hlast.
  - exists it. split; [reflexivity|]. apply last_In, filter_In in Hlast as [Hit Hp].
    split; [exact Hit|]. unfold p in Hp. apply andb_true_iff in Hp as [_ Hid].
    now apply String.eqb_eq.
  - apply last_None in Hlast. rewrite Hlast in Hf. contradiction.
Qed.

Lemma last_accepted_In (items : list (item (list F))) id it :
  last_accepted id items = Some it -> In it items /\ item_id it = id.
Proof.
  unfold last_accepted. intros Hlast. apply last_In, filter_In in Hlast as [Hit Hp].
  split; [exact Hit|]. apply andb_true_iff in Hp as [_ Hid]. now apply String.eqb_eq.
Qed.

(** X15. With the vector store of the module and a model that returns
    one non-empty vector per text, a batch whose records carry their ids
    (and the relationships their endpoints) is retrievable afterwards:
    [get_item] finds under [entity_<id>] the description and the metadata of
    an entity of the batch with that id, under [relationship_<id>] those of
    a relationship of the batch with that id, and an id under which the
    store has changed is one of these. *)
Theorem stored_records_are_retrievable
    (entities relationships : list pydict) (entities_map : option (gmap pykey pydict))
    (model : EState) (db : gmap string (stored F)) :
  embeds_with (fun v => v <> []) embed_batch ->
  Forall (fun e => is_Some (PyDict.lookup "id" e)) entities ->
  Forall (fun r => is_Some (PyDict.lookup "id" r)) relationships ->
  Forall (fun r => exists ks kt, has_endpoints r ks kt) relationships ->
  exists result model' db',
    store_embeddings embed_batch add_items (Some entities) (Some relationships) entities_map
      (Some model, Some db) = (inr result, (Some model', Some db'))
    /\ (forall e, In e entities ->
        exists e' s,
          In e' entities
          /\ py_str (PyDict.get e' "id") = py_str (PyDict.get e "id")
          /\ get_item ("entity_" ++ py_str (PyDict.get e "id")) db' = Some s
          /\ stored_text_description s = _create_entity_description e'
          /\ stored_metadata s = [("type", VStr "entity");
                                  ("original_id", PyDict.get e' "id");
                                  ("label", PyDict.get e' "label")])
    /\ (forall r, In r relationships ->
        exists r' s,
          In r' relationships
          /\ py_str (PyDict.get r' "id") = py_str (PyDict.get r "id")
          /\ get_item ("relationship_" ++ py_str (PyDict.get r "id")) db' = Some s
          /\ _create_relationship_description r'
               (match entities_map with Some m => m | None => ∅ end)
             = inr (stored_text_description s)
          /\ stored_metadata s = [("type", VStr "relationship");
                                  ("original_id", PyDict.get r' "id");
                                  ("label", PyDict.get r' "label");
                                  ("source_id", PyDict.get r' "source_entity_id");
                                  ("target_id", PyDict.get r' "target_entity_id")])
    /\ (forall id, get_item id db' <> get_item id db ->
        (exists e, In e entities /\ id = "entity_" ++ py_str (PyDict.get e "id"))
        \/ (exists r, In r relationships
                      /\ id = "relationship_" ++ py_str (PyDict.get r "id"))).
Proof.
  intros Hembed Hes Hrs Hends.
  destruct (store_embeddings_exact embed_batch add_items (fun v => v <> []) entities
              relationships entities_map model db Hembed Hes Hrs Hends)
    as (vs1 & texts & vs2 & model' & [Hl1 Hv1] & [Hl2 Hv2] & Htexts & Hrun).
  set (m := match entities_map with Some m => m | None => ∅ end) in *.
  set (E := map entity_item (zip3 entities (map _create_entity_description entities) vs1))
    in Hrun.
  set (R := map relationship_item (zip3 relationships texts vs2)) in Hrun.
  destruct (add_items_spec (E ++ R) db) as (db' & Hadd & Hget & _).
  assert (upserted add_items (E ++ R) db = db') as Hup.
  { unfold upserted. destruct (E ++ R)%list as [|i its] eqn:HER.
    - cbn in Hadd. now injection Hadd.
    - now rewrite Hadd. }
  rewrite Hup in Hrun. clear Hup.
  pose proof (map_exn_length _ _ _ Htexts) as Htl.
  pose proof (Forall2_map_r _create_entity_description entities) as HE2.
  pose proof (Forall2_map_exn _ _ _ Htexts) as HR2.
  assert (forall it, In it E ->
            exists e v, In e entities /\ In v vs1
                        /\ it = entity_item (e, _create_entity_description e, v)) as HE.
  { intros it [[[e t] v] [<- Hin]]%in_map_iff.
    destruct (zip3_In _ _ _ _ _ _ _ HE2 Hin) as (He & -> & Hv). eauto. }
  assert (forall it, In it R ->
            exists r t v, In r relationships /\ In v vs2
                          /\ _create_relationship_description r m = inr t
                          /\ it = relationship_item (r, t, v)) as HR.
  { intros it [[[r t] v] [<- Hin]]%in_map_iff.
    destruct (zip3_In _ _ _ _ _ _ _ HR2 Hin) as (Hr & Ht & Hv). eauto 8. }
  eexists _, model', db'. split; [exact Hrun|]. split; [|split].
  - intros e He.
    destruct (zip3_In_exists entities (map _create_entity_description entities) vs1 e)
      as (t & v & Hin); [apply length_map|exact Hl1|exact He|].
    destruct (zip3_In _ _ _ _ _ _ _ HE2 Hin) as (_ & -> & Hv).
    destruct (last_accepted_exists (E ++ R) (entity_item (e, _create_entity_description e, v)))
      as (it & Hlast & Hit & Hid).
    { apply in_or_app. left. apply in_map_iff. eauto. }
    { unfold accepted, entity_item.
      cbn [item_id text_description item_vector]. rewrite entity_description_not_empty.
      pose proof (proj1 (List.Forall_forall _ _) Hv1 v Hv). now destruct v. }
    apply in_app_or in Hit as [Hit|Hit].
    + destruct (HE it Hit) as (e' & v' & He' & _ & ->).
      cbn in Hid. injection Hid as Hid.
      exists e', (as_stored (entity_item (e', _create_entity_description e', v'))).
      split; [exact He'|]. split; [exact Hid|]. split; [|split; reflexivity].
      rewrite Hget. cbn [entity_item item_id] in Hlast. now rewrite Hlast.
    + destruct (HR it Hit) as (r' & t' & v' & _ & _ & _ & ->). cbn in Hid. discriminate.
  - intros r Hr.
    destruct (zip3_In_exists relationships texts vs2 r) as (t & v & Hin);
      [exact Htl|exact Hl2|exact Hr|].
    destruct (zip3_In _ _ _ _ _ _ _ HR2 Hin) as (_ & Ht & Hv).
    destruct (last_accepted_exists (E ++ R) (relationship_item (r, t, v)))
      as (it & Hlast & Hit & Hid).
    { apply in_or_app. right. apply in_map_iff. eauto. }
    { unfold accepted, relationship_item.
      cbn [item_id text_description item_vector].
      rewrite (relationship_description_not_empty r m t Ht).
      pose proof (proj1 (List.Forall_forall _ _) Hv2 v Hv). now destruct v. }
    apply in_app_or in Hit as [Hit|Hit].
    + destruct (HE it Hit) as (e' & v' & _ & _ & ->). cbn in Hid. discriminate.
    + destruct (HR it Hit) as (r' & t' & v' & Hr' & _ & Ht' & ->).
      cbn in Hid. injection Hid as Hid.
      exists r', (as_stored (relationship_item (r', t', v'))).
      split; [exact Hr'|]. split; [exact Hid|]. split; [|split; [exact Ht'|reflexivity]].
      rewrite Hget. cbn [relationship_item item_id] in Hlast. now rewrite Hlast.
  - intros id Hne. rewrite Hget in Hne.
    destruct (last_accepted id (E ++ R)) as [it|] eqn:Hlast; [|contradiction].
    apply last_accepted_In in Hlast as [Hit <-].
    apply in_app_or in Hit as [Hit|Hit].
    + left. destruct (HE it Hit) as (e & v & He & _ & ->). exists e. now split.
    + right. destruct (HR it Hit) as (r & t & v & Hr & _ & _ & ->). exists r. now split.
Qed.

End Retrieval.

Lemma stored_records_are_retrievable_witness :
  exists result model' db',
    EmbeddingStore.store_embeddings constant_model MockVectorDBClient.add_items
      (Some [alice; python_skill]) (Some [has_skill]) None (Some (), Some ∅)
    = (inr result, (Some model', Some db'))
    /\ (exists s, MockVectorDBClient.get_item "entity_e6" db' = Some s
                  /\ MockVectorDBClient.stored_text_description s
                     = "Entity: Python (Type: SKILL)")
    /\ MockVectorDBClient.get_item "e6" db' = None.
Proof.
  destruct (stored_records_are_retrievable constant_model [alice; python_skill] [has_skill]
              None () ∅) as (result & model' & db' & Hrun & He & _ & Hother).
  - intros texts model. do 2 eexists. split; [reflexivity|]. split; [apply length_map|].
    apply List.Forall_forall. intros v [t [<- _]]%in_map_iff. discriminate.
  - repeat constructor; eexists; reflexivity.
  - repeat constructor; eexists; reflexivity.
  - repeat constructor. exists (KStr "e1"), (KStr "e6"). split; eexists; split; reflexivity.
  - exists result, model', db'. split; [exact Hrun|]. split.
    + destruct (He python_skill) as (e' & s & He' & Hid & Hs & Htext & _);
        [right; now left|].
      exists s. split; [exact Hs|]. rewrite Htext.
      destruct He' as [<-|[<-|[]]]; [discriminate Hid|reflexivity].
    + destruct (MockVectorDBClient.get_item "e6" db') as [s|] eqn:Hs; [|reflexivity].
      destruct (Hother "e6") as [(e & He1 & Hid)|(r & Hr1 & Hid)].
      * rewrite Hs. discriminate.
      * discriminate Hid.
      * discriminate Hid.
Defined.

(** ** The graph of [create_kg] *)

Section GraphShape.

Import Networkx KgConstruction.

Local Open Scope nat_scope.

Implicit Types (g : MultiDiGraph) (x r : pydict) (k : pykey).

Lemma fold_exn_invariant {A S} (f : S -> A -> exn + S) (P : list A -> S -> Prop) :
  (forall done s y s', P done s -> f s y = inr s' -> P (done ++ [y])%list s') ->
  forall ys done s s', P done s -> fold_exn f ys s = inr s' -> P (done ++ ys)%list s'.
Proof.
  intros Hstep. induction ys as [|y ys IH]; intros done s s' HP; cbn [fold_exn].
  - intros [= <-]. now rewrite app_nil_r.
  - unfold mbind, exn_bind. destruct (f s y) as [|s1] eqn:Hf; [discriminate|].
    intros Hrest. replace (done ++ y :: ys)%list with ((done ++ [y]) ++ ys)%list
      by now rewrite <- app_assoc.
    eapply IH; [|exact Hrest]. eapply Hstep; eauto.
Qed.

Lemma fold_exn_raises {A S} (f : S -> A -> exn + S) (ys : list A) :
  Exists (fun y => forall s, exists err, f s y = inl err) ys ->
  forall s, exists err, fold_exn f ys s = inl err.
Proof.
  induction 1 as [y ys Hy|y ys _ IH]; intros s; cbn [fold_exn]; unfold mbind, exn_bind.
  - destruct (Hy s) as [err ->]. eauto.
  - destruct (f s y); [eauto|apply IH].
Qed.

Lemma merge_attributes_other attributes k : forall g k',
  k' <> k -> _node (merge_attributes g k attributes) !! k' = _node g !! k'.
Proof.
  unfold merge_attributes.
  induction attributes as [|[key v] attributes IH]; intros g k' Hne; cbn [fold_left];
    [reflexivity|].
  rewrite IH by assumption. cbn [fst snd].
  destruct (PyDict.lookup key (default [] (_node g !! k))) as [old|];
    [destruct (py_eq old v)|]; try reflexivity;
    unfold set_node_attr; cbn [_node]; now rewrite lookup_alter_ne.
Qed.

Lemma merge_attributes_adj attributes k : forall g,
  _adj (merge_attributes g k attributes) = _adj g.
Proof.
  unfold merge_attributes.
  induction attributes as [|[key v] attributes IH]; intros g; cbn [fold_left];
    [reflexivity|].
  rewrite IH. cbn [fst snd].
  destruct (PyDict.lookup key (default [] (_node g !! k))) as [old|];
    [destruct (py_eq old v)|]; reflexivity.
Qed.

(** What one iteration of the node loop does to the set of nodes. *)
Lemma add_entity_nodes g x g' :
  add_entity g x = inr g' ->
  exists k, names_node x k
            /\ (forall k', is_Some (_node g' !! k') <-> k' = k \/ is_Some (_node g !! k'))
            /\ _adj g' = _adj g.
Proof.
  unfold add_entity, getitem. destruct (PyDict.lookup "text" x) as [t|] eqn:Ht; [|discriminate].
  unfold mbind, exn_bind at 1. unfold has_node.
  destruct (hash_key t) as [err|k] eqn:Hk.
  - cbn [negb]. unfold Networkx.add_node, mbind, exn_bind.
    destruct (bind_keywords _ _ _) as [|[]]; [discriminate|]. rewrite Hk. discriminate.
  - destruct (_node g !! k) as [node|] eqn:Hnode.
    + rewrite bool_decide_eq_true_2 by eauto. cbn [negb].
      unfold mbind, exn_bind, mret, exn_ret. intros [= <-].
      exists k. split; [exists t; now split|]. split; [|apply merge_attributes_adj].
      intros k'. destruct (decide (k' = k)) as [->|Hne].
      * rewrite (merge_attributes_node _ _ _ _ Hnode). split; eauto.
      * rewrite merge_attributes_other by assumption. split; [now right|].
        intros [?|?]; [contradiction|assumption].
    + rewrite bool_decide_eq_false_2 by (intros [? ?]; discriminate). cbn [negb].
      intros Hadd. apply (add_node_new g t _ k g' Hk Hnode) in Hadd as ->.
      exists k. split; [exists t; now split|]. split; [|reflexivity].
      intros k'. cbn [_node]. destruct (decide (k' = k)) as [->|Hne].
      * rewrite lookup_insert_eq. split; eauto.
      * rewrite lookup_insert_ne by congruence. split; [now right|].
        intros [?|?]; [contradiction|assumption].
Qed.

(** What [add_edge] does to the edges. *)
Lemma add_edge_adj g (u v : pykey) (kwargs : pydict) g' :
  Networkx.add_edge g u v kwargs = inr g' ->
  exists key datadict,
    g' = {| _node := _node g;
            _adj := <[(u, v) := keydict_set key datadict (default [] (_adj g !! (u, v)))]>
                      (_adj g) |}.
Proof.
  unfold Networkx.add_edge, mbind, exn_bind, mret, exn_ret.
  destruct (bind_keywords _ _ kwargs) as [|[]]; [discriminate|].
  destruct (match PyDict.get kwargs "key" with VNone => _ | _ => _ end) as [|key];
    [discriminate|].
  intros [= <-]. eauto.
Qed.

Lemma keydict_set_length (key : pykey) (datadict : pydict) keydict :
  length (keydict_set key datadict keydict) <= S (length keydict).
Proof.
  induction keydict as [|[key' d'] keydict IH]; cbn [keydict_set length]; [lia|].
  destruct (decide (key = key')); cbn [length]; lia.
Qed.

Lemma number_of_edges_insert g (u v : pykey) keydict :
  number_of_edges {| _node := _node g; _adj := <[(u, v) := keydict]> (_adj g) |}
  + length (default [] (_adj g !! (u, v)))
  = number_of_edges g + length keydict.
Proof.
  unfold number_of_edges. cbn [_adj].
  set (f := fun (_ : pykey * pykey) (keydict : list (pykey * pydict)) n => length keydict + n).
  assert (forall (j1 j2 : pykey * pykey) (z1 z2 : list (pykey * pydict)) (y : nat),
             f j1 z1 (f j2 z2 y) = f j2 z2 (f j1 z1 y)) as Hcomm.
  { intros. unfold f. lia. }
  destruct (_adj g !! (u, v)) as [old|] eqn:Hold; cbn [default].
  - rewrite <- (insert_delete_eq (_adj g)) at 1.
    rewrite (map_fold_insert_L f); [|intros; apply Hcomm|apply lookup_delete_eq].
    rewrite (map_fold_delete_L f _ (u, v) old (_adj g)); [|intros; apply Hcomm|exact Hold].
    unfold f, id. cbv beta. lia.
  - rewrite (map_fold_insert_L f); [|intros; apply Hcomm|exact Hold].
    unfold f. cbv beta. cbn [length]. lia.
Qed.

Lemma add_relation_adj g r g' :
  add_relation g r = inr g' ->
  _node g' = _node g
  /\ (g' = g
      \/ exists u v key datadict,
           is_Some (_node g !! u) /\ is_Some (_node g !! v)
           /\ g' = {| _node := _node g;
                      _adj := <[(u, v) := keydict_set key datadict
                                            (default [] (_adj g !! (u, v)))]> (_adj g) |}).
Proof.
  intros Hadd. split; [now apply add_relation_nodes in Hadd|]. revert Hadd.
  unfold add_relation, getitem, mbind, exn_bind, mret, exn_ret.
  destruct (PyDict.lookup "entity1_text" r) as [s|]; [|discriminate].
  destruct (PyDict.lookup "entity2_text" r) as [t|]; [|discriminate].
  destruct (PyDict.lookup "type" r) as [ty|]; [|discriminate].
  destruct (has_node g s && has_node g t) eqn:Hboth.
  - apply andb_true_iff in Hboth as [Hs Ht]. unfold has_node in Hs, Ht.
    destruct (hash_key s) as [|u]; [discriminate|]. destruct (hash_key t) as [|v]; [discriminate|].
    apply bool_decide_eq_true_1 in Hs, Ht.
    intros (key & datadict & ->)%add_edge_adj. right. eauto 8.
  - intros [= <-]. now left.
Qed.

(** X16. The nodes of the graph that [create_kg] returns are exactly the
    texts of the entities, one node per distinct text, and the relations
    add no node. *)
Theorem create_kg_nodes_are_entity_texts entities relations g :
  create_kg entities relations = inr g ->
  (forall k, is_Some (_node g !! k) <-> exists e, In e entities /\ names_node e k)
  /\ number_of_nodes g <= length entities.
Proof.
  unfold create_kg, mbind, exn_bind at 1.
  destruct (fold_exn add_entity entities Networkx.empty) as [|g0] eqn:Hes; [discriminate|].
  intros Hrs. apply fold_add_relation_nodes in Hrs. unfold number_of_nodes. rewrite Hrs.
  clear Hrs g relations.
  pose proof (fold_exn_invariant add_entity
                (fun done g => (forall k, is_Some (_node g !! k)
                                          <-> exists e, In e done /\ names_node e k)
                               /\ size (_node g) <= length done)) as Hinv.
  apply (Hinv) with (ys := entities) (done := []) (s := Networkx.empty); [| |exact Hes].
  - intros done g x g' [Hnodes Hsize] Hadd.
    destruct (add_entity_nodes g x g' Hadd) as (k & Hk & Hdom & _). split.
    + intros k'. rewrite Hdom, Hnodes. split.
      * intros [->|(e & He & Hek)].
        -- exists x. split; [apply in_or_app; right; now left|exact Hk].
        -- exists e. split; [apply in_or_app; now left|exact Hek].
      * intros (e & [He|[<-|[]]]%in_app_or & Hek).
        -- right. eauto.
        -- left. destruct Hk as (t & Ht & Hkt), Hek as (t' & Ht' & Hkt'). congruence.
    + rewrite length_app. cbn [length].
      assert (dom (_node g') ⊆ {[k]} ∪ dom (_node g)) as Hsub.
      { intros k' Hin. apply elem_of_dom, Hdom in Hin as [->|Hin].
        - apply elem_of_union_l. now apply elem_of_singleton.
        - apply elem_of_union_r. now apply elem_of_dom. }
      apply subseteq_size in Hsub.
      pose proof (size_union_alt (C:=gset pykey) {[k]} (dom (_node g))) as Hu.
      rewrite size_singleton in Hu.
      assert (dom (_node g) ∖ {[k]} ⊆ dom (_node g)) as Hd by apply subseteq_difference_l, reflexivity.
      apply subseteq_size in Hd.
      rewrite <- (size_dom (_node g)) in Hsize. rewrite <- (size_dom (_node g')). lia.
  - split; [|cbn [Networkx.empty _node length]; rewrite map_size_empty; lia].
    intros k. cbn [Networkx.empty _node]. rewrite lookup_empty. split.
    + intros [? ?]; discriminate.
    + intros (e & [] & _).
Qed.

(** X17. Every edge of the graph that [create_kg] returns joins two nodes
    of the graph: a relation of which an endpoint is not the text of an
    entity is skipped, so there are at most as many edges as relations. *)
Theorem create_kg_edges_join_nodes entities relations g :
  create_kg entities relations = inr g ->
  (forall u v, is_Some (_adj g !! (u, v)) -> is_Some (_node g !! u) /\ is_Some (_node g !! v))
  /\ number_of_edges g <= length relations.
Proof.
  unfold create_kg, mbind, exn_bind at 1.
  destruct (fold_exn add_entity entities Networkx.empty) as [|g0] eqn:Hes; [discriminate|].
  assert (_adj g0 = ∅) as Hadj0.
  { pose proof (fold_exn_invariant add_entity (fun _ g => _adj g = ∅)) as Hinv.
    apply (Hinv) with (ys := entities) (done := []) (s := Networkx.empty);
      [|reflexivity|exact Hes].
    intros done g1 x g1' Hg1 Hadd.
    destruct (add_entity_nodes g1 x g1' Hadd) as (k & _ & _ & Hadj). congruence. }
  intros Hrs.
  pose proof (fold_exn_invariant add_relation
                (fun done g => (forall u v, is_Some (_adj g !! (u, v)) ->
                                            is_Some (_node g !! u) /\ is_Some (_node g !! v))
                               /\ number_of_edges g <= length done)) as Hinv.
  apply (Hinv) with (ys := relations) (done := []) (s := g0); [| |exact Hrs].
  - intros done g1 r g1' [Hjoin Hcount] Hadd.
    destruct (add_relation_adj g1 r g1' Hadd)
      as [Hnodes [->|(u & v & key & datadict & Hu & Hv & ->)]].
    + split; [exact Hjoin|]. rewrite length_app. cbn [length]. lia.
    + split.
      * intros u' v'. cbn [_adj _node].
        destruct (decide ((u', v') = (u, v))) as [[= -> ->]|Hne].
        -- intros _. now split.
        -- rewrite lookup_insert_ne by congruence. apply Hjoin.
      * pose proof (number_of_edges_insert g1 u v
                      (keydict_set key datadict (default [] (_adj g1 !! (u, v))))) as Hins.
        pose proof (keydict_set_length key datadict (default [] (_adj g1 !! (u, v)))) as Hlen.
        rewrite length_app. cbn [length]. lia.
  - split.
    + intros u v. rewrite Hadj0, lookup_empty. intros [? ?]; discriminate.
    + unfold number_of_edges. rewrite Hadj0, map_fold_empty. cbn. lia.
Qed.

(** X18. A record that lacks a key that the loops read aborts the whole
    construction: [create_kg] raises, and returns no partial graph, when an
    entity has no [text] or a relation has no [entity1_text], [entity2_text]
    or [type]. *)
Theorem create_kg_aborts_on_malformed_record entities relations :
  Exists lacks_text entities \/ Exists lacks_relation_key relations ->
  exists err, create_kg entities relations = inl err.
Proof.
  intros Hbad. unfold create_kg, mbind, exn_bind at 1.
  destruct (fold_exn add_entity entities Networkx.empty) as [err|g0] eqn:Hes; [eauto|].
  destruct Hbad as [Hbad|Hbad].
  - destruct (fold_exn_raises add_entity entities) with (s := Networkx.empty) as [err Herr];
      [|congruence].
    eapply Exists_impl; [exact Hbad|]. intros x Hx g. unfold add_entity, getitem.
    unfold lacks_text in Hx. rewrite Hx. eexists. reflexivity.
  - apply fold_exn_raises. eapply Exists_impl; [exact Hbad|].
    intros r Hr g. unfold add_relation, getitem, mbind, exn_bind.
    destruct (PyDict.lookup "entity1_text" r) eqn:H1; [|eauto].
    destruct (PyDict.lookup "entity2_text" r) eqn:H2; [|eauto].
    destruct (PyDict.lookup "type" r) eqn:H3; [|eauto].
    destruct Hr as [?|[?|?]]; congruence.
Qed.

End GraphShape.

Lemma create_kg_nodes_are_entity_texts_witness :
  exists g,
    KgConstruction.create_kg [drug_a; disease_x; drug_a_again] [treats; treats_unknown] = inr g
    /\ (forall k, is_Some (Networkx._node g !! k)
                  <-> exists e, In e [drug_a; disease_x; drug_a_again] /\ names_node e k)
    /\ (number_of_nodes g <= 3)%nat.
Proof.
  eexists. split; [reflexivity|].
  apply (create_kg_nodes_are_entity_texts [drug_a; disease_x; drug_a_again]
           [treats; treats_unknown]).
  reflexivity.
Defined.

Lemma create_kg_edges_join_nodes_witness :
  exists g,
    KgConstruction.create_kg [drug_a; disease_x] [treats; treats_unknown] = inr g
    /\ (forall u v, is_Some (Networkx._adj g !! (u, v)) ->
                    is_Some (Networkx._node g !! u) /\ is_Some (Networkx._node g !! v))
    /\ (number_of_edges g <= 2)%nat.
Proof.
  eexists. split; [reflexivity|].
  apply (create_kg_edges_join_nodes [drug_a; disease_x] [treats; treats_unknown]).
  reflexivity.
Defined.

Lemma create_kg_aborts_on_malformed_record_witness :
  exists err, KgConstruction.create_kg [drug_a; untitled; disease_x] [treats] = inl err.
Proof.
  apply create_kg_aborts_on_malformed_record. left.
  apply Exists_cons_tl, Exists_cons_hd. reflexivity.
Defined.

(** ** Co-occurrence relations *)

Section CoOccurrence.

Import RelationExtraction.

Local Open Scope nat_scope.

Implicit Types (entities : list pydict) (c : value).

Lemma combinations_length {A} (ys : list A) :
  2 * length (combinations ys) = length ys * (length ys - 1).
Proof.
  induction ys as [|y ys IH]; [reflexivity|].
  cbn [combinations length]. rewrite length_app, length_map. nia.
Qed.

Lemma combinations_In {A} (ys : list A) (a b : A) :
  In (a, b) (combinations ys) -> In a ys /\ In b ys.
Proof.
  induction ys as [|y ys IH]; [contradiction|]. cbn [combinations].
  intros [Hin|Hin]%in_app_or.
  - apply in_map_iff in Hin as (b' & [= <- <-] & Hb). split; [now left|now right].
  - destruct (IH Hin). split; now right.
Qed.

Lemma combinations_covers {A} (ys : list A) (a : A) :
  2 <= length ys -> In a ys ->
  exists b, In (a, b) (combinations ys) \/ In (b, a) (combinations ys).
Proof.
  destruct ys as [|y [|y' ys]]; cbn [length]; try lia. intros _ [<-|Hin].
  - exists y'. left. cbn [combinations]. apply in_or_app. left. now left.
  - exists y. right. cbn [combinations]. apply in_or_app. left.
    apply in_map_iff. eauto.
Qed.

Lemma extract_relations_cooccurrence_eq entities c :
  extract_relations_cooccurrence entities c
  = if length entities <? 2 then inr [] else map_exn (relation c) (combinations entities).
Proof. reflexivity. Qed.

Lemma relation_returns c ent1 ent2 :
  has_text_and_label ent1 -> has_text_and_label ent2 ->
  exists rel, relation c (ent1, ent2) = inr rel
              /\ PyDict.lookup "type" rel = Some (VStr "CO-OCCURS_WITH")
              /\ PyDict.lookup "text_chunk_id" rel = Some c
              /\ PyDict.lookup "entity1_text" rel = PyDict.lookup "text" ent1
              /\ PyDict.lookup "entity1_label" rel = PyDict.lookup "label" ent1
              /\ PyDict.lookup "entity2_text" rel = PyDict.lookup "text" ent2
              /\ PyDict.lookup "entity2_label" rel = PyDict.lookup "label" ent2
              /\ no_edge_keyword rel.
Proof.
  intros [[t1 Ht1] [l1 Hl1]] [[t2 Ht2] [l2 Hl2]].
  unfold relation, getitem, mbind, exn_bind. rewrite Ht1, Hl1, Ht2, Hl2.
  eexists. split; [reflexivity|]. do 6 (split; [reflexivity|]).
  unfold no_edge_keyword. do 4 (apply List.Forall_cons; [reflexivity|]). apply List.Forall_nil.
Qed.

Lemma relation_raises c ent1 ent2 err :
  relation c (ent1, ent2) = inl err -> exists key, err = KeyError key.
Proof.
  unfold relation, getitem, mbind, exn_bind.
  destruct (PyDict.lookup "text" ent1); [|intros [= <-]; eauto].
  destruct (PyDict.lookup "label" ent1); [|intros [= <-]; eauto].
  destruct (PyDict.lookup "text" ent2); [|intros [= <-]; eauto].
  destruct (PyDict.lookup "label" ent2); [|intros [= <-]; eauto].
  discriminate.
Qed.

Lemma relation_of_malformed c ent1 ent2 :
  lacks_text_or_label ent1 \/ lacks_text_or_label ent2 ->
  exists err, relation c (ent1, ent2) = inl err.
Proof.
  unfold relation, getitem, mbind, exn_bind, lacks_text_or_label.
  destruct (PyDict.lookup "text" ent1); [|eauto].
  destruct (PyDict.lookup "label" ent1); [|eauto].
  destruct (PyDict.lookup "text" ent2); [|eauto].
  destruct (PyDict.lookup "label" ent2); [|eauto].
  intros [[?|?]|[?|?]]; discriminate.
Qed.

Lemma map_exn_total {A B} (f : A -> exn + B) (P : B -> Prop) (ys : list A) :
  Forall (fun y => exists b, f y = inr b /\ P b) ys ->
  exists bs, map_exn f ys = inr bs /\ Forall P bs.
Proof.
  induction 1 as [|y ys (b & Hb & HP) _ (bs & Hbs & HPs)]; cbn [map_exn].
  - exists []. split; [reflexivity|constructor].
  - unfold mbind, exn_bind. rewrite Hb, Hbs. exists (b :: bs). split; [reflexivity|].
    now constructor.
Qed.

Lemma map_exn_error {A B} (f : A -> exn + B) (ys : list A) err :
  map_exn f ys = inl err -> exists y, In y ys /\ f y = inl err.
Proof.
  induction ys as [|y ys IH]; cbn [map_exn]; [discriminate|].
  unfold mbind, exn_bind. destruct (f y) as [e|b] eqn:Hy.
  - intros [= <-]. exists y. split; [now left|exact Hy].
  - destruct (map_exn f ys) as [e|bs]; [|discriminate].
    intros [= <-]. destruct IH as (y' & Hin & Hy'); [reflexivity|]. exists y'.
    split; [now right|exact Hy'].
Qed.

Lemma extract_relations_cooccurrence_total entities c :
  Forall has_text_and_label entities ->
  exists relations,
    extract_relations_cooccurrence entities c = inr relations
    /\ 2 * length relations = length entities * (length entities - 1)
    /\ Forall (fun rel => co_occurrence entities c rel /\ no_edge_keyword rel) relations.
Proof.
  intros Hall.
  destruct (map_exn_total (relation c)
              (fun rel => co_occurrence entities c rel /\ no_edge_keyword rel)
              (combinations entities))
    as (relations & Hrun & Hrel).
  { apply List.Forall_forall. intros [ent1 ent2] Hin.
    apply combinations_In in Hin as [H1 H2].
    pose proof (proj1 (List.Forall_forall _ _) Hall) as Hall'.
    destruct (relation_returns c ent1 ent2 (Hall' _ H1) (Hall' _ H2))
      as (rel & Hrel & Hty & Hc & Ht1 & Hl1 & Ht2 & Hl2 & Hkw).
    exists rel. split; [exact Hrel|]. split; [|exact Hkw].
    split; [exact Hty|]. split; [exact Hc|].
    exists ent1, ent2. tauto. }
  exists relations. rewrite extract_relations_cooccurrence_eq.
  pose proof (map_exn_length _ _ _ Hrun) as Hlen.
  pose proof (combinations_length entities) as Hcomb.
  destruct (Nat.ltb_spec (length entities) 2) as [Hlt|Hge].
  - destruct entities as [|e1 [|e2 es]]; cbn [length] in Hlt; try lia;
      cbn in Hrun; injection Hrun as <-; split; [reflexivity| |reflexivity|];
      split; [reflexivity|constructor|reflexivity|constructor].
  - split; [exact Hrun|]. split; [lia|exact Hrel].
Qed.


(** X20. An entity without [text] or [label] goes unnoticed when it is
    alone: a list of fewer than two entities gives no relation and no
    error.  In a list of two or more, every entity is in some pair, and
    [extract_relations_cooccurrence] raises a [KeyError]. *)
Theorem cooccurrence_reads_entities_only_in_pairs entities c :
  Exists lacks_text_or_label entities ->
  (length entities < 2 -> extract_relations_cooccurrence entities c = inr [])
  /\ (2 <= length entities ->
      exists key, extract_relations_cooccurrence entities c = inl (KeyError key)).
Proof.
  intros Hbad. rewrite extract_relations_cooccurrence_eq. split.
  - intros Hlt. apply Nat.ltb_lt in Hlt. now rewrite Hlt.
  - intros Hge. destruct (Nat.ltb_spec (length entities) 2) as [Hlt|_]; [lia|].
    apply List.Exists_exists in Hbad as (ent & Hin & Hlacks).
    destruct (combinations_covers entities ent Hge Hin) as (other & Hpair).
    destruct (map_exn (relation c) (combinations entities)) as [err|relations] eqn:Hrun.
    + destruct (map_exn_error _ _ _ Hrun) as ([ent1 ent2] & _ & Herr).
      apply relation_raises in Herr as [key ->]. eauto.
    + exfalso. apply Forall2_map_exn in Hrun.
      assert (forall p, In p (combinations entities) -> exists rel, relation c p = inr rel)
        as Hall.
      { clear -Hrun. induction Hrun as [|p rel ps rels Hp _ IH]; intros q [].
        - subst. eauto.
        - now apply IH. }
      destruct Hpair as [Hpair|Hpair]; destruct (Hall _ Hpair) as [rel Hrel];
        [destruct (relation_of_malformed c ent other) as [err Herr]; [now left|]
        |destruct (relation_of_malformed c other ent) as [err Herr]; [now right|]];
        congruence.
Qed.

End CoOccurrence.


Lemma cooccurrence_reads_entities_only_in_pairs_witness :
  RelationExtraction.extract_relations_cooccurrence [unlabelled] (VStr "c1") = inr []
  /\ exists key,
       RelationExtraction.extract_relations_cooccurrence [drug_a; unlabelled] (VStr "c1")
       = inl (KeyError key).
Proof.
  split.
  - apply (cooccurrence_reads_entities_only_in_pairs [unlabelled] (VStr "c1")).
    + apply Exists_cons_hd. right. reflexivity.
    + cbn. lia.
  - apply (cooccurrence_reads_entities_only_in_pairs [drug_a; unlabelled] (VStr "c1")).
    + apply Exists_cons_tl, Exists_cons_hd. right. reflexivity.
    + cbn. lia.
Defined.

(** ** The graph of the co-occurrence relations, and the chunks of an edge *)

Section GraphOfRelations.

Import Networkx KgConstruction Indexing EdgeIndexing RelationExtraction.

Local Open Scope nat_scope.

Implicit Types (g : MultiDiGraph) (x r : pydict) (k u v : pykey).

Lemma fold_exn_app {A S} (f : S -> A -> exn + S) (ys zs : list A) : forall st,
  fold_exn f (ys ++ zs) st = (st' ← fold_exn f ys st; fold_exn f zs st').
Proof.
  induction ys as [|y ys IH]; intros st; [reflexivity|].
  cbn [app fold_exn]. unfold mbind, exn_bind. destruct (f st y); [reflexivity|apply IH].
Qed.

Lemma has_node_true g s :
  has_node g s = true -> exists k, hash_key s = inr k /\ is_Some (_node g !! k).
Proof.
  unfold has_node. destruct (hash_key s) as [|k]; [discriminate|].
  intros H%bool_decide_eq_true_1. eauto.
Qed.

Lemma has_node_same_nodes g g' s : _node g' = _node g -> has_node g' s = has_node g s.
Proof. unfold has_node. now intros ->. Qed.

(** Keywords that name no parameter are accepted. *)
Lemma lookup_In key (d : pydict) (w : value) : In (key, w) d -> is_Some (PyDict.lookup key d).
Proof.
  induction d as [|[key' w'] d IH]; [intros []|]. cbn [PyDict.lookup].
  destruct (String.eqb_spec key key') as [->|Hne]; [eauto|].
  intros [[= ? ?]|Hin]; [congruence|now apply IH].
Qed.

Lemma bind_keywords_accepts method positional (kwargs : pydict) :
  Forall (fun name => PyDict.lookup name kwargs = None) positional ->
  bind_keywords method positional kwargs = inr ().
Proof.
  intros Hnone. unfold bind_keywords.
  destruct (List.find _ kwargs) as [[name w]|] eqn:Hfind; [|reflexivity].
  apply List.find_some in Hfind as [Hin Hname]. cbn [fst] in Hname.
  apply existsb_exists in Hname as (name' & Hin' & Heq). apply String.eqb_eq in Heq.
  subst name'. destruct (lookup_In name kwargs w Hin) as [w' Hw].
  rewrite (proj1 (List.Forall_forall _ _) Hnone name Hin') in Hw. discriminate.
Qed.

Lemma filter_key_absent (kwargs : pydict) :
  PyDict.lookup "key" kwargs = None ->
  List.filter (fun kv => negb (String.eqb (fst kv) "key")) kwargs = kwargs.
Proof.
  induction kwargs as [|[name w] kwargs IH]; [reflexivity|]. cbn [PyDict.lookup List.filter fst].
  rewrite (String.eqb_sym name "key").
  destruct (String.eqb "key" name); [discriminate|]. cbn [negb]. intros H. now rewrite IH.
Qed.

(** The dict of the parallel edges. *)
Lemma keydict_get_In (key : pykey) keydict :
  is_Some (keydict_get key keydict) <-> In key (map fst keydict).
Proof.
  induction keydict as [|[key' d] keydict IH]; cbn [keydict_get map fst In].
  - split; [intros [? ?]; discriminate|intros []].
  - destruct (decide (key = key')) as [->|Hne].
    + split; [now left|eauto].
    + rewrite IH. split; [now right|]. intros [?|?]; [congruence|assumption].
Qed.

Lemma keydict_set_fresh (key : pykey) (datadict : pydict) keydict :
  keydict_get key keydict = None ->
  keydict_set key datadict keydict = (keydict ++ [(key, datadict)])%list.
Proof.
  induction keydict as [|[key' d] keydict IH]; cbn [keydict_get keydict_set app]; [reflexivity|].
  destruct (decide (key = key')); [discriminate|]. intros H. now rewrite IH.
Qed.

Lemma keydict_get_last (key : pykey) (datadict : pydict) keydict :
  keydict_get key keydict = None ->
  keydict_get key (keydict ++ [(key, datadict)]) = Some datadict.
Proof.
  induction keydict as [|[key' d] keydict IH]; cbn [keydict_get app].
  - intros _. now rewrite decide_True.
  - destruct (decide (key = key')); [discriminate|]. exact IH.
Qed.

Lemma free_key_spec keydict : forall fuel (key : Z),
  keydict_get (KInt (free_key fuel key keydict)) keydict = None
  \/ (free_key fuel key keydict = (key + Z.of_nat fuel)%Z
      /\ forall i, i < fuel -> is_Some (keydict_get (KInt (key + Z.of_nat i)) keydict)).
Proof.
  induction fuel as [|fuel IH]; intros key; cbn [free_key].
  - right. split; [lia|]. intros i Hi. lia.
  - destruct (keydict_get (KInt key) keydict) as [d|] eqn:Hkey; [|now left].
    destruct (IH (key + 1)%Z) as [Hfree|[Heq Hall]]; [now left|]. right. split; [lia|].
    intros [|i] Hi.
    + rewrite Z.add_0_r, Hkey. eauto.
    + replace (key + Z.of_nat (S i))%Z with (key + 1 + Z.of_nat i)%Z by lia.
      apply Hall. lia.
Qed.

(** The key that [new_edge_key] gives is not a key of the dict: the
    search ends, among [len(keydict) + 1] keys, on one that is not in it. *)
Lemma new_edge_key_fresh keydict : keydict_get (new_edge_key keydict) keydict = None.
Proof.
  unfold new_edge_key. set (n := length keydict).
  destruct (free_key_spec keydict n (Z.of_nat n)) as [Hfree|[Heq Hall]]; [exact Hfree|].
  destruct (keydict_get (KInt (free_key n (Z.of_nat n) keydict)) keydict) as [d|] eqn:Hlast;
    [|reflexivity].
  exfalso. set (f := fun i : nat => KInt (Z.of_nat n + Z.of_nat i)).
  assert (Inj (=) (=) f) as Hinj by (intros i j [= H]; lia).
  assert (List.NoDup (f <$> seq 0 (S n))) as Hnd.
  { apply NoDup_ListNoDup, (NoDup_fmap_2 f), NoDup_seq. }
  assert (incl (f <$> seq 0 (S n)) (map fst keydict)) as Hincl.
  { intros key Hin. apply list_elem_of_In, list_elem_of_fmap in Hin as (i & -> & Hi).
    apply list_elem_of_In, in_seq in Hi. apply keydict_get_In. unfold f.
    destruct (decide (i = n)) as [->|Hne].
    - rewrite <- Heq, Hlast. eauto.
    - apply Hall. lia. }
  pose proof (List.NoDup_incl_length Hnd Hincl) as Hlen.
  rewrite length_fmap, length_seq, length_map in Hlen. fold n in Hlen. lia.
Qed.

(** Keywords that name no parameter of [add_edge] add one edge under a
    new key. *)
Lemma add_edge_new g u v (kwargs : pydict) :
  no_edge_keyword kwargs ->
  Networkx.add_edge g u v kwargs = inr (with_new_edge g u v kwargs).
Proof.
  intros Hkw. pose proof (proj1 (List.Forall_forall _ _) Hkw) as Hnone.
  unfold Networkx.add_edge, with_new_edge, mbind, exn_bind, mret, exn_ret.
  rewrite bind_keywords_accepts.
  2:{ do 3 (apply List.Forall_cons; [apply Hnone; cbn; tauto|]). apply List.Forall_nil. }
  assert (PyDict.lookup "key" kwargs = None) as Hkey by (apply Hnone; cbn; tauto).
  unfold PyDict.get. rewrite Hkey, (filter_key_absent kwargs Hkey).
  rewrite new_edge_key_fresh. cbn [default].
  now rewrite keydict_set_fresh by apply new_edge_key_fresh.
Qed.

Lemma number_of_edges_new_edge g u v (attr : pydict) :
  number_of_edges (with_new_edge g u v attr) = S (number_of_edges g).
Proof.
  unfold with_new_edge.
  pose proof (number_of_edges_insert g u v
                (default [] (_adj g !! (u, v))
                 ++ [(new_edge_key (default [] (_adj g !! (u, v))), PyDict.update [] attr)]))
    as Hins.
  rewrite length_app in Hins. cbn [length] in Hins. lia.
Qed.

Lemma lookup_edge_keyword (name : string) (ty : value) r :
  In name ["self"; "u_for_edge"; "v_for_edge"; "key"] ->
  PyDict.lookup name
    (PyDict.set "type" ty (without ["entity1_text"; "entity2_text"; "type"] r))
  = PyDict.lookup name r.
Proof.
  intros Hin. rewrite lookup_set_ne, lookup_without; [reflexivity| |].
  - cbn in Hin. destruct Hin as [<-|[<-|[<-|[<-|[]]]]]; reflexivity.
  - cbn in Hin. destruct Hin as [<-|[<-|[<-|[<-|[]]]]]; discriminate.
Qed.

Lemma add_entity_returns g x :
  (exists t, PyDict.lookup "text" x = Some (VStr t)) ->
  PyDict.lookup "self" x = None -> PyDict.lookup "node_for_adding" x = None ->
  exists g', add_entity g x = inr g'.
Proof.
  intros [t Ht] Hself Hnode. unfold add_entity, getitem. rewrite Ht.
  unfold mbind, exn_bind at 1.
  destruct (has_node g (VStr t)); cbn [negb]; [eexists; reflexivity|].
  unfold Networkx.add_node, mbind, exn_bind. rewrite bind_keywords_accepts.
  2:{ do 2 (apply List.Forall_cons; [rewrite lookup_without by reflexivity; assumption|]).
      apply List.Forall_nil. }
  cbn [hash_key]. destruct (_node g !! KStr t); eexists; reflexivity.
Qed.

Lemma extracted_entity_keywords x :
  extracted_entity x ->
  PyDict.lookup "self" x = None /\ PyDict.lookup "node_for_adding" x = None.
Proof.
  intros (_ & _ & Hkeys). pose proof (proj1 (List.Forall_forall _ _) Hkeys) as Hin.
  split; apply lookup_not_key; intros Hkey%list_elem_of_In; apply Hin in Hkey; cbn in Hkey;
    repeat (destruct Hkey as [Hkey|Hkey]; [discriminate|]); exact Hkey.
Qed.

Lemma fold_add_entity_returns entities : forall g,
  Forall extracted_entity entities ->
  exists g', fold_exn add_entity entities g = inr g'.
Proof.
  induction entities as [|x entities IH]; intros g Hall; [eexists; reflexivity|].
  apply Forall_cons in Hall as [Hx Hall].
  destruct (extracted_entity_keywords x Hx) as [Hself Hnode].
  destruct (add_entity_returns g x (proj1 Hx) Hself Hnode) as [g1 H1].
  cbn [fold_exn]. unfold mbind, exn_bind. rewrite H1. now apply IH.
Qed.

(** The graph after the node loop. *)
Lemma fold_add_entity_shape entities g0 :
  fold_exn add_entity entities Networkx.empty = inr g0 ->
  (forall k, is_Some (_node g0 !! k) <-> exists e, In e entities /\ names_node e k)
  /\ _adj g0 = ∅.
Proof.
  intros Hes.
  pose proof (fold_exn_invariant add_entity
                (fun done g => (forall k, is_Some (_node g !! k)
                                          <-> exists e, In e done /\ names_node e k)
                               /\ _adj g = ∅)) as Hinv.
  apply (Hinv) with (ys := entities) (done := []) (s := Networkx.empty); [| |exact Hes].
  - intros done g x g' [Hnodes Hadj] Hadd.
    destruct (add_entity_nodes g x g' Hadd) as (k & Hk & Hdom & Hadj'). split; [|congruence].
    intros k'. rewrite Hdom, Hnodes. split.
    + intros [->|(e & He & Hek)].
      * exists x. split; [apply in_or_app; right; now left|exact Hk].
      * exists e. split; [apply in_or_app; now left|exact Hek].
    + intros (e & [He|[<-|[]]]%in_app_or & Hek).
      * right. eauto.
      * left. destruct Hk as (t & Ht & Hkt), Hek as (t' & Ht' & Hkt'). congruence.
  - split; [|reflexivity]. intros k. cbn [Networkx.empty _node]. rewrite lookup_empty. split.
    + intros [? ?]; discriminate.
    + intros (e & [] & _).
Qed.

(** A relation between two nodes, none of whose keys is a keyword of
    [add_edge], becomes a new edge. *)
Lemma add_relation_joins g r s t :
  PyDict.lookup "entity1_text" r = Some s ->
  PyDict.lookup "entity2_text" r = Some t ->
  is_Some (PyDict.lookup "type" r) ->
  no_edge_keyword r ->
  has_node g s = true -> has_node g t = true ->
  exists u v ty,
    hash_key s = inr u /\ hash_key t = inr v /\ PyDict.lookup "type" r = Some ty
    /\ add_relation g r
       = inr (with_new_edge g u v
                (PyDict.set "type" ty (without ["entity1_text"; "entity2_text"; "type"] r))).
Proof.
  intros Hs Ht [ty Hty] Hkw Hns Hnt.
  destruct (has_node_true g s Hns) as (u & Hu & _).
  destruct (has_node_true g t Hnt) as (v & Hv & _).
  exists u, v, ty. split; [exact Hu|]. split; [exact Hv|]. split; [exact Hty|].
  unfold add_relation, getitem, mbind, exn_bind. rewrite Hs, Ht, Hty, Hns, Hnt, Hu, Hv.
  cbn [andb]. apply add_edge_new. apply List.Forall_forall. intros name Hname.
  rewrite lookup_edge_keyword by exact Hname.
  exact (proj1 (List.Forall_forall _ _) Hkw name Hname).
Qed.

Lemma fold_add_relation_all relations : forall g,
  Forall (fun r => exists s t,
              PyDict.lookup "entity1_text" r = Some s
              /\ PyDict.lookup "entity2_text" r = Some t
              /\ is_Some (PyDict.lookup "type" r)
              /\ no_edge_keyword r
              /\ has_node g s = true /\ has_node g t = true) relations ->
  exists g', fold_exn add_relation relations g = inr g'
             /\ number_of_edges g' = number_of_edges g + length relations
             /\ _node g' = _node g.
Proof.
  induction relations as [|r relations IH]; intros g Hall.
  - exists g. split; [reflexivity|]. split; [cbn [length]; lia|reflexivity].
  - apply Forall_cons in Hall as [(s & t & Hs & Ht & Hty & Hkw & Hns & Hnt) Hall].
    destruct (add_relation_joins g r s t Hs Ht Hty Hkw Hns Hnt)
      as (u & v & ty & _ & _ & _ & Hadd).
    set (g1 := with_new_edge g u v
                 (PyDict.set "type" ty (without ["entity1_text"; "entity2_text"; "type"] r)))
      in Hadd.
    destruct (IH g1) as (g' & Hrun & Hcount & Hnodes).
    { eapply List.Forall_impl; [|exact Hall]. intros r' (s' & t' & ? & ? & ? & ? & ? & ?).
      exists s', t'. rewrite !(has_node_same_nodes g g1) by reflexivity. tauto. }
    exists g'. cbn [fold_exn]. unfold mbind, exn_bind. rewrite Hadd.
    split; [exact Hrun|]. split; [|rewrite Hnodes; reflexivity].
    rewrite Hcount. unfold g1. rewrite number_of_edges_new_edge. cbn [length]. lia.
Qed.

(** X21. From entities as [extract_entities] builds them, the relations
    of [extract_relations_cooccurrence] all become edges of the graph of
    [create_kg]: both calls return, no relation is skipped, and the graph
    has n(n-1)/2 edges. *)
Theorem cooccurrence_graph_has_every_pair (entities : list pydict) (c : value) :
  Forall extracted_entity entities ->
  exists relations g,
    extract_relations_cooccurrence entities c = inr relations
    /\ create_kg entities relations = inr g
    /\ number_of_edges g = length relations
    /\ 2 * number_of_edges g = length entities * (length entities - 1).
Proof.
  intros Hall.
  destruct (extract_relations_cooccurrence_total entities c) as (relations & Hrun & Hlen & Hrel).
  { eapply List.Forall_impl; [|exact Hall]. intros e ([t Ht] & Hl & _). split; [eauto|exact Hl]. }
  destruct (fold_add_entity_returns entities Networkx.empty Hall) as [g0 Hg0].
  destruct (fold_add_entity_shape entities g0 Hg0) as [Hnodes Hadj].
  destruct (fold_add_relation_all relations g0) as (g & Hg & Hcount & _).
  { eapply List.Forall_impl; [|exact Hrel].
    intros r [(Hty & _ & e1 & e2 & He1 & He2 & Ht1 & _ & Ht2 & _) Hkw].
    destruct (proj1 (List.Forall_forall _ _) Hall e1 He1) as ([t1 Hx1] & _).
    destruct (proj1 (List.Forall_forall _ _) Hall e2 He2) as ([t2 Hx2] & _).
    exists (VStr t1), (VStr t2). rewrite Ht1, Ht2, Hty. split; [exact Hx1|].
    split; [exact Hx2|]. split; [eauto|]. split; [exact Hkw|].
    split; unfold has_node; cbn [hash_key]; apply bool_decide_eq_true_2, Hnodes.
    - exists e1. split; [exact He1|]. exists (VStr t1). now split.
    - exists e2. split; [exact He2|]. exists (VStr t2). now split. }
  assert (number_of_edges g0 = 0) as Hzero.
  { unfold number_of_edges. rewrite Hadj. apply map_fold_empty. }
  exists relations, g. split; [exact Hrun|]. split; [|split; lia].
  unfold create_kg, mbind, exn_bind. now rewrite Hg0.
Qed.

Lemma get_source_ids_for_edge_all g (s t : value) u v :
  hash_key s = inr u -> hash_key t = inr v -> is_Some (_node g !! u) ->
  get_source_ids_for_edge g s t VNone
  = fold_exn (fun source_ids edge =>
                ids ← Indexing.source_ids (snd edge); mret (source_ids ∪ ids))
      (default [] (_adj g !! (u, v))) ∅.
Proof.
  intros Hu Hv [node Hnode].
  unfold get_source_ids_for_edge, has_edge, mbind, exn_bind, mret, exn_ret.
  rewrite Hu, Hnode, Hv.
  destruct (_adj g !! (u, v)) as [keydict|].
  - rewrite bool_decide_eq_true_2 by eauto. reflexivity.
  - rewrite bool_decide_eq_false_2 by (intros [? ?]; discriminate). reflexivity.
Qed.

(** X22. The chunks of an edge accumulate, where those of a node are
    overwritten: a further relation between two nodes of the graph of
    [create_kg], none of whose keys is a keyword of the [add_edge] of
    networkx ([key], which names the edge to update, among them), becomes a
    further parallel edge, so that [get_source_ids_for_edge] without a key
    gives the chunk ids it gave before together with the chunk of the new
    relation, and with the key of the new edge that chunk alone; the chunk
    ids of the two nodes are as before. *)
Theorem edge_provenance_accumulates entities relations g r (s t : value) (c : string) ids :
  create_kg entities relations = inr g ->
  wf_dict r ->
  PyDict.lookup "entity1_text" r = Some s ->
  PyDict.lookup "entity2_text" r = Some t ->
  is_Some (PyDict.lookup "type" r) ->
  no_edge_keyword r ->
  has_node g s = true -> has_node g t = true ->
  PyDict.lookup "text_chunk_id" r = Some (VStr c) ->
  get_source_ids_for_edge g s t VNone = inr ids ->
  exists g' key,
    create_kg entities (relations ++ [r]) = inr g'
    /\ get_source_ids_for_edge g' s t VNone = inr (ids ∪ chunk_set c)
    /\ get_source_ids_for_edge g' s t (VInt key) = inr (chunk_set c)
    /\ get_source_ids_for_node g' s = get_source_ids_for_node g s
    /\ get_source_ids_for_node g' t = get_source_ids_for_node g t.
Proof.
  intros Hg Hwf Hs Ht Hty Hkw Hns Hnt Hc Hids.
  destruct (add_relation_joins g r s t Hs Ht Hty Hkw Hns Hnt)
    as (u & v & ty & Hu & Hv & _ & Hadd).
  destruct (has_node_true g s Hns) as (u' & Hu' & Hnode).
  assert (u' = u) as -> by congruence.
  set (attrs := PyDict.set "type" ty (without ["entity1_text"; "entity2_text"; "type"] r))
    in Hadd.
  set (old := default [] (_adj g !! (u, v))).
  assert (source_ids (PyDict.update [] attrs) = inr (chunk_set c)) as Hnew.
  { apply source_ids_tagged. rewrite lookup_update by apply wf_set, wf_without, Hwf.
    unfold attrs. rewrite lookup_set_ne by discriminate.
    rewrite lookup_without by reflexivity. now rewrite Hc. }
  rewrite (get_source_ids_for_edge_all g s t u v Hu Hv Hnode) in Hids. fold old in Hids.
  pose proof (new_edge_key_fresh old) as Hfresh.
  exists (with_new_edge g u v attrs), (free_key (length old) (Z.of_nat (length old)) old).
  split; [|split; [|split; [|split]]].
  - revert Hg. unfold create_kg, mbind, exn_bind.
    destruct (fold_exn add_entity entities Networkx.empty) as [|g0]; [discriminate|].
    intros Hg. rewrite fold_exn_app, Hg. cbn [fold_exn]. unfold mbind, exn_bind.
    now rewrite Hadd.
  - rewrite (get_source_ids_for_edge_all _ s t u v Hu Hv) by exact Hnode.
    unfold with_new_edge. cbn [_adj]. rewrite lookup_insert_eq.
    match goal with |- context [default [] (Some ?l)] => change (default [] (Some l)) with l end.
    fold old. rewrite fold_exn_app, Hids. cbn [fold_exn snd]. unfold mbind, exn_bind.
    now rewrite Hnew.
  - unfold get_source_ids_for_edge, has_edge, mbind, exn_bind, mret, exn_ret.
    destruct Hnode as [node Hnode].
    rewrite Hu, Hv. unfold with_new_edge. cbn [_adj _node hash_key]. rewrite Hnode.
    rewrite lookup_insert_eq. rewrite bool_decide_eq_true_2 by eauto.
    cbn [negb].
    match goal with |- context [default [] (Some ?l)] => change (default [] (Some l)) with l end.
    fold old. unfold new_edge_key in Hfresh |- *.
    now rewrite (keydict_get_last _ _ _ Hfresh).
  - reflexivity.
  - reflexivity.
Qed.

End GraphOfRelations.

Lemma cooccurrence_graph_has_every_pair_witness :
  exists relations g,
    RelationExtraction.extract_relations_cooccurrence [drug_a; disease_x; aspirin_doc1]
      (VStr "c1") = inr relations
    /\ KgConstruction.create_kg [drug_a; disease_x; aspirin_doc1] relations = inr g
    /\ number_of_edges g = length relations
    /\ (2 * number_of_edges g = 3 * 2)%nat.
Proof.
  apply (cooccurrence_graph_has_every_pair [drug_a; disease_x; aspirin_doc1] (VStr "c1")).
  apply List.Forall_forall. intros e [<-|[<-|[<-|[]]]];
    (split; [eexists; reflexivity|]); (split; [eexists; reflexivity|]);
    apply List.Forall_forall; intros key [<-|[<-|[<-|[]]]]; cbn; auto 10.
Defined.

Lemma edge_provenance_accumulates_witness :
  exists g' key,
    KgConstruction.create_kg [drug_a; disease_x] ([treats] ++ [treats_again]) = inr g'
    /\ EdgeIndexing.get_source_ids_for_edge g' (VStr "DrugA") (VStr "DiseaseX") VNone
       = inr ({[KStr "c1"]} ∪ chunk_set "c2")
    /\ EdgeIndexing.get_source_ids_for_edge g' (VStr "DrugA") (VStr "DiseaseX") (VInt key)
       = inr (chunk_set "c2")
    /\ Indexing.get_source_ids_for_node g' (VStr "DrugA") = inr {[KStr "c1"]}.
Proof.
  pose (g := match KgConstruction.create_kg [drug_a; disease_x] [treats] with
             | inr g => g
             | inl _ => Networkx.empty
             end).
  destruct (edge_provenance_accumulates [drug_a; disease_x] [treats] g treats_again
              (VStr "DrugA") (VStr "DiseaseX") "c2" {[KStr "c1"]})
    as (g' & key & Hg' & Hall & Hkey & Hnode & _).
  - reflexivity.
  - unfold wf_dict; apply (bool_decide_unpack _); vm_compute; exact I.
  - reflexivity.
  - reflexivity.
  - eexists; reflexivity.
  - unfold no_edge_keyword. do 4 (apply List.Forall_cons; [reflexivity|]). apply List.Forall_nil.
  - reflexivity.
  - reflexivity.
  - reflexivity.
  - reflexivity.
  - exists g', key. split; [exact Hg'|]. split; [exact Hall|]. split; [exact Hkey|].
    rewrite Hnode. reflexivity.
Defined.

(** A [key] entry of a relation names the edge to update: the relation
    with the key of the first edge overwrites its chunk, and no edge is
    added.  An entry named as a parameter of [add_edge] is a [TypeError]. *)
Example relation_key_names_the_edge :
  (exists g,
      KgConstruction.create_kg [drug_a; disease_x] [treats; treats_keyed] = inr g
      /\ number_of_edges g = 1%nat
      /\ EdgeIndexing.get_source_ids_for_edge g (VStr "DrugA") (VStr "DiseaseX") VNone
         = inr {[KStr "c2"]})
  /\ KgConstruction.create_kg [drug_a; disease_x] [treats; treats_misnamed]
     = inl (TypeError
              "MultiDiGraph.add_edge() got multiple values for argument 'u_for_edge'").
Proof.
  split; [eexists; split; [reflexivity|split]|]; reflexivity.
Qed.

(** ** Deduplication by id *)

Section Deduplication.

Import Main.

Local Open Scope nat_scope.

Lemma id_key_unique record k k' : id_key record k -> id_key record k' -> k = k'.
Proof. intros (v & Hv & Hk) (v' & Hv' & Hk'). congruence. Qed.

Lemma assign_keys k e d :
  (In k (map fst d) -> map fst (assign k e d) = map fst d)
  /\ (~ In k (map fst d) -> map fst (assign k e d) = (map fst d ++ [k])%list).
Proof.
  induction d as [|[k' e'] d [IHin IHout]]; cbn [assign map fst app].
  - split; [intros []|reflexivity].
  - destruct (decide (k = k')) as [->|Hne]; cbn [map fst].
    + split; [reflexivity|]. intros Hout. exfalso. apply Hout. now left.
    + split.
      * intros [?|Hin]; [congruence|]. now rewrite IHin.
      * intros Hout. rewrite IHout; [reflexivity|]. intros Hin. apply Hout. now right.
Qed.

Lemma assign_In k e d k0 e0 :
  List.NoDup (map fst d) ->
  In (k0, e0) (assign k e d) <-> (k0 = k /\ e0 = e) \/ (k0 <> k /\ In (k0, e0) d).
Proof.
  induction d as [|[k' e'] d IH]; cbn [assign map fst]; intros Hnd.
  - split.
    + intros [[= <- <-]|[]]. now left.
    + intros [[-> ->]|[_ []]]. now left.
  - apply List.NoDup_cons_iff in Hnd as [Hnotin Hnd].
    destruct (decide (k = k')) as [<-|Hne].
    + split.
      * intros [[= <- <-]|Hin]; [now left|]. right. split; [|now right].
        intros ->. apply Hnotin. apply in_map_iff. exists (k, e0). now split.
      * intros [[-> ->]|[Hne [[= ? ?]|Hin]]]; [now left|congruence|now right].
    + split.
      * intros [[= <- <-]|Hin].
        -- right. split; [congruence|now left].
        -- apply IH in Hin as [?|[? ?]]; [now left| |]; try assumption.
           right. split; [assumption|now right].
      * intros [[-> ->]|[Hne0 [Heq|Hin]]].
        -- right. apply IH; [assumption|now left].
        -- now left.
        -- right. apply IH; [assumption|]. right. now split.
Qed.

Lemma assign_NoDup k e d : List.NoDup (map fst d) -> List.NoDup (map fst (assign k e d)).
Proof.
  intros Hnd. destruct (assign_keys k e d) as [Hin Hout].
  destruct (in_dec pykey_eq_dec k (map fst d)) as [H|H].
  - now rewrite Hin.
  - rewrite Hout by assumption. apply List.NoDup_app; [assumption|repeat constructor; intros []|].
    intros k0 Hk0 [<-|[]]. contradiction.
Qed.

Lemma assign_length k e d : length (assign k e d) <= S (length d).
Proof.
  induction d as [|[k' e'] d IH]; cbn [assign length]; [lia|].
  destruct (decide (k = k')); cbn [length]; lia.
Qed.

(** What the dict of the comprehension holds after the records [done]. *)
Lemma by_id_invariant records d :
  by_id records = inr d ->
  List.NoDup (map fst d)
  /\ (forall k e, In (k, e) d -> last_with_key records k e)
  /\ (forall e k, In e records -> id_key e k -> exists e', In (k, e') d)
  /\ length d <= length records.
Proof.
  unfold by_id. intros Hrun.
  pose proof (fold_exn_invariant
                (fun d e => id ← getitem e "id"; k ← hash_key id; mret (assign k e d))
                (fun done d =>
                   List.NoDup (map fst d)
                   /\ (forall k e, In (k, e) d -> last_with_key done k e)
                   /\ (forall e k, In e done -> id_key e k -> exists e', In (k, e') d)
                   /\ length d <= length done)) as Hinv.
  apply (Hinv) with (ys := records) (done := []) (s := []); [| |exact Hrun].
  - clear. intros done d y d' (Hnd & Hlast & Hall & Hlen).
    unfold getitem, mbind, exn_bind, mret, exn_ret.
    destruct (PyDict.lookup "id" y) as [v|] eqn:Hv; [|discriminate].
    destruct (hash_key v) as [|ky] eqn:Hky; [discriminate|]. intros [= <-].
    assert (id_key y ky) as Hy by (exists v; now split).
    split; [now apply assign_NoDup|]. split; [|split].
    + intros k e Hin. apply assign_In in Hin; [|exact Hnd].
      destruct Hin as [[-> ->]|[Hne Hin]].
      * split; [exact Hy|]. exists done, []. split; [reflexivity|constructor].
      * destruct (Hlast k e Hin) as (He & before & after & -> & Hafter).
        split; [exact He|]. exists before, (after ++ [y])%list.
        split; [now rewrite <- app_assoc|].
        apply Forall_app. split; [exact Hafter|]. constructor; [|constructor].
        intros Hyk. apply Hne. exact (id_key_unique y k ky Hyk Hy).
    + intros e k [He|[<-|[]]]%in_app_or Hek.
      * destruct (Hall e k He Hek) as [e' He']. destruct (decide (k = ky)) as [->|Hne].
        -- exists y. apply assign_In; [assumption|]. now left.
        -- exists e'. apply assign_In; [assumption|]. right. now split.
      * rewrite (id_key_unique _ _ _ Hek Hy). exists y. apply assign_In; [assumption|].
        now left.
    + rewrite length_app. cbn [length]. pose proof (assign_length ky y d). lia.
  - split; [constructor|]. split; [intros k e []|]. split; [intros e k []|]. cbn. lia.
Qed.

Lemma lookup_map_snd {A B} (d : list (A * B)) i (b : B) :
  map snd d !! i = Some b -> exists a, d !! i = Some (a, b) /\ map fst d !! i = Some a.
Proof.
  revert i. induction d as [|[a' b'] d IH]; intros [|i]; cbn; try discriminate.
  - intros [= <-]. eauto.
  - apply IH.
Qed.

(** X23. The deduplication of [main] keeps, for each id, the last record
    that carries it: the records kept have pairwise distinct ids, each is
    the last record of the input with its id, every id of the input is the
    id of a record kept, and no record is added. *)
Theorem deduplication_keeps_last_record records unique :
  deduplicate records = inr unique ->
  length unique <= length records
  /\ (forall e, In e unique -> exists k, last_with_key records k e)
  /\ (forall e k, In e records -> id_key e k -> exists e', In e' unique /\ id_key e' k)
  /\ (forall i j e1 e2 k,
        unique !! i = Some e1 -> unique !! j = Some e2 ->
        id_key e1 k -> id_key e2 k -> i = j).
Proof.
  unfold deduplicate, mbind, exn_bind, mret, exn_ret.
  destruct (by_id records) as [|d] eqn:Hd; [discriminate|]. intros [= <-].
  destruct (by_id_invariant records d Hd) as (Hnd & Hlast & Hall & Hlen).
  split; [now rewrite length_map|]. split; [|split].
  - intros e [[k e'] [<- Hin]]%in_map_iff. exists k. now apply Hlast.
  - intros e k He Hek. destruct (Hall e k He Hek) as [e' He'].
    exists e'. split; [apply in_map_iff; exists (k, e'); now split|].
    now destruct (Hlast k e' He').
  - intros i j e1 e2 k Hi Hj H1 H2.
    apply lookup_map_snd in Hi as (k1 & Hi & Hki), Hj as (k2 & Hj & Hkj).
    assert (id_key e1 k1) as H1'.
    { apply (Hlast k1 e1). apply list_elem_of_In. eapply list_elem_of_lookup_2. exact Hi. }
    assert (id_key e2 k2) as H2'.
    { apply (Hlast k2 e2). apply list_elem_of_In. eapply list_elem_of_lookup_2. exact Hj. }
    rewrite (id_key_unique _ _ _ H1' H1) in Hki. rewrite (id_key_unique _ _ _ H2' H2) in Hkj.
    apply NoDup_ListNoDup in Hnd. exact (NoDup_lookup _ i j k Hnd Hki Hkj).
Qed.

End Deduplication.

Lemma deduplication_keeps_last_record_witness :
  exists unique,
    Main.deduplicate [e1_from_c1; python_skill; e1_from_c2] = inr unique
    /\ (length unique <= 3)%nat
    /\ (forall e, In e unique ->
                  exists k, last_with_key [e1_from_c1; python_skill; e1_from_c2] k e)
    /\ unique = [e1_from_c2; python_skill].
Proof.
  eexists. split; [reflexivity|].
  destruct (deduplication_keeps_last_record [e1_from_c1; python_skill; e1_from_c2]
              [e1_from_c2; python_skill]) as (Hlen & Hlast & _); [reflexivity|].
  split; [exact Hlen|]. split; [exact Hlast|reflexivity].
Defined.
